(** * The course editor: document tree, history and save controller

    A shallow embedding of [data/course-json/jp_course_editor.py]:
    the [CourseModel] class (structural normalization, node references,
    add / delete / move) and the part of [EditorApp] that owns the
    undo/redo history, the version counter and the asynchronous save
    controller.  Widgets, labels and the raw JSON view carry no state the
    properties below depend on and are left out.  Of the functions around
    the two classes it has the model steps of [run_self_test] and
    [atomic_write_text]. *)

From Stdlib Require Import ZArith NArith List Lia.
From stdpp Require Import base tactics option list numbers strings gmap.

Set Warnings "-register-all".
Open Scope Z_scope.

(** ** Python values *)

(** A Python [str] is a sequence of Unicode code points. *)
Definition pystr := list N.

Definition str (s : string) : pystr :=
  map (fun a : Ascii.ascii => Ascii.N_of_ascii a) (String.list_ascii_of_string s).

(** What [json.load] produces.  Objects keep their keys in insertion order
    ([json.dumps] is called with [sort_keys=False], so the order reaches the
    file), hence an association list; a key occurs once.  A float is kept as
    the 64 bits of its IEEE double; the editor never looks inside a
    number. *)
Inductive json :=
| JNull
| JBool (b : bool)
| JInt (n : Z)
| JFloat (bits : N)
| JStr (s : pystr)
| JList (xs : list json)
| JDict (kvs : list (pystr * json)).

Definition dict := list (pystr * json).

Definition isinstance_dict (v : json) : bool :=
  match v with JDict _ => true | _ => false end.

Definition isinstance_list (v : json) : bool :=
  match v with JList _ => true | _ => false end.

(** Truth value of an object, as [if x:] and [x or y] test it. *)
Definition truthy (v : json) : bool :=
  match v with
  | JNull => false
  | JBool b => b
  | JInt n => negb (n =? 0)
  | JFloat bits => negb (N.eqb (N.modulo bits (2 ^ 63)) 0)
  | JStr s => match s with [] => false | _ => true end
  | JList xs => match xs with [] => false | _ => true end
  | JDict kvs => match kvs with [] => false | _ => true end
  end.

(** ** Exceptions *)

Inductive exn := KeyError | IndexError | TypeError | ValueError | AttributeError.

Inductive res (A : Type) :=
| OK (a : A)
| Raise (e : exn).
Arguments OK {A} a.
Arguments Raise {A} e.

#[global] Instance res_ret : MRet res := fun A a => OK a.
#[global] Instance res_bind : MBind res := fun A B f m =>
  match m with OK a => f a | Raise e => Raise e end.

Definition succeeds {A} (r : res A) : Prop := exists a, r = OK a.

(** ** Dictionaries *)

Fixpoint dict_get (k : pystr) (d : dict) : option json :=
  match d with
  | [] => None
  | (k', v) :: d' => if decide (k' = k) then Some v else dict_get k d'
  end.

(** [d[k] = v]: an existing key keeps its place, a new one goes last. *)
Fixpoint dict_set (k : pystr) (v : json) (d : dict) : dict :=
  match d with
  | [] => [(k, v)]
  | (k', v') :: d' =>
      if decide (k' = k) then (k', v) :: d' else (k', v') :: dict_set k v d'
  end.

(** [d.pop(k, None)], the dictionary afterwards. *)
Fixpoint dict_pop (k : pystr) (d : dict) : dict :=
  match d with
  | [] => []
  | (k', v') :: d' => if decide (k' = k) then d' else (k', v') :: dict_pop k d'
  end.

(** [d.get(k)]: [None] when the key is absent. *)
Definition py_get (d : dict) (k : pystr) : json :=
  match dict_get k d with Some v => v | None => JNull end.

(** [d.setdefault(k, v)], the dictionary afterwards. *)
Definition setdefault (k : pystr) (v : json) (d : dict) : dict :=
  match dict_get k d with Some _ => d | None => dict_set k v d end.

(** ** Subscripts *)

(** Position addressed by a Python index in a sequence of [len] elements:
    a negative index counts from the end. *)
Definition py_index (len : nat) (i : Z) : option nat :=
  if 0 <=? i then (if i <? Z.of_nat len then Some (Z.to_nat i) else None)
  else if - Z.of_nat len <=? i then Some (Z.to_nat (Z.of_nat len + i))
  else None.

(** [o[k]] for a string [k]. *)
Definition getitem_key (o : json) (k : pystr) : res json :=
  match o with
  | JDict kvs => match dict_get k kvs with Some v => OK v | None => Raise KeyError end
  | _ => Raise TypeError
  end.

(** [o[i]] for [i] an [Optional[int]] field of a reference.  The keys of a
    JSON object are strings, so an integer or [None] is never among them. *)
Definition getitem_idx (o : json) (i : option Z) : res json :=
  match o with
  | JList xs =>
      match i with
      | None => Raise TypeError
      | Some i =>
          match py_index (length xs) i with
          | Some n => match xs !! n with Some x => OK x | None => Raise IndexError end
          | None => Raise IndexError
          end
      end
  | JStr s =>
      match i with
      | None => Raise TypeError
      | Some i =>
          match py_index (length s) i with
          | Some n => match s !! n with Some c => OK (JStr [c]) | None => Raise IndexError end
          | None => Raise IndexError
          end
      end
  | JDict _ => Raise KeyError
  | _ => Raise TypeError
  end.

(** [del o[i]], the container afterwards. *)
Definition delitem_idx (o : json) (i : option Z) : res json :=
  match o with
  | JList xs =>
      match i with
      | None => Raise TypeError
      | Some i =>
          match py_index (length xs) i with
          | Some n => OK (JList (delete n xs))
          | None => Raise IndexError
          end
      end
  | JDict _ => Raise KeyError
  | _ => Raise TypeError
  end.

(** [o[i] = v], the container afterwards.  On an object the subscript read
    that precedes every such store in the editor has already raised. *)
Definition setitem_idx (o : json) (i : option Z) (v : json) : res json :=
  match o with
  | JList xs =>
      match i with
      | None => Raise TypeError
      | Some i =>
          match py_index (length xs) i with
          | Some n => OK (JList (<[n := v]> xs))
          | None => Raise IndexError
          end
      end
  | _ => Raise TypeError
  end.

(** [o.append(v)], the container afterwards. *)
Definition append (o : json) (v : json) : res json :=
  match o with
  | JList xs => OK (JList (xs ++ [v]))
  | _ => Raise AttributeError
  end.

(** [len(o)]. *)
Definition py_len (o : json) : res Z :=
  match o with
  | JList xs => OK (Z.of_nat (length xs))
  | JStr s => OK (Z.of_nat (length s))
  | JDict kvs => OK (Z.of_nat (length kvs))
  | _ => Raise TypeError
  end.

(** The document is a tree: [json.load] and [copy.deepcopy] of a tree share
    no children, and the editor only ever inserts freshly built objects.
    Mutating an object reached through subscripts is therefore the same as
    storing the new value back along the path it was reached by. *)
Definition store_key (o : json) (k : pystr) (v : json) : json :=
  match o with
  | JDict kvs => JDict (dict_set k v kvs)
  | _ => o
  end.

Definition store_idx (o : json) (i : option Z) (v : json) : json :=
  match o, i with
  | JList xs, Some i =>
      match py_index (length xs) i with
      | Some n => JList (<[n := v]> xs)
      | None => o
      end
  | _, _ => o
  end.

(** ** Strings: [str.strip] *)

(** The code points for which [str.isspace] holds. *)
Definition is_space (c : N) : bool :=
  ((N.leb 9 c && N.leb c 13) || (N.leb 28 c && N.leb c 32)
   || N.eqb c 133 || N.eqb c 160 || N.eqb c 5760
   || (N.leb 8192 c && N.leb c 8202)
   || N.eqb c 8232 || N.eqb c 8233 || N.eqb c 8239 || N.eqb c 8287
   || N.eqb c 12288)%bool%N.

Fixpoint lstrip (s : pystr) : pystr :=
  match s with
  | [] => []
  | c :: s' => if is_space c then lstrip s' else s
  end.

Definition rstrip (s : pystr) : pystr := reverse (lstrip (reverse s)).

Definition strip (s : pystr) : pystr := rstrip (lstrip s).

(** ** The model: [CourseModel] *)

Definition DEFAULT_ITEM_IMAGE : pystr := str "data/course-img/transparent.png".

Inductive Kind := Course | Category | Lesson | Item | OtherKind.

(** [NodeRef]: the [kind] string (any string other than the four known ones
    is [OtherKind]) and three [Optional[int]] fields. *)
Record NodeRef := mkRef {
  kind : Kind;
  cat_i : option Z;
  lesson_i : option Z;
  item_i : option Z
}.

Definition ref_course : NodeRef := mkRef Course None None None.
Definition ref_category (ci : Z) : NodeRef := mkRef Category (Some ci) None None.
Definition ref_lesson (ci li : Z) : NodeRef := mkRef Lesson (Some ci) (Some li) None.
Definition ref_item (ci li ii : Z) : NodeRef := mkRef Item (Some ci) (Some li) (Some ii).

(** [x or 0] for an [Optional[int]]. *)
Definition or0 (i : option Z) : Z :=
  match i with Some i => i | None => 0 end.

Definition empty_str : json := JStr [].

(** *** [_normalize_structure]

    Every loop runs over a copy of the list and repairs the list itself in
    place, element by element: afterwards position [i] holds the repaired
    [i]-th element, which is [map]. *)
Definition normalize_item (item : json) : json :=
  let item := match item with JDict kvs => kvs | _ => [] end in
  let item := setdefault (str "ja") empty_str item in
  let item := setdefault (str "it") empty_str item in
  let item := setdefault (str "image") (JStr DEFAULT_ITEM_IMAGE) item in
  JDict item.

Definition normalize_lesson (lesson : json) : json :=
  let lesson := match lesson with JDict kvs => kvs | _ => [] end in
  let lesson := setdefault (str "name") empty_str lesson in
  let lesson := setdefault (str "slug") empty_str lesson in
  let items := py_get lesson (str "items") in
  let '(items, lesson) :=
    match items with
    | JList xs => (xs, lesson)
    | _ => ([], dict_set (str "items") (JList []) lesson)
    end in
  JDict (dict_set (str "items") (JList (map normalize_item items)) lesson).

Definition normalize_category (cat : json) : json :=
  let cat := match cat with JDict kvs => kvs | _ => [] end in
  let cat := setdefault (str "name") empty_str cat in
  let cat := setdefault (str "slug") empty_str cat in
  let lessons := py_get cat (str "lessons") in
  let '(lessons, cat) :=
    match lessons with
    | JList xs => (xs, cat)
    | _ => ([], dict_set (str "lessons") (JList []) cat)
    end in
  JDict (dict_set (str "lessons") (JList (map normalize_lesson lessons)) cat).

Definition _normalize_structure (data : json) : json :=
  let data := match data with JDict kvs => kvs | _ => [] end in
  let course := py_get data (str "course") in
  let data :=
    if isinstance_dict course then data
    else dict_set (str "course") (JDict []) data in
  let cats := py_get data (str "categories") in
  let '(cats, data) :=
    match cats with
    | JList xs => (xs, data)
    | _ => ([], dict_set (str "categories") (JList []) data)
    end in
  JDict (dict_set (str "categories") (JList (map normalize_category cats)) data).

(** *** [get_node] *)
Definition get_node (data : json) (ref : NodeRef) : res json :=
  match kind ref with
  | Course => getitem_key data (str "course")
  | Category =>
      cats ← getitem_key data (str "categories");
      getitem_idx cats (cat_i ref)
  | Lesson =>
      cats ← getitem_key data (str "categories");
      cat ← getitem_idx cats (cat_i ref);
      lessons ← getitem_key cat (str "lessons");
      getitem_idx lessons (lesson_i ref)
  | Item =>
      cats ← getitem_key data (str "categories");
      cat ← getitem_idx cats (cat_i ref);
      lessons ← getitem_key cat (str "lessons");
      lesson ← getitem_idx lessons (lesson_i ref);
      items ← getitem_key lesson (str "items");
      getitem_idx items (item_i ref)
  | OtherKind => Raise ValueError
  end.

(** The document after the list of categories, the list of lessons of one
    category, or the list of items of one lesson was changed in place. *)
Definition put_categories (data cats' : json) : json :=
  store_key data (str "categories") cats'.

Definition put_lessons (data cats : json) (ci : option Z) (cat lessons' : json) : json :=
  put_categories data (store_idx cats ci (store_key cat (str "lessons") lessons')).

Definition put_items (data cats : json) (ci : option Z) (cat lessons : json)
    (li : option Z) (lesson items' : json) : json :=
  put_lessons data cats ci cat (store_idx lessons li (store_key lesson (str "items") items')).

(** *** [add_category], [add_lesson], [add_item]

    Each returns the document afterwards and the reference it returns. *)
Definition add_category (data : json) (name slug : pystr) : res (json * NodeRef) :=
  let cat := JDict [(str "name", JStr name); (str "slug", JStr slug);
                    (str "lessons", JList [])] in
  cats ← getitem_key data (str "categories");
  cats' ← append cats cat;
  n ← py_len cats';
  OK (put_categories data cats', mkRef Category (Some (n - 1)) None None).

Definition add_lesson (data : json) (ci : option Z) (name slug : pystr)
    : res (json * NodeRef) :=
  let lesson := JDict [(str "name", JStr name); (str "slug", JStr slug);
                       (str "items", JList [])] in
  cats ← getitem_key data (str "categories");
  cat ← getitem_idx cats ci;
  lessons ← getitem_key cat (str "lessons");
  lessons' ← append lessons lesson;
  n ← py_len lessons';
  OK (put_lessons data cats ci cat lessons', mkRef Lesson ci (Some (n - 1)) None).

Definition add_item (data : json) (ci li : option Z) (ja it : pystr)
    (image : option pystr) : res (json * NodeRef) :=
  let img := strip (match image with Some s => s | None => [] end) in
  let img := match img with [] => DEFAULT_ITEM_IMAGE | _ => img end in
  let item := JDict [(str "ja", JStr ja); (str "it", JStr it); (str "image", JStr img)] in
  cats ← getitem_key data (str "categories");
  cat ← getitem_idx cats ci;
  lessons ← getitem_key cat (str "lessons");
  lesson ← getitem_idx lessons li;
  items ← getitem_key lesson (str "items");
  items' ← append items item;
  n ← py_len items';
  OK (put_items data cats ci cat lessons li lesson items', mkRef Item ci li (Some (n - 1))).

(** *** [delete_node] *)
Definition delete_node (data : json) (ref : NodeRef) : res (json * NodeRef) :=
  match kind ref with
  | Course => OK (data, ref)
  | Category =>
      cats ← getitem_key data (str "categories");
      cats' ← delitem_idx cats (cat_i ref);
      let data' := put_categories data cats' in
      if truthy cats' then
        n ← py_len cats';
        OK (data', mkRef Category (Some (Z.min (or0 (cat_i ref)) (n - 1))) None None)
      else OK (data', ref_course)
  | Lesson =>
      cats ← getitem_key data (str "categories");
      cat ← getitem_idx cats (cat_i ref);
      lessons ← getitem_key cat (str "lessons");
      lessons' ← delitem_idx lessons (lesson_i ref);
      let data' := put_lessons data cats (cat_i ref) cat lessons' in
      if truthy lessons' then
        n ← py_len lessons';
        OK (data', mkRef Lesson (cat_i ref)
                     (Some (Z.min (or0 (lesson_i ref)) (n - 1))) None)
      else OK (data', mkRef Category (cat_i ref) None None)
  | Item =>
      cats ← getitem_key data (str "categories");
      cat ← getitem_idx cats (cat_i ref);
      lessons ← getitem_key cat (str "lessons");
      lesson ← getitem_idx lessons (lesson_i ref);
      items ← getitem_key lesson (str "items");
      items' ← delitem_idx items (item_i ref);
      let data' := put_items data cats (cat_i ref) cat lessons (lesson_i ref) lesson items' in
      if truthy items' then
        n ← py_len items';
        OK (data', mkRef Item (cat_i ref) (lesson_i ref)
                     (Some (Z.min (or0 (item_i ref)) (n - 1))))
      else OK (data', mkRef Lesson (cat_i ref) (lesson_i ref) None)
  | OtherKind => OK (data, ref_course)
  end.

(** *** [move_node]

    [arr[i], arr[j] = arr[j], arr[i]] reads [arr[j]] and [arr[i]], then
    stores into [arr[i]] and into [arr[j]]. *)
Definition swap (arr : json) (i j : Z) : res json :=
  x ← getitem_idx arr (Some j);
  y ← getitem_idx arr (Some i);
  arr1 ← setitem_idx arr (Some i) x;
  setitem_idx arr1 (Some j) y.

(** The shared body of the three branches: the list afterwards and the new
    index, or [None] when the target is out of bounds and nothing is done.
    In [0 <= j < len(arr)] the length is only taken when [0 <= j]. *)
Definition move_in (arr : json) (idx : option Z) (direction : Z)
    : res (option (json * Z)) :=
  let i := or0 idx in
  let j := i + direction in
  if 0 <=? j then
    n ← py_len arr;
    if j <? n then
      arr' ← swap arr i j;
      OK (Some (arr', j))
    else OK None
  else OK None.

Definition move_node (data : json) (ref : NodeRef) (direction : Z)
    : res (json * NodeRef) :=
  match kind ref with
  | Category =>
      arr ← getitem_key data (str "categories");
      m ← move_in arr (cat_i ref) direction;
      match m with
      | Some (arr', j) => OK (put_categories data arr', mkRef Category (Some j) None None)
      | None => OK (data, ref)
      end
  | Lesson =>
      cats ← getitem_key data (str "categories");
      cat ← getitem_idx cats (cat_i ref);
      arr ← getitem_key cat (str "lessons");
      m ← move_in arr (lesson_i ref) direction;
      match m with
      | Some (arr', j) =>
          OK (put_lessons data cats (cat_i ref) cat arr',
              mkRef Lesson (cat_i ref) (Some j) None)
      | None => OK (data, ref)
      end
  | Item =>
      cats ← getitem_key data (str "categories");
      cat ← getitem_idx cats (cat_i ref);
      lessons ← getitem_key cat (str "lessons");
      lesson ← getitem_idx lessons (lesson_i ref);
      arr ← getitem_key lesson (str "items");
      m ← move_in arr (item_i ref) direction;
      match m with
      | Some (arr', j) =>
          OK (put_items data cats (cat_i ref) cat lessons (lesson_i ref) lesson arr',
              mkRef Item (cat_i ref) (lesson_i ref) (Some j))
      | None => OK (data, ref)
      end
  | _ => OK (data, ref)
  end.


(** *** Field edits: [_apply_form_to_model]

    The values of the form widgets: the [StringVar]s as they are, the text
    widgets as [get("1.0", END)] returns them. *)
Record Form := mkForm {
  course_title_var : pystr;
  course_slug_var : pystr;
  course_desc_text : pystr;
  cl_name_var : pystr;
  cl_slug_var : pystr;
  cl_notes_text : pystr;
  item_ja_var : pystr;
  item_it_var : pystr;
  item_image_var : pystr
}.

Fixpoint lstrip_newlines (s : pystr) : pystr :=
  match s with
  | [] => []
  | c :: s' => if N.eqb c 10 then lstrip_newlines s' else s
  end.

(** [_get_text_widget]: the text with the trailing ["\n"]s removed. *)
Definition _get_text_widget (text : pystr) : pystr :=
  reverse (lstrip_newlines (reverse text)).

(** [o[k] = v] for a string [k], the container afterwards. *)
Definition setitem_key (o : json) (k : pystr) (v : json) : res json :=
  match o with
  | JDict kvs => OK (JDict (dict_set k v kvs))
  | _ => Raise TypeError
  end.

(** [o.pop(k, None)], the container afterwards. *)
Definition pop_key (o : json) (k : pystr) : res json :=
  match o with
  | JDict kvs => OK (JDict (dict_pop k kvs))
  | JList _ => Raise TypeError
  | _ => Raise AttributeError
  end.

(** [o.get(k, dflt)]. *)
Definition method_get (o : json) (k : pystr) (dflt : json) : res json :=
  match o with
  | JDict kvs => OK (match dict_get k kvs with Some v => v | None => dflt end)
  | _ => Raise AttributeError
  end.

(** The document after the node a reference resolves to was changed in
    place. *)
Definition put_node (data : json) (ref : NodeRef) (node' : json) : res json :=
  match kind ref with
  | Course => OK (store_key data (str "course") node')
  | Category =>
      cats ← getitem_key data (str "categories");
      OK (put_categories data (store_idx cats (cat_i ref) node'))
  | Lesson =>
      cats ← getitem_key data (str "categories");
      cat ← getitem_idx cats (cat_i ref);
      lessons ← getitem_key cat (str "lessons");
      OK (put_lessons data cats (cat_i ref) cat (store_idx lessons (lesson_i ref) node'))
  | Item =>
      cats ← getitem_key data (str "categories");
      cat ← getitem_idx cats (cat_i ref);
      lessons ← getitem_key cat (str "lessons");
      lesson ← getitem_idx lessons (lesson_i ref);
      items ← getitem_key lesson (str "items");
      OK (put_items data cats (cat_i ref) cat lessons (lesson_i ref) lesson
            (store_idx items (item_i ref) node'))
  | OtherKind => Raise ValueError
  end.

(** A text field that is dropped from the node when it is empty. *)
Definition set_or_pop (node : json) (k : pystr) (text : pystr) : res json :=
  match text with
  | [] => pop_key node k
  | _ => setitem_key node k (JStr text)
  end.

Definition _apply_form_to_model (data : json) (ref : NodeRef) (f : Form) : res json :=
  node ← get_node data ref;
  match kind ref with
  | Course =>
      node ← setitem_key node (str "title") (JStr (strip (course_title_var f)));
      node ← setitem_key node (str "slug") (JStr (strip (course_slug_var f)));
      node ← set_or_pop node (str "description")
               (strip (_get_text_widget (course_desc_text f)));
      put_node data ref node
  | Category | Lesson =>
      node ← setitem_key node (str "name") (JStr (strip (cl_name_var f)));
      node ← setitem_key node (str "slug") (JStr (strip (cl_slug_var f)));
      node ← set_or_pop node (str "notes")
               (strip (_get_text_widget (cl_notes_text f)));
      put_node data ref node
  | Item =>
      node ← setitem_key node (str "ja") (JStr (strip (item_ja_var f)));
      node ← setitem_key node (str "it") (JStr (strip (item_it_var f)));
      let img := match strip (item_image_var f) with
                 | [] => DEFAULT_ITEM_IMAGE
                 | img => img
                 end in
      node ← setitem_key node (str "image") (JStr img);
      put_node data ref node
  | OtherKind => OK data
  end.

(** *** [_can_move] *)
Definition in_bounds (arr : json) (idx : option Z) (direction : Z) : res bool :=
  let j := or0 idx + direction in
  if 0 <=? j then n ← py_len arr; OK (j <? n) else OK false.

Definition _can_move (data : json) (ref : NodeRef) (direction : Z) : res bool :=
  match kind ref with
  | Course => OK false
  | Category =>
      cats ← method_get data (str "categories") (JList []);
      in_bounds cats (cat_i ref) direction
  | Lesson =>
      cats ← getitem_key data (str "categories");
      cat ← getitem_idx cats (cat_i ref);
      lessons ← method_get cat (str "lessons") (JList []);
      in_bounds lessons (lesson_i ref) direction
  | Item =>
      cats ← getitem_key data (str "categories");
      cat ← getitem_idx cats (cat_i ref);
      lessons ← getitem_key cat (str "lessons");
      lesson ← getitem_idx lessons (lesson_i ref);
      items ← method_get lesson (str "items") (JList []);
      in_bounds items (item_i ref) direction
  | OtherKind => OK false
  end.

(** ** The application: [EditorApp]

    The fields of [EditorApp] that hold the document, the history and the
    save controller.  A timer handle ([after] id) is kept as whether a timer
    is armed. *)
Record EditorApp := mkApp {
  model_data : json;
  model_version : Z;
  last_saved_version : Z;
  undo_stack : list json;
  redo_stack : list json;
  undo_limit : Z;
  _edit_group_active : bool;
  _edit_group_after_id : bool;
  _autosave_after_id : bool;
  _save_in_progress : bool;
  _save_pending : bool;
  _save_last_error : option pystr;
  _inflight_version : option Z;
  _inflight_snapshot : option json
}.

Definition set_model_data (v : json) (a : EditorApp) : EditorApp :=
  mkApp v (model_version a) (last_saved_version a) (undo_stack a) (redo_stack a)
    (undo_limit a) (_edit_group_active a) (_edit_group_after_id a) (_autosave_after_id a)
    (_save_in_progress a) (_save_pending a) (_save_last_error a) (_inflight_version a)
    (_inflight_snapshot a).

Definition set_model_version (v : Z) (a : EditorApp) : EditorApp :=
  mkApp (model_data a) v (last_saved_version a) (undo_stack a) (redo_stack a)
    (undo_limit a) (_edit_group_active a) (_edit_group_after_id a) (_autosave_after_id a)
    (_save_in_progress a) (_save_pending a) (_save_last_error a) (_inflight_version a)
    (_inflight_snapshot a).

Definition set_last_saved_version (v : Z) (a : EditorApp) : EditorApp :=
  mkApp (model_data a) (model_version a) v (undo_stack a) (redo_stack a)
    (undo_limit a) (_edit_group_active a) (_edit_group_after_id a) (_autosave_after_id a)
    (_save_in_progress a) (_save_pending a) (_save_last_error a) (_inflight_version a)
    (_inflight_snapshot a).

Definition set_undo_stack (v : list json) (a : EditorApp) : EditorApp :=
  mkApp (model_data a) (model_version a) (last_saved_version a) v (redo_stack a)
    (undo_limit a) (_edit_group_active a) (_edit_group_after_id a) (_autosave_after_id a)
    (_save_in_progress a) (_save_pending a) (_save_last_error a) (_inflight_version a)
    (_inflight_snapshot a).

Definition set_redo_stack (v : list json) (a : EditorApp) : EditorApp :=
  mkApp (model_data a) (model_version a) (last_saved_version a) (undo_stack a) v
    (undo_limit a) (_edit_group_active a) (_edit_group_after_id a) (_autosave_after_id a)
    (_save_in_progress a) (_save_pending a) (_save_last_error a) (_inflight_version a)
    (_inflight_snapshot a).

Definition set_edit_group_active (v : bool) (a : EditorApp) : EditorApp :=
  mkApp (model_data a) (model_version a) (last_saved_version a) (undo_stack a)
    (redo_stack a) (undo_limit a) v (_edit_group_after_id a) (_autosave_after_id a)
    (_save_in_progress a) (_save_pending a) (_save_last_error a) (_inflight_version a)
    (_inflight_snapshot a).

Definition set_edit_group_after_id (v : bool) (a : EditorApp) : EditorApp :=
  mkApp (model_data a) (model_version a) (last_saved_version a) (undo_stack a)
    (redo_stack a) (undo_limit a) (_edit_group_active a) v (_autosave_after_id a)
    (_save_in_progress a) (_save_pending a) (_save_last_error a) (_inflight_version a)
    (_inflight_snapshot a).

Definition set_autosave_after_id (v : bool) (a : EditorApp) : EditorApp :=
  mkApp (model_data a) (model_version a) (last_saved_version a) (undo_stack a)
    (redo_stack a) (undo_limit a) (_edit_group_active a) (_edit_group_after_id a) v
    (_save_in_progress a) (_save_pending a) (_save_last_error a) (_inflight_version a)
    (_inflight_snapshot a).

Definition set_save_in_progress (v : bool) (a : EditorApp) : EditorApp :=
  mkApp (model_data a) (model_version a) (last_saved_version a) (undo_stack a)
    (redo_stack a) (undo_limit a) (_edit_group_active a) (_edit_group_after_id a)
    (_autosave_after_id a) v (_save_pending a) (_save_last_error a) (_inflight_version a)
    (_inflight_snapshot a).

Definition set_save_pending (v : bool) (a : EditorApp) : EditorApp :=
  mkApp (model_data a) (model_version a) (last_saved_version a) (undo_stack a)
    (redo_stack a) (undo_limit a) (_edit_group_active a) (_edit_group_after_id a)
    (_autosave_after_id a) (_save_in_progress a) v (_save_last_error a) (_inflight_version a)
    (_inflight_snapshot a).

Definition set_save_last_error (v : option pystr) (a : EditorApp) : EditorApp :=
  mkApp (model_data a) (model_version a) (last_saved_version a) (undo_stack a)
    (redo_stack a) (undo_limit a) (_edit_group_active a) (_edit_group_after_id a)
    (_autosave_after_id a) (_save_in_progress a) (_save_pending a) v (_inflight_version a)
    (_inflight_snapshot a).

Definition set_inflight_version (v : option Z) (a : EditorApp) : EditorApp :=
  mkApp (model_data a) (model_version a) (last_saved_version a) (undo_stack a)
    (redo_stack a) (undo_limit a) (_edit_group_active a) (_edit_group_after_id a)
    (_autosave_after_id a) (_save_in_progress a) (_save_pending a) (_save_last_error a) v
    (_inflight_snapshot a).

Definition set_inflight_snapshot (v : option json) (a : EditorApp) : EditorApp :=
  mkApp (model_data a) (model_version a) (last_saved_version a) (undo_stack a)
    (redo_stack a) (undo_limit a) (_edit_group_active a) (_edit_group_after_id a)
    (_autosave_after_id a) (_save_in_progress a) (_save_pending a) (_save_last_error a)
    (_inflight_version a) v.

(** [EditorApp.__init__] on [CourseModel(data)], whose constructor
    normalizes. *)
Definition init_app (data : json) : EditorApp :=
  {| model_data := _normalize_structure data;
     model_version := 0;
     last_saved_version := 0;
     undo_stack := [];
     redo_stack := [];
     undo_limit := 100;
     _edit_group_active := false;
     _edit_group_after_id := false;
     _autosave_after_id := false;
     _save_in_progress := false;
     _save_pending := false;
     _save_last_error := None;
     _inflight_version := None;
     _inflight_snapshot := None |}.

(** *** History

    Both stacks are Python lists: [append] adds at the end, [pop()] takes the
    last element, [pop(0)] the first.  [copy.deepcopy] of a value is the
    value. *)
Definition py_pop {A} (xs : list A) : option (A * list A) :=
  match reverse xs with
  | [] => None
  | x :: rest => Some (x, reverse rest)
  end.

Definition _push_undo_snapshot (a : EditorApp) : EditorApp :=
  let st := undo_stack a ++ [model_data a] in
  let st := if undo_limit a <? Z.of_nat (length st) then drop 1 st else st in
  set_redo_stack [] (set_undo_stack st a).

Definition _begin_coalesced_edit (a : EditorApp) : EditorApp :=
  let a :=
    if _edit_group_active a then a
    else set_edit_group_active true (_push_undo_snapshot a) in
  set_edit_group_after_id true a.

Definition _end_coalesced_edit (a : EditorApp) : EditorApp :=
  set_edit_group_after_id false (set_edit_group_active false a).

Definition _schedule_autosave (a : EditorApp) : EditorApp :=
  set_autosave_after_id true a.

Definition _touch_model (structural : bool) (a : EditorApp) : EditorApp :=
  let a := set_model_data (_normalize_structure (model_data a)) a in
  let a := set_model_version (model_version a + 1) a in
  let a := if structural then _end_coalesced_edit a else a in
  _schedule_autosave a.

Definition _do_undo (a : EditorApp) : EditorApp :=
  match py_pop (undo_stack a) with
  | None => a
  | Some (top, rest) =>
      let a := _end_coalesced_edit a in
      let a := set_redo_stack (redo_stack a ++ [model_data a]) a in
      let a := set_model_data top (set_undo_stack rest a) in
      let a := set_model_data (_normalize_structure (model_data a)) a in
      let a := set_model_version (model_version a + 1) a in
      _schedule_autosave a
  end.

Definition _do_redo (a : EditorApp) : EditorApp :=
  match py_pop (redo_stack a) with
  | None => a
  | Some (top, rest) =>
      let a := _end_coalesced_edit a in
      let st := undo_stack a ++ [model_data a] in
      let st := if undo_limit a <? Z.of_nat (length st) then drop 1 st else st in
      let a := set_undo_stack st a in
      let a := set_model_data top (set_redo_stack rest a) in
      let a := set_model_data (_normalize_structure (model_data a)) a in
      let a := set_model_version (model_version a + 1) a in
      _schedule_autosave a
  end.

(** *** Commands

    Every handler runs as a Tk callback: an exception raised inside leaves
    the handler at that statement, is reported by Tk, and the main loop goes
    on with the state as it is by then.  The selection ([current_ref]) is an
    input of the handler.  What a handler does to the tree view, the form
    and the status line is not part of the state kept here; between the call
    into the model and [_touch_model] a handler only computes the selection
    key of the reference the call returned. *)
Definition structural_command (op : json -> res (json * NodeRef)) (a : EditorApp)
    : EditorApp :=
  let a := _push_undo_snapshot a in
  match op (model_data a) with
  | OK (data', _) => _touch_model true (set_model_data data' a)
  | Raise _ => a
  end.

Definition _add_category (a : EditorApp) : EditorApp :=
  structural_command (fun data => add_category data (str "New category") []) a.

Definition _add_lesson (ref : NodeRef) (a : EditorApp) : EditorApp :=
  match kind ref with
  | Category | Lesson | Item =>
      match cat_i ref with
      | None => a
      | Some ci =>
          structural_command (fun data => add_lesson data (Some ci) (str "New lesson") []) a
      end
  | _ => a
  end.

Definition _add_item (ref : NodeRef) (a : EditorApp) : EditorApp :=
  match kind ref with
  | Lesson | Item =>
      match cat_i ref, lesson_i ref with
      | Some ci, Some li =>
          structural_command (fun data => add_item data (Some ci) (Some li) [] [] None) a
      | _, _ => a
      end
  | _ => a
  end.

(** [confirmed] is the answer to the "Delete the selected node?" dialog. *)
Definition _delete_selected (ref : NodeRef) (confirmed : bool) (a : EditorApp)
    : EditorApp :=
  match kind ref with
  | Course => a
  | _ =>
      if confirmed then structural_command (fun data => delete_node data ref) a
      else a
  end.

Definition _move_selected (ref : NodeRef) (direction : Z) (a : EditorApp)
    : EditorApp :=
  match _can_move (model_data a) ref direction with
  | OK true => structural_command (fun data => move_node data ref direction) a
  | _ => a
  end.

(** [_on_field_changed] and [_on_text_modified] with form events not
    suspended. *)
Definition _on_field_changed (ref : NodeRef) (f : Form) (a : EditorApp) : EditorApp :=
  let a := _begin_coalesced_edit a in
  match _apply_form_to_model (model_data a) ref f with
  | OK data' => _touch_model false (set_model_data data' a)
  | Raise _ => a
  end.

(** *** Save controller

    [_start_save_async] and [_on_save_done] return the application state and
    the worker threads they started, each given by the snapshot it was
    handed to write. *)
Definition _start_save_async (a : EditorApp) : EditorApp * list json :=
  if _save_in_progress a then (set_save_pending true a, [])
  else
    let version := model_version a in
    let snapshot := model_data a in
    let a := set_inflight_version (Some version) a in
    let a := set_inflight_snapshot (Some snapshot) a in
    let a := set_save_in_progress true a in
    let a := set_save_last_error None a in
    (a, [snapshot]).

Definition _on_save_done (ok : bool) (err : option pystr) (a : EditorApp)
    : EditorApp * list json :=
  let a := set_save_in_progress false a in
  let a :=
    if ok then
      let a := match _inflight_version a with
               | Some v => set_last_saved_version v a
               | None => a
               end in
      set_save_last_error None a
    else
      let msg := match err with
                 | Some (c :: e) => c :: e
                 | _ => str "Unknown error"
                 end in
      set_save_last_error (Some msg) a in
  let a := set_inflight_snapshot None (set_inflight_version None a) in
  if _save_pending a then _start_save_async (set_save_pending false a)
  else (a, []).

Definition _autosave_fire (a : EditorApp) : EditorApp * list json :=
  _start_save_async (set_autosave_after_id false a).

Definition _save_now (a : EditorApp) : EditorApp * list json :=
  _start_save_async a.

Definition _is_dirty (a : EditorApp) : bool :=
  negb (model_version a =? last_saved_version a)
  || _save_in_progress a || _save_pending a.

(** *** Toolbar: [_refresh_toolbar]

    The widgets handed to [_pack_toolbar], in order. *)
Inductive button :=
  btn_add_category | btn_add_lesson | btn_add_item | btn_delete | btn_up | btn_down.

Definition _refresh_toolbar (ref : NodeRef) (a : EditorApp) : res (list button) :=
  let widgets := [btn_add_category] in
  let widgets := match kind ref with
                 | Category | Lesson | Item => widgets ++ [btn_add_lesson]
                 | _ => widgets
                 end in
  let widgets := match kind ref with
                 | Lesson | Item => widgets ++ [btn_add_item]
                 | _ => widgets
                 end in
  let widgets := match kind ref with
                 | Course => widgets
                 | _ => widgets ++ [btn_delete]
                 end in
  up ← _can_move (model_data a) ref (-1);
  let widgets := if up : bool then widgets ++ [btn_up] else widgets in
  down ← _can_move (model_data a) ref 1;
  let widgets := if down : bool then widgets ++ [btn_down] else widgets in
  OK widgets.

(** *** Closing: [_request_close]

    [askyesno] is the user's answer to each dialog.  The result is the
    dialogs shown, in order, and whether [root.destroy()] is reached. *)
Inductive dialog := AutosaveFailed | UnsavedChanges.

Definition _request_close (askyesno : dialog -> bool) (a : EditorApp)
    : list dialog * bool :=
  let failed := match _save_last_error a with Some (_ :: _) => true | _ => false end in
  if failed && negb (askyesno AutosaveFailed) then ([AutosaveFailed], false)
  else
    let shown := if failed then [AutosaveFailed] else [] in
    if _save_in_progress a || _save_pending a
       || negb (model_version a =? last_saved_version a)
    then
      if askyesno UnsavedChanges then (shown ++ [UnsavedChanges], true)
      else (shown ++ [UnsavedChanges], false)
    else (shown, true).

(** ** The event loop

    Everything runs on the Tk main loop, one callback after the other.  The
    editor together with the worker threads of the save controller:
    [workers] are the snapshots being written by threads whose completion
    callback has not run yet, [written] every snapshot ever handed to a
    thread, oldest first. *)
Inductive event :=
| AddCategory
| AddLesson (ref : NodeRef)
| AddItem (ref : NodeRef)
| DeleteSelected (ref : NodeRef) (confirmed : bool)
| MoveSelected (ref : NodeRef) (direction : Z)
| FieldChanged (ref : NodeRef) (f : Form)
| EditTimer
| Undo
| Redo
| AutosaveTimer
| SaveNow
| SaveDone (ok : bool) (err : option pystr).

Record World := mkWorld {
  app : EditorApp;
  workers : list json;
  written : list json
}.

Definition init_world (data : json) : World :=
  mkWorld (init_app data) [] [].

Definition ui (f : EditorApp -> EditorApp) (w : World) : World :=
  mkWorld (f (app w)) (workers w) (written w).

Definition saving (f : EditorApp -> EditorApp * list json) (w : World) : World :=
  let '(a, started) := f (app w) in
  mkWorld a (workers w ++ started) (written w ++ started).

(** A completion callback runs once for a thread that was started, after
    its write. *)
Definition handle (e : event) (w : World) : World :=
  match e with
  | AddCategory => ui _add_category w
  | AddLesson ref => ui (_add_lesson ref) w
  | AddItem ref => ui (_add_item ref) w
  | DeleteSelected ref confirmed => ui (_delete_selected ref confirmed) w
  | MoveSelected ref direction => ui (_move_selected ref direction) w
  | FieldChanged ref f => ui (_on_field_changed ref f) w
  | EditTimer => ui _end_coalesced_edit w
  | Undo => ui _do_undo w
  | Redo => ui _do_redo w
  | AutosaveTimer => saving _autosave_fire w
  | SaveNow => saving _save_now w
  | SaveDone ok err =>
      match workers w with
      | [] => w
      | _ :: rest => saving (_on_save_done ok err) (mkWorld (app w) rest (written w))
      end
  end.

Definition run (evs : list event) (w : World) : World :=
  fold_left (fun w e => handle e w) evs w.

Definition is_save_request (e : event) : bool :=
  match e with AutosaveTimer | SaveNow => true | _ => false end.

Definition is_save_done (e : event) : bool :=
  match e with SaveDone _ _ => true | _ => false end.

(** Undo and redo, the two events that take snapshots off a stack. *)
Definition is_history_event (e : event) : bool :=
  match e with Undo | Redo => true | _ => false end.

(** ** The self-test: [run_self_test]

    The steps between [json.load] and the write of the output file, on the
    object that was loaded.  The result is the document handed to
    [pretty_json], [None] when the [assert] on the new item's image fails. *)
Definition run_self_test (data : json) : res (option json) :=
  let data := _normalize_structure data in
  _ ← get_node data ref_course;
  cats ← method_get data (str "categories") JNull;
  _ ← (if truthy cats then get_node data (ref_category 0) else OK JNull);
  '(data, ref_cat) ← add_category data (str "New category") [];
  '(data, ref_lesson) ← add_lesson data (Some (or0 (cat_i ref_cat))) (str "New lesson") [];
  '(data, ref_item) ← add_item data (Some (or0 (cat_i ref_lesson)))
                        (Some (or0 (lesson_i ref_lesson))) [] [] None;
  item ← get_node data ref_item;
  image ← method_get item (str "image") JNull;
  if truthy image then
    '(data, _) ← move_node data ref_item (-1);
    '(data, _) ← delete_node data ref_item;
    OK (Some data)
  else OK None.

(** ** Files: [atomic_write_text]

    The regular files of the file system, by path.  What the operating
    system may refuse is given by [faults]: each call that can raise, and for
    the write what had reached the temporary file by then.  [tmp] is the
    name [mkstemp] picks. *)
Record faults := mkFaults {
  mkdir_fails : bool;
  mkstemp_fails : bool;
  write_fails : option pystr;
  replace_fails : bool;
  unlink_fails : bool
}.

(** [os.replace(src, dst)]. *)
Definition os_replace (src dst : string) (fs : gmap string pystr)
    : option (gmap string pystr) :=
  match fs !! src with
  | Some content => Some (<[dst := content]> (delete src fs))
  | None => None
  end.

(** The file system afterwards, and whether the call returned (rather than
    raised). *)
Definition atomic_write_text (F : faults) (tmp path : string) (text : pystr)
    (fs : gmap string pystr) : gmap string pystr * bool :=
  if mkdir_fails F then (fs, false)
  else if mkstemp_fails F then (fs, false)
  else
    let fs := <[tmp := []]> fs in
    let '(fs, ok) :=
      match write_fails F with
      | Some partial => (<[tmp := partial]> fs, false)
      | None =>
          let fs := <[tmp := text]> fs in
          if replace_fails F then (fs, false)
          else match os_replace tmp path fs with
               | Some fs' => (fs', true)
               | None => (fs, false)
               end
      end in
    let fs := match fs !! tmp with
              | Some _ => if unlink_fails F then fs else delete tmp fs
              | None => fs
              end in
    (fs, ok).

(** * Vocabulary of the statements *)

Definition has_key (k : pystr) (d : dict) : Prop := is_Some (dict_get k d).

(** The step every level of [_normalize_structure] ends with: make the
    value under [key] a list and repair its elements. *)
Definition repair_children (key : pystr) (f : json -> json) (d : dict) : dict :=
  let children := py_get d key in
  let '(children, d) :=
    match children with
    | JList xs => (xs, d)
    | _ => ([], dict_set key (JList []) d)
    end in
  dict_set key (JList (map f children)) d.

(** The first step of [_normalize_structure] on the top-level object. *)
Definition ensure_course (d : dict) : dict :=
  if isinstance_dict (py_get d (str "course")) then d
  else dict_set (str "course") (JDict []) d.

(** Paths into the document: a string subscript or an index subscript per
    step.  [get_path] reads along a path as the chained subscripts of the
    source do, [put_path] is the document after the object at the end of the
    path was replaced. *)
Inductive step :=
| Key (k : pystr)
| Idx (i : option Z).

Fixpoint get_path (o : json) (p : list step) : res json :=
  match p with
  | [] => OK o
  | Key k :: p' => c ← getitem_key o k; get_path c p'
  | Idx i :: p' => c ← getitem_idx o i; get_path c p'
  end.

Fixpoint put_path (o : json) (p : list step) (v : json) : json :=
  match p with
  | [] => v
  | Key k :: p' =>
      match getitem_key o k with
      | OK c => store_key o k (put_path c p' v)
      | Raise _ => o
      end
  | Idx i :: p' =>
      match getitem_idx o i with
      | OK c => store_idx o i (put_path c p' v)
      | Raise _ => o
      end
  end.

(** Every index step of the path is taken on a list (not on a string). *)
Fixpoint on_lists (o : json) (p : list step) : Prop :=
  match p with
  | [] => True
  | Key k :: p' =>
      match getitem_key o k with OK c => on_lists c p' | Raise _ => True end
  | Idx i :: p' =>
      isinstance_list o = true /\
      match getitem_idx o i with OK c => on_lists c p' | Raise _ => True end
  end.

(** The child sequence a node sits in, the node's index in it, the same
    reference at another index, and the reference to the parent. *)
Definition sibling_path (ref : NodeRef) : list step :=
  match kind ref with
  | Category => [Key (str "categories")]
  | Lesson => [Key (str "categories"); Idx (cat_i ref); Key (str "lessons")]
  | Item => [Key (str "categories"); Idx (cat_i ref); Key (str "lessons");
             Idx (lesson_i ref); Key (str "items")]
  | _ => []
  end.

Definition siblings (data : json) (ref : NodeRef) : res json :=
  get_path data (sibling_path ref).

Definition put_siblings (data : json) (ref : NodeRef) (xs' : json) : json :=
  put_path data (sibling_path ref) xs'.

Definition own_index (ref : NodeRef) : option Z :=
  match kind ref with
  | Category => cat_i ref
  | Lesson => lesson_i ref
  | Item => item_i ref
  | _ => None
  end.

Definition with_index (ref : NodeRef) (j : Z) : NodeRef :=
  match kind ref with
  | Category => mkRef Category (Some j) None None
  | Lesson => mkRef Lesson (cat_i ref) (Some j) None
  | Item => mkRef Item (cat_i ref) (lesson_i ref) (Some j)
  | _ => ref
  end.

Definition parent_ref (ref : NodeRef) : NodeRef :=
  match kind ref with
  | Lesson => mkRef Category (cat_i ref) None None
  | Item => mkRef Lesson (cat_i ref) (lesson_i ref) None
  | _ => ref_course
  end.

Definition is_child (ref : NodeRef) : bool :=
  match kind ref with Category | Lesson | Item => true | _ => false end.

(** A reference to a category, lesson or item that is valid in the tree:
    the child sequence it points into exists, it is [xs], and the
    reference's own index is the position [i] in it. *)
Definition valid_child (data : json) (ref : NodeRef) (xs : list json) (i : nat) : Prop :=
  is_child ref = true /\
  siblings data ref = OK (JList xs) /\
  own_index ref = Some (Z.of_nat i) /\
  (i < length xs)%nat.

(** An [image] argument that is [None], empty or all white space. *)
Definition blank (image : option pystr) : bool :=
  match image with
  | None => true
  | Some s => forallb is_space s
  end.

(** The image an item carries, the placeholder when it carries none. *)
Definition image_or_default (item : json) : json :=
  match item with
  | JDict kvs =>
      match dict_get (str "image") kvs with
      | Some v => v
      | None => JStr DEFAULT_ITEM_IMAGE
      end
  | _ => JStr DEFAULT_ITEM_IMAGE
  end.

(** The reference [delete_node] is to return after position [i] was
    removed and [xs'] is what is left of the child sequence. *)
Definition successor (ref : NodeRef) (i : nat) (xs' : list json) : NodeRef :=
  match xs' with
  | [] => parent_ref ref
  | _ :: _ =>
      with_index ref (Z.of_nat (if (i <? length xs')%nat then i else (length xs' - 1)%nat))
  end.

(** The chain of subscripts [get_node] follows for a reference. *)
Definition node_path (ref : NodeRef) : list step :=
  match kind ref with
  | Course => [Key (str "course")]
  | _ => sibling_path ref ++ [Idx (own_index ref)]
  end.

(** The list found under [key], none when the value there is not a list. *)
Definition children_list (key : pystr) (d : dict) : list json :=
  match py_get d key with JList xs => xs | _ => [] end.

(** What holds of the editor between any two callbacks: the cap is the one
    set at start-up, the two stacks together hold at most that many
    snapshots, and the document is normalized. *)
Definition app_inv (a : EditorApp) : Prop :=
  undo_limit a = 100 /\
  Z.of_nat (length (undo_stack a) + length (redo_stack a)) <= undo_limit a /\
  _normalize_structure (model_data a) = model_data a.

(** The save controller and its worker threads agree: either nothing is
    being written and nothing is queued, or exactly one thread is writing
    the snapshot recorded as in flight. *)
Definition save_inv (w : World) : Prop :=
  (workers w = [] /\ _save_in_progress (app w) = false /\ _save_pending (app w) = false)
  \/ (exists s v, workers w = [s] /\ _save_in_progress (app w) = true /\
                  _inflight_version (app w) = Some v /\
                  _inflight_snapshot (app w) = Some s).

(** The fields the save controller owns. *)
Definition save_fields (a : EditorApp)
    : bool * bool * option pystr * option Z * option json * Z :=
  (_save_in_progress a, _save_pending a, _save_last_error a, _inflight_version a,
   _inflight_snapshot a, last_saved_version a).

(** The fields the history owns, and the document. *)
Definition edit_fields (a : EditorApp) : json * Z * list json * list json * Z * bool :=
  (model_data a, model_version a, undo_stack a, redo_stack a, undo_limit a,
   _edit_group_active a).

(** [_on_save_done] up to its last statement, the test for a queued save:
    the outcome of the write is recorded. *)
Definition completion_recorded (ok : bool) (err : option pystr) (a : EditorApp)
    : EditorApp :=
  let a := set_save_in_progress false a in
  let a :=
    if ok then
      let a := match _inflight_version a with
               | Some v => set_last_saved_version v a
               | None => a
               end in
      set_save_last_error None a
    else
      let msg := match err with
                 | Some (c :: e) => c :: e
                 | _ => str "Unknown error"
                 end in
      set_save_last_error (Some msg) a in
  set_inflight_snapshot None (set_inflight_version None a).

Definition normalized (d : json) : Prop := _normalize_structure d = d.

(** The stack after an [append] followed by the eviction test of
    [_push_undo_snapshot] and [_do_redo]. *)
Definition capped (limit : Z) (st : list json) : list json :=
  if limit <? Z.of_nat (length st) then drop 1 st else st.

(** Whether the handler of an event, run in state [a], gets as far as
    [_push_undo_snapshot]: a structural command that passes its guards, a
    field edit that opens an edit group. *)
Definition pushes_snapshot (e : event) (a : EditorApp) : bool :=
  match e with
  | AddCategory => true
  | AddLesson ref =>
      match kind ref, cat_i ref with
      | (Category | Lesson | Item), Some _ => true
      | _, _ => false
      end
  | AddItem ref =>
      match kind ref, cat_i ref, lesson_i ref with
      | (Lesson | Item), Some _, Some _ => true
      | _, _, _ => false
      end
  | DeleteSelected ref confirmed =>
      match kind ref with Course => false | _ => confirmed end
  | MoveSelected ref direction =>
      match _can_move (model_data a) ref direction with OK true => true | _ => false end
  | FieldChanged _ _ => negb (_edit_group_active a)
  | _ => false
  end.

(** The number of snapshots a run of events pushes. *)
Fixpoint snapshots_pushed (evs : list event) (w : World) : nat :=
  match evs with
  | [] => 0
  | e :: evs' =>
      ((if pushes_snapshot e (app w) then 1 else 0) + snapshots_pushed evs' (handle e w))%nat
  end.

(** A node that normalization leaves as it is, by the level it sits at. *)
Definition level_ok (k : Kind) (x : json) : Prop :=
  match k with
  | Category => normalize_category x = x
  | Lesson => normalize_lesson x = x
  | Item => normalize_item x = x
  | _ => True
  end.

(** The node [add_category], [add_lesson] and [add_item] build. *)
Definition new_category (name slug : pystr) : json :=
  JDict [(str "name", JStr name); (str "slug", JStr slug); (str "lessons", JList [])].

Definition new_lesson (name slug : pystr) : json :=
  JDict [(str "name", JStr name); (str "slug", JStr slug); (str "items", JList [])].

(** Storing [v] at path [p] into a list of nodes that are all [P] gives
    such a list again. *)
Definition keeps_list (P : json -> Prop) (p : list step) (v : json) : Prop :=
  forall xs, Forall P xs -> exists xs', put_path (JList xs) p v = JList xs' /\ Forall P xs'.

(** What [_apply_form_to_model] stores: the node it read with three fields
    set (or the third one dropped). *)
Definition form_fields (k : Kind) (f : Form) : list (pystr * pystr) :=
  match k with
  | Course => [(str "title", strip (course_title_var f));
               (str "slug", strip (course_slug_var f))]
  | Category | Lesson => [(str "name", strip (cl_name_var f));
                          (str "slug", strip (cl_slug_var f))]
  | Item => [(str "ja", strip (item_ja_var f)); (str "it", strip (item_it_var f));
             (str "image", match strip (item_image_var f) with
                           | [] => DEFAULT_ITEM_IMAGE
                           | img => img
                           end)]
  | OtherKind => []
  end.

Definition form_text (k : Kind) (f : Form) : option (pystr * pystr) :=
  match k with
  | Course => Some (str "description", strip (_get_text_widget (course_desc_text f)))
  | Category | Lesson => Some (str "notes", strip (_get_text_widget (cl_notes_text f)))
  | _ => None
  end.

Definition edited (k : Kind) (f : Form) (kvs : dict) : dict :=
  let kvs := fold_left (fun d '(key, v) => dict_set key (JStr v) d) (form_fields k f) kvs in
  match form_text k f with
  | Some (key, []) => dict_pop key kvs
  | Some (key, text) => dict_set key (JStr text) kvs
  | None => kvs
  end.

(** What holds of the history between any two callbacks, beyond [app_inv]:
    every snapshot on either stack is a normalized document. *)
Definition history_inv (a : EditorApp) : Prop :=
  app_inv a /\ Forall normalized (undo_stack a) /\ Forall normalized (redo_stack a).

(** The events that leave an open edit group open: field edits and what the
    save controller does. *)
Definition keeps_group (e : event) : bool :=
  match e with
  | FieldChanged _ _ | AutosaveTimer | SaveNow | SaveDone _ _ => true
  | _ => false
  end.

(** The snapshot the last successful write has put into the file, [None]
    while the file is still the one that was loaded: a worker whose
    completion reports success has written the snapshot it was handed, one
    that reports failure has left the file as it was. *)
Fixpoint saved_snapshot (evs : list event) (w : World) (disk : option json)
    : option json :=
  match evs with
  | [] => disk
  | e :: evs' =>
      let disk' := match e, workers w with
                   | SaveDone true _, s :: _ => Some s
                   | _, _ => disk
                   end in
      saved_snapshot evs' (handle e w) disk'
  end.

(** The document and the file agree: the file holds the document, or it is
    still the file that was loaded and the document is what loading it
    gave. *)
Definition file_matches (d0 : json) (disk : option json) (a : EditorApp) : Prop :=
  match disk with
  | Some s => s = model_data a
  | None => model_data a = _normalize_structure d0
  end.

(** An application state with the same document and version, or with the
    version one higher. *)
Definition same_or_bumped (a a' : EditorApp) : Prop :=
  (model_version a' = model_version a /\ model_data a' = model_data a)
  \/ model_version a' = model_version a + 1.

(** What holds of the versions between any two callbacks: the saved
    version is never ahead of the document's, the version of a snapshot in
    flight lies between the two, and a stored error message is not empty. *)
Definition version_inv (a : EditorApp) : Prop :=
  0 <= last_saved_version a <= model_version a /\
  (forall v, _inflight_version a = Some v ->
             last_saved_version a <= v <= model_version a) /\
  _save_last_error a <> Some [].

(** The snapshot in flight is the document, if the document still has the
    version the snapshot was taken at; and the file matches the document, if
    the document has the saved version. *)
Definition file_inv (d0 : json) (w : World) (disk : option json) : Prop :=
  version_inv (app w) /\ save_inv w /\
  (forall s v, workers w = [s] -> _inflight_version (app w) = Some v ->
               v = model_version (app w) -> s = model_data (app w)) /\
  (last_saved_version (app w) = model_version (app w) -> file_matches d0 disk (app w)).

(** The category the self-test leaves behind: the one it added, holding
    the lesson it added, whose item it deleted again. *)
Definition self_test_category : json :=
  JDict [(str "name", JStr (str "New category")); (str "slug", JStr []);
         (str "lessons", JList [new_lesson (str "New lesson") []])].

(** A completion callback that reports a failed write. *)
Definition failed_completion (e : event) : bool :=
  match e with SaveDone false _ => true | _ => false end.

(** Changes that are not in the file yet have a save coming: with nothing
    in flight nothing is queued and a version that is not the saved one has
    the autosave timer armed; with a write in flight of an older version the
    timer is armed or a save is queued. *)
Definition save_coming (a : EditorApp) : Prop :=
  (_save_in_progress a = false ->
     _save_pending a = false /\
     (model_version a <> last_saved_version a -> _autosave_after_id a = true)) /\
  (_save_in_progress a = true ->
     forall v, _inflight_version a = Some v -> v <> model_version a ->
               _autosave_after_id a = true \/ _save_pending a = true).

(** After a handler the version is the same and an armed timer still
    armed, or the version is one higher and the timer armed. *)
Definition timer_kept_or_armed (a a' : EditorApp) : Prop :=
  (model_version a' = model_version a /\
   (_autosave_after_id a = true -> _autosave_after_id a' = true))
  \/ (model_version a' = model_version a + 1 /\ _autosave_after_id a' = true).

(** ** Sample documents and states *)

(** The document [{"categories": [{"lessons": [{"items": [{"image": ""}]}]}]}]. *)
Definition doc_empty_image : json :=
  JDict [(str "categories",
          JList [JDict [(str "lessons",
                         JList [JDict [(str "items",
                                        JList [JDict [(str "image", JStr [])]])]])]])].

Definition sample_item (ja it : string) : json :=
  JDict [(str "ja", JStr (str ja)); (str "it", JStr (str it));
         (str "image", JStr DEFAULT_ITEM_IMAGE)].

(** One category with one lesson of three items. *)
Definition sample_doc : json :=
  JDict [(str "course", JDict [(str "title", JStr (str "Nihonjindes"))]);
         (str "categories",
          JList [JDict [(str "name", JStr (str "Greetings"));
                        (str "slug", JStr (str "greetings"));
                        (str "lessons",
                         JList [JDict [(str "name", JStr (str "Basics"));
                                       (str "slug", JStr (str "basics"));
                                       (str "items",
                                        JList [sample_item "ohayou" "buongiorno";
                                               sample_item "konnichiwa" "ciao";
                                               sample_item "konbanwa" "buonasera"])]])]])].

(** An editor whose cap is two and whose undo stack is full. *)
Definition full_stack_app : EditorApp :=
  {| model_data := sample_doc;
     model_version := 2;
     last_saved_version := 0;
     undo_stack := [_normalize_structure JNull; doc_empty_image];
     redo_stack := [];
     undo_limit := 2;
     _edit_group_active := false;
     _edit_group_after_id := false;
     _autosave_after_id := true;
     _save_in_progress := false;
     _save_pending := false;
     _save_last_error := None;
     _inflight_version := None;
     _inflight_snapshot := None |}.

(** The form of an item whose image field was blanked. *)
Definition sample_form : Form :=
  {| course_title_var := []; course_slug_var := []; course_desc_text := [];
     cl_name_var := []; cl_slug_var := []; cl_notes_text := [];
     item_ja_var := str " neko "; item_it_var := str "gatto";
     item_image_var := str "  " |}.

(** * Properties *)

(** ** Dictionaries *)

Ltac key_ne := let H := fresh in intros H; vm_compute in H; discriminate H.

Section dict_facts.
Implicit Types (k : pystr) (v : json) (d : dict).

Lemma dict_get_set_eq k v d : dict_get k (dict_set k v d) = Some v.
Proof.
  induction d as [|[k' v'] d IH]; simpl.
  - by rewrite decide_True.
  - destruct (decide (k' = k)) as [->|Hne]; simpl.
    + by rewrite decide_True.
    + by rewrite decide_False.
Qed.

Lemma dict_get_set_ne k k' v d :
  k <> k' -> dict_get k' (dict_set k v d) = dict_get k' d.
Proof.
  intros Hne. induction d as [|[k0 v0] d IH]; simpl.
  - by rewrite decide_False.
  - destruct (decide (k0 = k)) as [->|Hne0]; simpl.
    + by rewrite !decide_False.
    + by rewrite IH.
Qed.

Lemma dict_set_set k v w d : dict_set k v (dict_set k w d) = dict_set k v d.
Proof.
  induction d as [|[k0 v0] d IH]; simpl.
  - by rewrite decide_True.
  - destruct (decide (k0 = k)) as [->|Hne0]; simpl.
    + by rewrite decide_True.
    + by rewrite decide_False, IH.
Qed.

Lemma has_key_set_same k v d : has_key k (dict_set k v d).
Proof. unfold has_key. rewrite dict_get_set_eq. by eexists. Qed.

Lemma has_key_set k k' v d : has_key k d -> has_key k (dict_set k' v d).
Proof.
  destruct (decide (k' = k)) as [->|Hne]; [intros _; apply has_key_set_same|].
  unfold has_key. by rewrite dict_get_set_ne.
Qed.

Lemma setdefault_present k v d : has_key k d -> setdefault k v d = d.
Proof. intros [w Hw]. unfold setdefault. by rewrite Hw. Qed.

Lemma has_key_setdefault_same k v d : has_key k (setdefault k v d).
Proof.
  unfold setdefault. destruct (dict_get k d) eqn:E.
  - unfold has_key. rewrite E. by eexists.
  - apply has_key_set_same.
Qed.

Lemma has_key_setdefault k k' v d : has_key k d -> has_key k (setdefault k' v d).
Proof.
  intros H. unfold setdefault. destruct (dict_get k' d); [done|].
  by apply has_key_set.
Qed.

Lemma dict_get_setdefault_ne k k' v d :
  k <> k' -> dict_get k' (setdefault k v d) = dict_get k' d.
Proof.
  intros Hne. unfold setdefault. destruct (dict_get k d); [done|].
  by apply dict_get_set_ne.
Qed.

Lemma dict_get_setdefault_eq k v d :
  dict_get k (setdefault k v d)
  = Some (match dict_get k d with Some w => w | None => v end).
Proof.
  unfold setdefault. destruct (dict_get k d) eqn:E; [done|].
  apply dict_get_set_eq.
Qed.

Lemma py_get_set_eq k v d : py_get (dict_set k v d) k = v.
Proof. unfold py_get. by rewrite dict_get_set_eq. Qed.
End dict_facts.

Create HintDb keys discriminated.
#[local] Hint Resolve has_key_set_same has_key_set has_key_setdefault_same
  has_key_setdefault : keys.

(** ** Normalization *)

Lemma repair_children_shape key f d :
  exists xs, repair_children key f d = dict_set key (JList (map f xs)) d.
Proof.
  unfold repair_children.
  destruct (py_get d key) eqn:E; try (exists []; simpl; by rewrite dict_set_set).
  by exists xs.
Qed.

Lemma repair_children_has_key key f k d :
  has_key k d -> has_key k (repair_children key f d).
Proof.
  intros H. destruct (repair_children_shape key f d) as [xs ->]. auto with keys.
Qed.

Lemma repair_children_idem key f d :
  (forall x, f (f x) = f x) ->
  repair_children key f (repair_children key f d) = repair_children key f d.
Proof.
  intros Hf. destruct (repair_children_shape key f d) as [xs ->].
  unfold repair_children at 1. rewrite py_get_set_eq.
  rewrite dict_set_set. f_equal. f_equal.
  rewrite map_map. apply map_ext. auto.
Qed.

Lemma normalize_item_idem x : normalize_item (normalize_item x) = normalize_item x.
Proof.
  unfold normalize_item at 1 3. f_equal.
  set (d := match x with JDict kvs => kvs | _ => [] end).
  set (out := setdefault _ _ (setdefault _ _ (setdefault _ _ d))).
  assert (has_key (str "ja") out /\ has_key (str "it") out /\ has_key (str "image") out)
    as (Hja & Hit & Him) by (subst out; repeat split; auto 6 with keys).
  unfold normalize_item. fold d. fold out.
  rewrite (setdefault_present (str "ja")) by done.
  rewrite (setdefault_present (str "it")) by done.
  by apply setdefault_present.
Qed.

Lemma normalize_lesson_eq lesson :
  normalize_lesson lesson
  = JDict (repair_children (str "items") normalize_item
             (setdefault (str "slug") empty_str
                (setdefault (str "name") empty_str
                   (match lesson with JDict kvs => kvs | _ => [] end)))).
Proof. unfold normalize_lesson, repair_children. by destruct (py_get _ _). Qed.

Lemma normalize_category_eq cat :
  normalize_category cat
  = JDict (repair_children (str "lessons") normalize_lesson
             (setdefault (str "slug") empty_str
                (setdefault (str "name") empty_str
                   (match cat with JDict kvs => kvs | _ => [] end)))).
Proof. unfold normalize_category, repair_children. by destruct (py_get _ _). Qed.

Lemma normalize_structure_eq data :
  _normalize_structure data
  = JDict (repair_children (str "categories") normalize_category
             (ensure_course (match data with JDict kvs => kvs | _ => [] end))).
Proof.
  unfold _normalize_structure, repair_children, ensure_course. simpl.
  by destruct (py_get _ _).
Qed.

Lemma normalize_lesson_idem x :
  normalize_lesson (normalize_lesson x) = normalize_lesson x.
Proof.
  rewrite (normalize_lesson_eq x).
  set (d := setdefault _ _ (setdefault _ _ _)).
  rewrite normalize_lesson_eq. f_equal.
  rewrite (setdefault_present (str "name"))
    by (apply repair_children_has_key; subst d; auto with keys).
  rewrite (setdefault_present (str "slug"))
    by (apply repair_children_has_key; subst d; auto with keys).
  apply repair_children_idem, normalize_item_idem.
Qed.

Lemma normalize_category_idem x :
  normalize_category (normalize_category x) = normalize_category x.
Proof.
  rewrite (normalize_category_eq x).
  set (d := setdefault _ _ (setdefault _ _ _)).
  rewrite normalize_category_eq. f_equal.
  rewrite (setdefault_present (str "name"))
    by (apply repair_children_has_key; subst d; auto with keys).
  rewrite (setdefault_present (str "slug"))
    by (apply repair_children_has_key; subst d; auto with keys).
  apply repair_children_idem, normalize_lesson_idem.
Qed.

Lemma ensure_course_is_dict d :
  isinstance_dict (py_get (ensure_course d) (str "course")) = true.
Proof.
  unfold ensure_course.
  destruct (isinstance_dict (py_get d (str "course"))) eqn:E; [done|].
  by rewrite py_get_set_eq.
Qed.

Lemma py_get_repair_ne key f k d :
  key <> k -> py_get (repair_children key f d) k = py_get d k.
Proof.
  intros Hne. destruct (repair_children_shape key f d) as [xs ->].
  unfold py_get. by rewrite dict_get_set_ne.
Qed.

Lemma normalize_structure_idem data :
  _normalize_structure (_normalize_structure data) = _normalize_structure data.
Proof.
  rewrite (normalize_structure_eq data).
  set (d := ensure_course _).
  rewrite normalize_structure_eq. f_equal.
  assert (Hc : ensure_course (repair_children (str "categories") normalize_category d)
               = repair_children (str "categories") normalize_category d).
  { unfold ensure_course at 1. rewrite py_get_repair_ne by key_ne.
    subst d. by rewrite ensure_course_is_dict. }
  rewrite Hc.
  apply repair_children_idem, normalize_category_idem.
Qed.

(** C6. [_normalize_structure] is idempotent: whatever object it is given,
    well formed or not, running it a second time changes nothing. *)
Theorem normalize_structure_idempotent (data : json) :
  _normalize_structure (_normalize_structure data) = _normalize_structure data.
Proof. apply normalize_structure_idem. Qed.

(** A normalized document has its course root. *)
Lemma normalized_course_resolves data :
  succeeds (get_node (_normalize_structure data) ref_course).
Proof.
  rewrite normalize_structure_eq. unfold get_node. cbn [kind ref_course getitem_key].
  set (d := ensure_course _).
  destruct (repair_children_shape (str "categories") normalize_category d) as [xs ->].
  rewrite dict_get_set_ne by key_ne.
  pose proof (ensure_course_is_dict (match data with JDict kvs => kvs | _ => [] end)) as H.
  fold d in H. unfold py_get in H.
  destruct (dict_get (str "course") d); [by eexists|done].
Qed.

(** ** Subscripts and paths *)

Ltac res_inv H :=
  repeat match type of H with
  | mbind _ ?m = OK _ =>
      let E := fresh "E" in
      destruct m eqn:E; [cbn [mbind res_bind] in H | discriminate H]
  | match ?m with OK _ => _ | Raise _ => _ end = OK _ =>
      let E := fresh "E" in
      destruct m eqn:E; [cbn [mbind res_bind] in H | discriminate H]
  end.

Lemma getitem_key_inv o k v :
  getitem_key o k = OK v -> exists kvs, o = JDict kvs /\ dict_get k kvs = Some v.
Proof.
  destruct o; simpl; try discriminate.
  destruct (dict_get k kvs) eqn:E; [|discriminate].
  intros [= <-]. eauto.
Qed.

Lemma py_index_lt len z n : py_index len z = Some n -> (n < len)%nat.
Proof.
  unfold py_index. repeat case_match; intros [= <-]; lia.
Qed.

Lemma py_index_nat len (i : nat) :
  (i < len)%nat -> py_index len (Z.of_nat i) = Some i.
Proof.
  intros H. unfold py_index.
  rewrite (proj2 (Z.leb_le _ _)) by lia. rewrite (proj2 (Z.ltb_lt _ _)) by lia.
  by rewrite Nat2Z.id.
Qed.

Lemma getitem_idx_list_inv xs i x :
  getitem_idx (JList xs) i = OK x ->
  exists z n, i = Some z /\ py_index (length xs) z = Some n /\ xs !! n = Some x.
Proof.
  simpl. destruct i as [z|]; [|discriminate].
  destruct (py_index (length xs) z) as [n|] eqn:E; [|discriminate].
  destruct (xs !! n) eqn:E'; [|discriminate]. intros [= <-]. eauto.
Qed.

Lemma getitem_idx_nat xs (i : nat) x :
  xs !! i = Some x -> getitem_idx (JList xs) (Some (Z.of_nat i)) = OK x.
Proof.
  intros H. simpl. rewrite py_index_nat by (by eapply lookup_lt_Some). by rewrite H.
Qed.

Lemma getitem_key_store o k v v' :
  getitem_key o k = OK v -> getitem_key (store_key o k v') k = OK v'.
Proof.
  intros (kvs & -> & _)%getitem_key_inv. simpl. by rewrite dict_get_set_eq.
Qed.

Lemma getitem_key_store_ne o k k' v' :
  k <> k' -> getitem_key (store_key o k v') k' = getitem_key o k'.
Proof.
  intros Hne. destruct o; simpl; try done. by rewrite dict_get_set_ne.
Qed.

Lemma getitem_idx_store xs i x x' :
  getitem_idx (JList xs) i = OK x ->
  getitem_idx (store_idx (JList xs) i x') i = OK x'.
Proof.
  intros (z & n & -> & Hn & Hx)%getitem_idx_list_inv. simpl. rewrite Hn. simpl.
  rewrite length_insert, Hn.
  rewrite list_lookup_insert_eq; [done|]. by eapply py_index_lt.
Qed.

(** Reading a prefix of a path after a store at the path. *)
Lemma get_put_prefix p : forall o c q v,
  get_path o p = OK c -> on_lists o p ->
  get_path (put_path o (p ++ q) v) p = OK (put_path c q v).
Proof.
  induction p as [|[k|i] p IH]; intros o c q v Hget Hl;
    cbn [get_path put_path on_lists app] in *.
  - by injection Hget as ->.
  - res_inv Hget. rewrite <- app_comm_cons. cbn [put_path]. rewrite E.
    erewrite getitem_key_store by done. cbn [mbind res_bind]. by apply IH.
  - destruct Hl as [Hlist Hl]. res_inv Hget.
    rewrite <- app_comm_cons. cbn [put_path]. rewrite E.
    destruct o; try discriminate Hlist.
    erewrite getitem_idx_store by done. cbn [mbind res_bind]. by apply IH.
Qed.

Lemma get_put_path p o c v :
  get_path o p = OK c -> on_lists o p -> get_path (put_path o p v) p = OK v.
Proof.
  intros Hget Hl. rewrite <- (app_nil_r p) at 1.
  by rewrite (get_put_prefix p o c [] v).
Qed.

Lemma on_lists_app p : forall o q, on_lists o (p ++ q) -> on_lists o p.
Proof.
  induction p as [|[k|i] p IH]; intros o q; simpl; [done| |].
  - destruct (getitem_key o k); eauto.
  - intros [? H]. split; [done|]. destruct (getitem_idx o i); eauto.
Qed.

Lemma getitem_idx_key_list o i c k v :
  getitem_idx o i = OK c -> getitem_key c k = OK v -> isinstance_list o = true.
Proof.
  intros Hi (kvs & -> & _)%getitem_key_inv.
  destruct o; simpl in Hi; try discriminate; [|done].
  destruct i; [|discriminate]. repeat case_match; discriminate.
Qed.

(** A sibling path that resolves takes its index steps on lists: each is
    followed by a string subscript, which a character does not have. *)
Lemma sibling_path_on_lists data ref xs :
  siblings data ref = OK xs -> on_lists data (sibling_path ref).
Proof.
  unfold siblings, sibling_path. destruct (kind ref); simpl; intros H; try done.
  - by destruct (getitem_key data _).
  - res_inv H. eauto using getitem_idx_key_list.
  - res_inv H. repeat split; eauto using getitem_idx_key_list.
Qed.

Lemma siblings_put data ref xs xs' :
  siblings data ref = OK xs -> siblings (put_siblings data ref xs') ref = OK xs'.
Proof.
  intros H. eapply get_put_path; [done|]. by eapply sibling_path_on_lists.
Qed.

(** [get_node] on a child reference reads the child sequence, then the
    node's own index. *)
Lemma get_node_child data ref :
  is_child ref = true ->
  get_node data ref = (xs ← siblings data ref; getitem_idx xs (own_index ref)).
Proof.
  unfold is_child, get_node, siblings, sibling_path, own_index.
  destruct (kind ref); try discriminate; intros _; simpl;
    unfold mbind, res_bind;
    repeat (match goal with
            | |- context [match ?m with OK _ => _ | Raise _ => _ end] =>
                lazymatch m with
                | getitem_key _ _ => destruct m
                | getitem_idx _ _ => destruct m
                end
            end; try done).
Qed.

(** ** [delete_node] *)

Lemma delete_node_child data ref xs i :
  valid_child data ref xs i ->
  delete_node data ref
  = OK (put_siblings data ref (JList (delete i xs)), successor ref i (delete i xs)).
Proof.
  intros (Hk & Hs & Ho & Hlt).
  assert (Hlen : length (delete i xs) = (length xs - 1)%nat)
    by (rewrite length_delete; [lia | by apply lookup_lt_is_Some]).
  assert (Hmin : Z.min (Z.of_nat i) (Z.of_nat (length (delete i xs)) - 1)
                 = Z.of_nat (if (i <? length (delete i xs))%nat then i
                             else (length (delete i xs) - 1)%nat)
                 \/ delete i xs = []).
  { destruct (delete i xs) eqn:Ed; [by right|left]. simpl length in *.
    destruct (Nat.ltb_spec i (S (length l))); lia. }
  unfold put_siblings, siblings, sibling_path, successor, with_index, parent_ref,
    own_index, is_child, delete_node in *.
  destruct ref as [k ci li ii]; simpl in *.
  destruct k; try discriminate Hk; subst; cbn [get_path put_path] in *;
    res_inv Hs; injection Hs as ->;
    repeat (cbn [mbind res_bind];
            try match goal with E : _ = OK _ |- _ => rewrite E; clear E end);
    cbn [mbind res_bind delitem_idx or0]; rewrite py_index_nat by done;
    cbn [mbind res_bind truthy py_len];
    (destruct Hmin as [-> | ->]; [|done]);
    by destruct (delete i xs).
Qed.

(** C2. Deleting the course root returns the reference it was given and
    leaves the document alone.  Deleting a valid category, lesson or item
    reference removes exactly position [i] from the child sequence [xs] the
    node sits in (nothing else in the document changes), and returns: the
    same index when a later sibling slid into the position -- that reference
    then resolves to the sibling that followed the deleted node --, the new
    last index when the last child was deleted, and the parent when no
    sibling is left. *)
Theorem delete_node_successor_rule :
  (forall data ref, kind ref = Course -> delete_node data ref = OK (data, ref)) /\
  (forall data ref xs i,
     valid_child data ref xs i ->
     let xs' := delete i xs in
     let data' := put_siblings data ref (JList xs') in
     delete_node data ref = OK (data', successor ref i xs') /\
     siblings data' ref = OK (JList xs') /\
     length xs' = (length xs - 1)%nat /\
     (forall j, (j < i)%nat -> xs' !! j = xs !! j) /\
     (forall j, (i <= j)%nat -> xs' !! j = xs !! S j) /\
     (xs' = [] -> successor ref i xs' = parent_ref ref) /\
     (xs' <> [] -> (i < length xs')%nat ->
        successor ref i xs' = with_index ref (Z.of_nat i) /\
        get_node data' (successor ref i xs') = getitem_idx (JList xs) (Some (Z.of_nat (S i)))) /\
     (xs' <> [] -> (i = length xs')%nat ->
        successor ref i xs' = with_index ref (Z.of_nat (length xs' - 1)))).
Proof.
  split.
  { intros data ref Hk. unfold delete_node. by rewrite Hk. }
  intros data ref xs i Hv xs' data'.
  pose proof Hv as (Hk & Hs & Ho & Hlt).
  assert (Hs' : siblings data' ref = OK (JList xs')) by (by eapply siblings_put).
  split; [by apply delete_node_child|].
  split; [done|].
  split; [subst xs'; rewrite length_delete; [lia | by apply lookup_lt_is_Some]|].
  split; [intros j Hj; by apply list_lookup_delete_lt|].
  split; [intros j Hj; by apply list_lookup_delete_ge|].
  split; [by intros ->|].
  split.
  - intros Hne Hi. unfold successor. destruct xs' as [|x0 xs0] eqn:Exs; [done|].
    rewrite (proj2 (Nat.ltb_lt _ _)) by done. split; [done|].
    rewrite get_node_child by (by destruct ref as [[] ? ? ?]).
    assert (Hsib : siblings data' (with_index ref (Z.of_nat i)) = siblings data' ref)
      by (by destruct ref as [[] ? ? ?]).
    rewrite Hsib, Hs'. cbn [mbind res_bind].
    assert (own_index (with_index ref (Z.of_nat i)) = Some (Z.of_nat i)) as ->
      by (by destruct ref as [[] ? ? ?]).
    rewrite <- Exs in *.
    assert (Hl : xs' !! i = xs !! S i) by (subst xs'; by apply list_lookup_delete_ge).
    destruct (xs !! S i) as [y|] eqn:Ey.
    + rewrite (getitem_idx_nat xs (S i) y Ey). by apply getitem_idx_nat.
    + apply lookup_ge_None in Hl. lia.
  - intros Hne Hi. unfold successor. destruct xs' as [|x0 xs0] eqn:Exs; [done|].
    rewrite (proj2 (Nat.ltb_ge _ _)) by lia. done.
Qed.

Lemma get_node_path data ref :
  kind ref <> OtherKind -> get_node data ref = get_path data (node_path ref).
Proof.
  unfold get_node, node_path, sibling_path, own_index.
  destruct (kind ref); try done; intros _; simpl; unfold mbind, res_bind;
    repeat (match goal with
            | |- context [match ?m with OK _ => _ | Raise _ => _ end] =>
                lazymatch m with
                | getitem_key _ _ => destruct m
                | getitem_idx _ _ => destruct m
                end
            end; try done).
Qed.

Lemma get_path_app p : forall o q,
  get_path o (p ++ q) = (c ← get_path o p; get_path c q).
Proof.
  induction p as [|[k|i] p IH]; intros o q; [done| |];
    rewrite <- app_comm_cons; cbn [get_path].
  - destruct (getitem_key o k); cbn [mbind res_bind]; [apply IH|done].
  - destruct (getitem_idx o i); cbn [mbind res_bind]; [apply IH|done].
Qed.

(** The parent of a valid lesson or item still resolves after its child
    sequence was replaced. *)
Lemma parent_resolves_after_put data ref xs v :
  kind ref = Lesson \/ kind ref = Item ->
  siblings data ref = OK xs ->
  succeeds (get_node (put_siblings data ref v) (parent_ref ref)).
Proof.
  intros Hk Hs.
  pose proof (sibling_path_on_lists _ _ _ Hs) as Hl.
  rewrite get_node_path by (destruct Hk as [H|H]; unfold parent_ref; by rewrite H).
  unfold put_siblings, siblings in *.
  assert (exists key, sibling_path ref = node_path (parent_ref ref) ++ [Key key])
    as [key Hp].
  { destruct Hk as [H|H]; unfold sibling_path, node_path, parent_ref, own_index;
      rewrite H; simpl; eauto. }
  rewrite Hp in *. rewrite get_path_app in Hs.
  destruct (get_path data (node_path (parent_ref ref))) as [c|] eqn:Ec; [|done].
  erewrite get_put_prefix; [by eexists|done|by eapply on_lists_app].
Qed.

Lemma course_resolves_after_put data ref v :
  kind ref = Category ->
  succeeds (get_node data ref_course) ->
  succeeds (get_node (put_siblings data ref v) ref_course).
Proof.
  intros Hk [c Hc]. unfold put_siblings, sibling_path. rewrite Hk.
  unfold get_node in *. simpl in *.
  destruct (getitem_key data (str "categories")); [|by eexists].
  rewrite getitem_key_store_ne by key_ne. by eexists.
Qed.

(** C10. [delete_node] never returns a dangling reference: in a document
    whose course root resolves (every document of a [CourseModel] does, its
    constructor normalizes), deleting a valid category, lesson or item
    succeeds, and [get_node] resolves the returned reference in the document
    after the deletion. *)
Theorem delete_successor_resolves (data : json) (ref : NodeRef) (xs : list json) (i : nat) :
  valid_child data ref xs i ->
  succeeds (get_node data ref_course) ->
  exists data' succ,
    delete_node data ref = OK (data', succ) /\
    succeeds (get_node data' succ).
Proof.
  intros Hv Hroot. pose proof Hv as (Hk & Hs & Ho & Hlt).
  eexists _, _. split; [by apply delete_node_child|].
  unfold successor. destruct (delete i xs) as [|x0 xs0] eqn:Exs.
  - destruct ref as [k ci li ii]. destruct k; try discriminate Hk.
    + by apply course_resolves_after_put.
    + eapply parent_resolves_after_put; [by left|done].
    + eapply parent_resolves_after_put; [by right|done].
  - rewrite get_node_child by (by destruct ref as [[] ? ? ?]).
    set (j := if (i <? length (x0 :: xs0))%nat then i else (length (x0 :: xs0) - 1)%nat).
    assert (Hj : (j < length (x0 :: xs0))%nat).
    { subst j. destruct (Nat.ltb_spec i (length (x0 :: xs0))); simpl in *; lia. }
    assert (siblings (put_siblings data ref (JList (x0 :: xs0))) (with_index ref (Z.of_nat j))
            = OK (JList (x0 :: xs0))) as ->.
    { transitivity (siblings (put_siblings data ref (JList (x0 :: xs0))) ref);
        [by destruct ref as [[] ? ? ?] | by eapply siblings_put]. }
    assert (own_index (with_index ref (Z.of_nat j)) = Some (Z.of_nat j)) as ->
      by (by destruct ref as [[] ? ? ?]).
    cbn [mbind res_bind].
    destruct (lookup_lt_is_Some_2 (x0 :: xs0) j Hj) as [y Hy].
    exists y. by apply getitem_idx_nat.
Qed.

(** ** [move_node] *)

Lemma swap_list xs (i j : nat) xi xj :
  xs !! i = Some xi -> xs !! j = Some xj ->
  swap (JList xs) (Z.of_nat i) (Z.of_nat j) = OK (JList (<[j := xi]> (<[i := xj]> xs))).
Proof.
  intros Hi Hj. unfold swap.
  rewrite (getitem_idx_nat _ _ _ Hj), (getitem_idx_nat _ _ _ Hi).
  cbn [mbind res_bind setitem_idx].
  rewrite py_index_nat by (by eapply lookup_lt_Some). cbn [mbind res_bind setitem_idx].
  rewrite length_insert. by rewrite py_index_nat by (by eapply lookup_lt_Some).
Qed.

Lemma move_in_list xs (i : nat) direction :
  (i < length xs)%nat ->
  let j := Z.of_nat i + direction in
  move_in (JList xs) (Some (Z.of_nat i)) direction
  = if (0 <=? j) && (j <? Z.of_nat (length xs)) then
      match xs !! i, xs !! Z.to_nat j with
      | Some xi, Some xj => OK (Some (JList (<[Z.to_nat j := xi]> (<[i := xj]> xs)), j))
      | _, _ => OK None
      end
    else OK None.
Proof.
  intros Hi j. unfold move_in. cbn [or0]. fold j.
  destruct (Z.leb_spec 0 j); [|done]. cbn [py_len mbind res_bind andb].
  destruct (Z.ltb_spec j (Z.of_nat (length xs))); [|done].
  destruct (lookup_lt_is_Some_2 xs i Hi) as [xi Hxi].
  destruct (lookup_lt_is_Some_2 xs (Z.to_nat j) ltac:(lia)) as [xj Hxj].
  rewrite Hxi, Hxj. rewrite <- (Z2Nat.id j) at 1 by lia.
  by rewrite (swap_list xs i (Z.to_nat j) xi xj).
Qed.

Lemma move_node_child data ref xs i direction :
  valid_child data ref xs i ->
  move_node data ref direction
  = (m ← move_in (JList xs) (Some (Z.of_nat i)) direction;
     match m with
     | Some (arr', j) => OK (put_siblings data ref arr', with_index ref j)
     | None => OK (data, ref)
     end).
Proof.
  intros (Hk & Hs & Ho & Hlt).
  unfold put_siblings, siblings, sibling_path, with_index, own_index, is_child,
    move_node in *.
  destruct ref as [k ci li ii]; simpl in *.
  destruct k; try discriminate Hk; subst; cbn [get_path put_path] in *;
    res_inv Hs; injection Hs as ->;
    repeat (cbn [mbind res_bind];
            try match goal with E : _ = OK _ |- _ => rewrite E; clear E end);
    by destruct (move_in _ _ _) as [[[]|]|].
Qed.

(** C9. For a valid category, lesson or item reference at position [i] of
    its child sequence [xs] and any direction (in particular -1 and +1):
    when the target index [j = i + direction] is within the bounds of [xs],
    [move_node] exchanges the nodes at [i] and [j] -- every other position
    and the rest of the document stay as they are -- and returns the
    reference with index [j]; otherwise it raises nothing and returns the
    document and the reference it was given. *)
Theorem move_node_swaps_or_stays (data : json) (ref : NodeRef) (xs : list json)
    (i : nat) (direction : Z) :
  valid_child data ref xs i ->
  let j := Z.of_nat i + direction in
  if (0 <=? j) && (j <? Z.of_nat (length xs)) then
    exists xi xj xs',
      xs !! i = Some xi /\ xs !! Z.to_nat j = Some xj /\
      move_node data ref direction
      = OK (put_siblings data ref (JList xs'), with_index ref j) /\
      siblings (put_siblings data ref (JList xs')) ref = OK (JList xs') /\
      length xs' = length xs /\
      xs' !! Z.to_nat j = Some xi /\ xs' !! i = Some xj /\
      (forall k, k <> i -> k <> Z.to_nat j -> xs' !! k = xs !! k)
  else move_node data ref direction = OK (data, ref).
Proof.
  intros Hv j. pose proof Hv as (Hk & Hs & Ho & Hlt).
  rewrite (move_node_child _ _ _ _ _ Hv), (move_in_list xs i direction Hlt). fold j.
  destruct ((0 <=? j) && (j <? Z.of_nat (length xs))) eqn:Eb; [|done].
  apply andb_true_iff in Eb as [H0%Z.leb_le Hn%Z.ltb_lt].
  destruct (lookup_lt_is_Some_2 xs i Hlt) as [xi Hxi].
  destruct (lookup_lt_is_Some_2 xs (Z.to_nat j) ltac:(lia)) as [xj Hxj].
  rewrite Hxi, Hxj. cbn [mbind res_bind].
  exists xi, xj, (<[Z.to_nat j := xi]> (<[i := xj]> xs)).
  repeat split; try done.
  - by eapply siblings_put.
  - by rewrite !length_insert.
  - apply list_lookup_insert_eq. rewrite length_insert. lia.
  - destruct (decide (i = Z.to_nat j)) as [Heq|Hne].
    + rewrite <- Heq in *. rewrite list_lookup_insert_eq by (rewrite length_insert; lia).
      congruence.
    + rewrite list_lookup_insert_ne by done. by apply list_lookup_insert_eq.
  - intros k Hki Hkj. by rewrite !list_lookup_insert_ne.
Qed.

(** ** Item images *)

Lemma lstrip_blank s : forallb is_space s = true -> lstrip s = [].
Proof.
  induction s as [|c s IH]; cbn [forallb lstrip]; [done|].
  intros [Hc Hs]%andb_true_iff. rewrite Hc. auto.
Qed.

Lemma strip_blank s : forallb is_space s = true -> strip s = [].
Proof. intros H. unfold strip, rstrip. by rewrite (lstrip_blank s). Qed.

Lemma add_item_inv data ci li ja it image data' r :
  add_item data ci li ja it image = OK (data', r) ->
  exists xs img,
    let item := JDict [(str "ja", JStr ja); (str "it", JStr it); (str "image", JStr img)] in
    let parent := mkRef Item ci li None in
    siblings data parent = OK (JList xs) /\
    data' = put_siblings data parent (JList (xs ++ [item])) /\
    r = mkRef Item ci li (Some (Z.of_nat (length xs))) /\
    img <> [] /\
    (blank image = true -> img = DEFAULT_ITEM_IMAGE).
Proof.
  unfold add_item. intros H. res_inv H.
  destruct a3 as [| | | | |xs|]; try discriminate E4. injection E4 as <-.
  cbn [py_len] in E5. injection E5 as <-. injection H as <- <-.
  eexists xs, _. cbn zeta.
  unfold siblings, put_siblings, put_items, put_lessons, put_categories, sibling_path.
  cbn [kind cat_i lesson_i get_path put_path].
  rewrite E. cbn [mbind res_bind]. rewrite E0. cbn [mbind res_bind].
  rewrite E1. cbn [mbind res_bind]. rewrite E2. cbn [mbind res_bind]. rewrite E3.
  repeat split.
  - do 3 f_equal. rewrite length_app. simpl. lia.
  - by destruct (strip _).
  - intros Hb. rewrite strip_blank; [done|]. by destruct image.
Qed.

Lemma getitem_idx_app_last xs (x : json) :
  getitem_idx (JList (xs ++ [x])) (Some (Z.of_nat (length xs))) = OK x.
Proof.
  apply getitem_idx_nat. rewrite lookup_app_r by lia.
  by rewrite Nat.sub_diag.
Qed.

Lemma getitem_idx_map f xs i y :
  getitem_idx (JList (map f xs)) i = OK y ->
  exists x, getitem_idx (JList xs) i = OK x /\ y = f x.
Proof.
  intros (z & n & -> & Hn & Hy)%getitem_idx_list_inv.
  rewrite length_map in Hn. change (map f xs) with (f <$> xs) in Hy.
  rewrite list_lookup_fmap in Hy.
  destruct (xs !! n) as [x|] eqn:Ex; [|discriminate]. injection Hy as <-.
  exists x. simpl. by rewrite Hn, Ex.
Qed.

Lemma getitem_repair key f d :
  getitem_key (JDict (repair_children key f d)) key
  = OK (JList (map f (children_list key d))).
Proof.
  unfold repair_children, children_list. simpl.
  destruct (py_get d key); by rewrite dict_get_set_eq.
Qed.

(** Reading a child through the document as it is finds it in the list
    normalization works on. *)
Lemma children_list_getitem kvs key o i c :
  getitem_key (JDict kvs) key = OK o ->
  getitem_idx o i = OK c ->
  getitem_idx (JList (children_list key kvs)) i = OK c
  \/ (children_list key kvs = [] /\ exists ch, c = JStr [ch]).
Proof.
  intros (kvs' & [= <-] & Hget)%getitem_key_inv Hi.
  unfold children_list, py_get. rewrite Hget.
  destruct o; simpl in Hi; try discriminate; [|by left].
  right. split; [done|]. destruct i; [|discriminate].
  repeat case_match; try discriminate. injection Hi as <-. eauto.
Qed.

Lemma children_list_setdefault key k v d :
  k <> key -> children_list key (setdefault k v d) = children_list key d.
Proof. intros H. unfold children_list, py_get. by rewrite dict_get_setdefault_ne. Qed.

Lemma children_list_ensure_course d :
  children_list (str "categories") (ensure_course d) = children_list (str "categories") d.
Proof.
  unfold ensure_course. destruct (isinstance_dict _); [done|].
  unfold children_list, py_get. by rewrite dict_get_set_ne by key_ne.
Qed.

Lemma getitem_idx_nil i x : getitem_idx (JList []) i = OK x -> False.
Proof.
  intros (z & n & -> & Hn%py_index_lt & _)%getitem_idx_list_inv. simpl in Hn. lia.
Qed.

Lemma normalize_item_image x :
  exists kvs, normalize_item x = JDict kvs /\
              dict_get (str "image") kvs = Some (image_or_default x).
Proof.
  eexists. split; [done|]. rewrite dict_get_setdefault_eq.
  rewrite !dict_get_setdefault_ne by key_ne. unfold image_or_default.
  by destruct x.
Qed.

(** The items of a normalized document are the repaired items of the
    object that was normalized, position by position. *)
Lemma normalized_item_origin data ref item' :
  kind ref = Item ->
  get_node (_normalize_structure data) ref = OK item' ->
  exists x, item' = normalize_item x /\
            (forall item, get_node data ref = OK item -> item = x).
Proof.
  intros Hk H. unfold get_node in *. rewrite Hk in *.
  rewrite normalize_structure_eq, getitem_repair in H. cbn [mbind res_bind] in H.
  rewrite children_list_ensure_course in H.
  destruct (getitem_idx _ (cat_i ref)) as [cat'|] eqn:Ec in H; [|discriminate].
  apply getitem_idx_map in Ec as (cat & Ec & ->). cbn [mbind res_bind] in H.
  rewrite normalize_category_eq, getitem_repair in H. cbn [mbind res_bind] in H.
  rewrite !children_list_setdefault in H by key_ne.
  destruct (getitem_idx _ (lesson_i ref)) as [lesson'|] eqn:El in H; [|discriminate].
  apply getitem_idx_map in El as (lesson & El & ->). cbn [mbind res_bind] in H.
  rewrite normalize_lesson_eq, getitem_repair in H. cbn [mbind res_bind] in H.
  rewrite !children_list_setdefault in H by key_ne.
  apply getitem_idx_map in H as (x & Hx & ->).
  exists x. split; [done|]. intros item Hitem. res_inv Hitem.
  pose proof E as (dkvs & -> & _)%getitem_key_inv.
  pose proof E1 as (ckvs & -> & _)%getitem_key_inv.
  pose proof E3 as (lkvs & -> & _)%getitem_key_inv.
  destruct (children_list_getitem _ _ _ _ _ E E0) as [Hc|[_ [ch [=]]]].
  rewrite Hc in Ec. injection Ec as <-.
  destruct (children_list_getitem _ _ _ _ _ E1 E2) as [Hl|[_ [ch [=]]]].
  rewrite Hl in El. injection El as <-.
  destruct (children_list_getitem _ _ _ _ _ E3 Hitem) as [Hi|[Hnil _]].
  - rewrite Hi in Hx. by injection Hx.
  - rewrite Hnil in Hx. by apply getitem_idx_nil in Hx.
Qed.

(** C4, as stated, fails: normalization keeps an image that is present and
    empty. *)
Lemma normalize_keeps_empty_image :
  exists kvs,
    get_node (_normalize_structure doc_empty_image) (ref_item 0 0 0) = OK (JDict kvs) /\
    dict_get (str "image") kvs = Some (JStr []).
Proof. eexists. split; [vm_compute; reflexivity | vm_compute; reflexivity]. Qed.

(** C4 (amended). [add_item] never stores an empty image, and stores the
    placeholder path when its [image] argument is [None], empty or all
    white space.  After [_normalize_structure] every item has an [image]
    field: it is the placeholder path when the item it was repaired from had
    no such field (or was not an object), and otherwise the value that item
    had -- whatever it is, an empty string included. *)
Theorem item_image_default :
  (forall data ci li ja it image data' r,
     add_item data ci li ja it image = OK (data', r) ->
     exists img,
       get_node data' r
       = OK (JDict [(str "ja", JStr ja); (str "it", JStr it); (str "image", JStr img)]) /\
       img <> [] /\
       (blank image = true -> img = DEFAULT_ITEM_IMAGE)) /\
  (forall data ref item',
     kind ref = Item ->
     get_node (_normalize_structure data) ref = OK item' ->
     exists kvs v,
       item' = JDict kvs /\ dict_get (str "image") kvs = Some v /\
       (forall item, get_node data ref = OK item -> v = image_or_default item)).
Proof.
  split.
  - intros data ci li ja it image data' r H.
    apply add_item_inv in H as (xs & img & Hs & -> & -> & Hne & Hb).
    exists img. split; [|done].
    rewrite get_node_child by done.
    pose proof (siblings_put data (mkRef Item ci li None) _
                  (JList (xs ++ [JDict [(str "ja", JStr ja); (str "it", JStr it);
                                        (str "image", JStr img)]])) Hs) as Hput.
    unfold siblings, sibling_path in Hput |- *. cbn [kind cat_i lesson_i] in Hput |- *.
    rewrite Hput. apply getitem_idx_app_last.
  - intros data ref item' Hk H.
    apply normalized_item_origin in H as (x & -> & Hx); [|done].
    destruct (normalize_item_image x) as (kvs & Hn & Hi).
    exists kvs, (image_or_default x). repeat split; [done..|].
    intros item Hitem. by rewrite (Hx item Hitem).
Qed.

(** ** History *)

Lemma py_pop_snoc {A} (xs : list A) x : py_pop (xs ++ [x]) = Some (x, xs).
Proof. unfold py_pop. rewrite reverse_snoc. by rewrite reverse_involutive. Qed.

Lemma py_pop_inv {A} (xs : list A) x rest :
  py_pop xs = Some (x, rest) -> xs = rest ++ [x].
Proof.
  unfold py_pop. destruct (reverse xs) eqn:E; [done|].
  intros [= <- <-]. apply (f_equal reverse) in E.
  by rewrite reverse_involutive, reverse_cons in E.
Qed.

(** The stack after [append] and the eviction test. *)
Lemma capped_length (st : list json) (x : json) (limit : Z) :
  Z.of_nat (length st) <= limit ->
  Z.of_nat (length (if limit <? Z.of_nat (length (st ++ [x])) then drop 1 (st ++ [x])
                    else st ++ [x])) <= limit.
Proof.
  intros H. destruct (Z.ltb_spec limit (Z.of_nat (length (st ++ [x])))).
  - rewrite length_drop, length_app. simpl. lia.
  - lia.
Qed.

Lemma capped_below (st : list json) (x : json) (limit : Z) :
  Z.of_nat (length st) < limit ->
  (if limit <? Z.of_nat (length (st ++ [x])) then drop 1 (st ++ [x]) else st ++ [x])
  = st ++ [x].
Proof.
  intros H. rewrite (proj2 (Z.ltb_ge _ _)); [done|]. rewrite length_app. simpl. lia.
Qed.

Lemma push_undo_snapshot_inv a : app_inv a -> app_inv (_push_undo_snapshot a).
Proof.
  intros (Hl & Hs & Hn). unfold app_inv, _push_undo_snapshot. simpl.
  repeat split; [done| |done].
  rewrite Nat.add_0_r. apply capped_length. lia.
Qed.

Lemma touch_model_inv b a :
  undo_limit a = 100 ->
  Z.of_nat (length (undo_stack a) + length (redo_stack a)) <= undo_limit a ->
  app_inv (_touch_model b a).
Proof.
  intros Hl Hs. unfold app_inv, _touch_model.
  destruct b; simpl; repeat split; try done; apply normalize_structure_idem.
Qed.

Lemma set_model_data_stacks d a :
  app_inv a ->
  undo_limit (set_model_data d a) = 100 /\
  Z.of_nat (length (undo_stack (set_model_data d a))
            + length (redo_stack (set_model_data d a)))
  <= undo_limit (set_model_data d a).
Proof. by intros (Hl & Hs & Hn). Qed.

Lemma structural_command_inv op a : app_inv a -> app_inv (structural_command op a).
Proof.
  intros H%push_undo_snapshot_inv. unfold structural_command.
  destruct (op _) as [[d' r]|]; [|done].
  destruct (set_model_data_stacks d' _ H) as [? ?]. by apply touch_model_inv.
Qed.

Lemma end_coalesced_edit_inv a : app_inv a -> app_inv (_end_coalesced_edit a).
Proof. by intros (Hl & Hs & Hn). Qed.

Lemma begin_coalesced_edit_inv a : app_inv a -> app_inv (_begin_coalesced_edit a).
Proof.
  intros H. unfold _begin_coalesced_edit. destruct (_edit_group_active a).
  - by destruct H as (Hl & Hs & Hn).
  - by apply push_undo_snapshot_inv in H as (Hl & Hs & Hn).
Qed.

Lemma on_field_changed_inv ref f a : app_inv a -> app_inv (_on_field_changed ref f a).
Proof.
  intros H%begin_coalesced_edit_inv. unfold _on_field_changed.
  destruct (_apply_form_to_model _ _ _) as [d'|]; [|done].
  destruct (set_model_data_stacks d' _ H) as [? ?]. by apply touch_model_inv.
Qed.

Lemma do_undo_inv a : app_inv a -> app_inv (_do_undo a).
Proof.
  intros (Hl & Hs & Hn). unfold _do_undo.
  destruct (py_pop (undo_stack a)) as [[top rest]|] eqn:E; [|done].
  apply py_pop_inv in E. unfold app_inv. simpl.
  repeat split; [done| |apply normalize_structure_idem].
  rewrite E in Hs. rewrite !length_app in *. simpl in *. lia.
Qed.

Lemma do_redo_inv a : app_inv a -> app_inv (_do_redo a).
Proof.
  intros (Hl & Hs & Hn). unfold _do_redo.
  destruct (py_pop (redo_stack a)) as [[top rest]|] eqn:E; [|done].
  apply py_pop_inv in E. unfold app_inv. simpl.
  repeat split; [done| |apply normalize_structure_idem].
  rewrite E in Hs. rewrite !length_app in Hs. simpl in Hs.
  rewrite capped_below by lia. rewrite length_app. simpl. lia.
Qed.

Lemma start_save_async_edit_fields a :
  edit_fields (_start_save_async a).1 = edit_fields a.
Proof. unfold _start_save_async. by destruct (_save_in_progress a). Qed.

Lemma on_save_done_eq ok err a :
  _on_save_done ok err a
  = if _save_pending a
    then _start_save_async (set_save_pending false (completion_recorded ok err a))
    else (completion_recorded ok err a, []).
Proof.
  unfold _on_save_done, completion_recorded.
  by destruct ok, (_inflight_version a) eqn:Ei; simpl; rewrite ?Ei.
Qed.

Lemma completion_recorded_edit_fields ok err a :
  edit_fields (completion_recorded ok err a) = edit_fields a.
Proof.
  unfold completion_recorded.
  by destruct ok, (_inflight_version a) eqn:Ei; simpl; rewrite ?Ei.
Qed.

Lemma on_save_done_edit_fields ok err a :
  edit_fields (_on_save_done ok err a).1 = edit_fields a.
Proof.
  rewrite on_save_done_eq. destruct (_save_pending a).
  - rewrite start_save_async_edit_fields.
    by rewrite <- (completion_recorded_edit_fields ok err a).
  - apply completion_recorded_edit_fields.
Qed.

Lemma app_inv_edit_fields a b : edit_fields b = edit_fields a -> app_inv a -> app_inv b.
Proof.
  unfold edit_fields, app_inv. intros [= Hd Hv Hu Hr Hl Hg] (? & ? & ?).
  by rewrite Hd, Hu, Hr, Hl.
Qed.

Lemma init_app_inv d0 : app_inv (init_app d0).
Proof.
  unfold app_inv. simpl. repeat split; [lia|apply normalize_structure_idem].
Qed.

Lemma handle_app_inv e w : app_inv (app w) -> app_inv (app (handle e w)).
Proof.
  intros H. destruct e; simpl; unfold ui, saving; simpl.
  - by apply structural_command_inv.
  - unfold _add_lesson. repeat case_match; try done; by apply structural_command_inv.
  - unfold _add_item. repeat case_match; try done; by apply structural_command_inv.
  - unfold _delete_selected. repeat case_match; try done; by apply structural_command_inv.
  - unfold _move_selected. repeat case_match; try done; by apply structural_command_inv.
  - by apply on_field_changed_inv.
  - by apply end_coalesced_edit_inv.
  - by apply do_undo_inv.
  - by apply do_redo_inv.
  - destruct (_autosave_fire (app w)) as [a' st] eqn:E. simpl.
    eapply app_inv_edit_fields; [|exact H].
    change a' with (a', st).1. rewrite <- E. unfold _autosave_fire.
    by rewrite start_save_async_edit_fields.
  - destruct (_save_now (app w)) as [a' st] eqn:E. simpl.
    eapply app_inv_edit_fields; [|exact H].
    change a' with (a', st).1. rewrite <- E. apply start_save_async_edit_fields.
  - destruct (workers w); [done|]. simpl.
    destruct (_on_save_done ok err (app w)) as [a' st] eqn:E. simpl.
    eapply app_inv_edit_fields; [|exact H].
    change a' with (a', st).1. rewrite <- E. apply on_save_done_edit_fields.
Qed.

Lemma run_app_inv evs w : app_inv (app w) -> app_inv (app (run evs w)).
Proof.
  revert w. induction evs as [|e evs IH]; intros w H; [done|].
  simpl. by apply IH, handle_app_inv.
Qed.

(** C5. Both stacks are bounded by the cap of 100: after any sequence of
    events, starting from any loaded document, neither stack is longer than
    the cap (and the cap is still 100).  Pushing onto a full undo stack
    drops its oldest entry and puts the new snapshot last. *)
Theorem history_stacks_bounded :
  (forall d0 evs,
     let a := app (run evs (init_world d0)) in
     undo_limit a = 100 /\
     (length (undo_stack a) <= 100)%nat /\
     (length (redo_stack a) <= 100)%nat) /\
  (forall a oldest rest,
     undo_stack a = oldest :: rest ->
     Z.of_nat (length (undo_stack a)) = undo_limit a ->
     undo_stack (_push_undo_snapshot a) = rest ++ [model_data a]).
Proof.
  split.
  - intros d0 evs a.
    destruct (run_app_inv evs (init_world d0) (init_app_inv d0)) as (Hl & Hs & _).
    fold a in Hl, Hs. rewrite Hl in Hs. split; [done|]. lia.
  - intros a oldest rest Hst Hfull. unfold _push_undo_snapshot. simpl.
    rewrite (proj2 (Z.ltb_lt _ _)) by (rewrite length_app; simpl; lia).
    by rewrite Hst.
Qed.

(** ** Save controller *)

(** No editing handler touches a field of the save controller. *)
Lemma touch_model_save_fields b a : save_fields (_touch_model b a) = save_fields a.
Proof. by destruct b. Qed.

Lemma structural_command_save_fields op a :
  save_fields (structural_command op a) = save_fields a.
Proof.
  unfold structural_command. destruct (op _) as [[d' r]|]; [|done].
  by rewrite touch_model_save_fields.
Qed.

Lemma on_field_changed_save_fields ref f a :
  save_fields (_on_field_changed ref f a) = save_fields a.
Proof.
  unfold _on_field_changed.
  assert (H : save_fields (_begin_coalesced_edit a) = save_fields a)
    by (unfold _begin_coalesced_edit; by destruct (_edit_group_active a)).
  destruct (_apply_form_to_model _ _ _); [|done].
  by rewrite touch_model_save_fields.
Qed.

Lemma do_undo_save_fields a : save_fields (_do_undo a) = save_fields a.
Proof. unfold _do_undo. by destruct (py_pop _) as [[]|]. Qed.

Lemma do_redo_save_fields a : save_fields (_do_redo a) = save_fields a.
Proof. unfold _do_redo. by destruct (py_pop _) as [[]|]. Qed.

Lemma handle_ui_save_fields e w :
  is_save_request e = false -> is_save_done e = false ->
  save_fields (app (handle e w)) = save_fields (app w) /\
  workers (handle e w) = workers w /\
  written (handle e w) = written w.
Proof.
  intros Hr Hd. destruct e; try discriminate; simpl; (split; [|done]).
  - apply structural_command_save_fields.
  - unfold _add_lesson.
    repeat case_match; try done; apply structural_command_save_fields.
  - unfold _add_item.
    repeat case_match; try done; apply structural_command_save_fields.
  - unfold _delete_selected.
    repeat case_match; try done; apply structural_command_save_fields.
  - unfold _move_selected.
    repeat case_match; try done; apply structural_command_save_fields.
  - apply on_field_changed_save_fields.
  - done.
  - apply do_undo_save_fields.
  - apply do_redo_save_fields.
Qed.

Lemma save_inv_cases w :
  save_inv w ->
  match workers w with
  | [] => _save_in_progress (app w) = false /\ _save_pending (app w) = false
  | [s] => _save_in_progress (app w) = true /\
           (exists v, _inflight_version (app w) = Some v) /\
           _inflight_snapshot (app w) = Some s
  | _ => False
  end.
Proof.
  intros [(-> & ? & ?)|(s & v & -> & ? & ? & ?)]; [done|]. eauto.
Qed.

Lemma save_request_step e w :
  is_save_request e = true ->
  handle e w
  = if _save_in_progress (app w)
    then mkWorld (set_save_pending true
                    (if e is AutosaveTimer then set_autosave_after_id false (app w)
                     else app w))
                 (workers w) (written w)
    else mkWorld (handle e w).(app)
                 (workers w ++ [model_data (app w)]) (written w ++ [model_data (app w)]).
Proof.
  destruct e; try discriminate; intros _; simpl;
    unfold saving, _autosave_fire, _save_now, _start_save_async; simpl;
    destruct (_save_in_progress (app w)); simpl; by rewrite ?app_nil_r.
Qed.

Lemma start_save_async_idle a :
  _save_in_progress a = false ->
  _start_save_async a
  = (set_save_last_error None
       (set_save_in_progress true
          (set_inflight_snapshot (Some (model_data a))
             (set_inflight_version (Some (model_version a)) a))),
     [model_data a]).
Proof. intros H. unfold _start_save_async. by rewrite H. Qed.

Lemma completion_recorded_flags ok err a :
  _save_in_progress (completion_recorded ok err a) = false /\
  _save_pending (completion_recorded ok err a) = _save_pending a /\
  _inflight_version (completion_recorded ok err a) = None /\
  _inflight_snapshot (completion_recorded ok err a) = None.
Proof.
  unfold completion_recorded.
  by destruct ok, (_inflight_version a) eqn:Ei; simpl; rewrite ?Ei.
Qed.

(** A completion with a save queued starts exactly one thread, on the
    document as it is now; one with none queued starts nothing. *)
Lemma on_save_done_started ok err a :
  (_on_save_done ok err a).2 = if _save_pending a then [model_data a] else [].
Proof.
  rewrite on_save_done_eq. destruct (_save_pending a); [|done].
  destruct (completion_recorded_flags ok err a) as (Hp & _).
  rewrite start_save_async_idle by done. simpl.
  pose proof (completion_recorded_edit_fields ok err a) as [= -> _ _ _ _ _]. done.
Qed.

Lemma on_save_done_flags ok err a :
  let a' := (_on_save_done ok err a).1 in
  _save_in_progress a' = _save_pending a /\
  _save_pending a' = false /\
  (_save_pending a = true ->
   _inflight_version a' = Some (model_version a) /\
   _inflight_snapshot a' = Some (model_data a)).
Proof.
  cbv zeta. rewrite on_save_done_eq.
  destruct (completion_recorded_flags ok err a) as (Hp & Hq & _).
  pose proof (completion_recorded_edit_fields ok err a) as [= Hd Hv _ _ _ _].
  destruct (_save_pending a) eqn:Eq.
  - rewrite start_save_async_idle by done. simpl. by rewrite Hd, Hv.
  - cbn [fst]. by rewrite Hp, Hq.
Qed.

Lemma save_done_step ok err w s rest :
  workers w = s :: rest ->
  handle (SaveDone ok err) w
  = mkWorld (_on_save_done ok err (app w)).1
            (rest ++ (_on_save_done ok err (app w)).2)
            (written w ++ (_on_save_done ok err (app w)).2).
Proof.
  intros Hw. simpl. rewrite Hw. unfold saving. simpl. by destruct (_on_save_done _ _ _).
Qed.

Lemma handle_save_inv e w : save_inv w -> save_inv (handle e w).
Proof.
  intros H.
  destruct (is_save_request e) eqn:Er.
  { rewrite save_request_step by done.
    destruct H as [(Hw & Hp & Hq)|(s & v & Hw & Hp & Hv & Hs)]; rewrite Hp.
    - right. exists (model_data (app w)), (model_version (app w)).
      rewrite Hw. destruct e; try discriminate; simpl;
        unfold saving, _autosave_fire, _save_now, _start_save_async; simpl; by rewrite Hp.
    - right. exists s, v. by destruct e. }
  destruct (is_save_done e) eqn:Ed.
  { destruct e; try discriminate.
    destruct H as [(Hw & Hp & Hq)|(s & v & Hw & Hp & Hv & Hs)].
    - left. simpl. by rewrite Hw.
    - rewrite (save_done_step ok err w s []) by done.
      rewrite on_save_done_started.
      destruct (on_save_done_flags ok err (app w)) as (Hp' & Hq' & Hi).
      destruct (_save_pending (app w)) eqn:Eq.
      + right. destruct (Hi eq_refl) as [Hv' Hs'].
        by exists (model_data (app w)), (model_version (app w)).
      + by left. }
  destruct (handle_ui_save_fields e w Er Ed) as ([= H1 H2 H3 H4 H5 H6] & Hw & _).
  unfold save_inv. by rewrite Hw, H1, H2, H4, H5.
Qed.

Lemma init_save_inv d0 : save_inv (init_world d0).
Proof. by left. Qed.

Lemma run_save_inv evs w : save_inv w -> save_inv (run evs w).
Proof.
  revert w. induction evs as [|e evs IH]; intros w H; [done|].
  simpl. by apply IH, handle_save_inv.
Qed.

Lemma run_cons e evs w : run (e :: evs) w = run evs (handle e w).
Proof. done. Qed.

(** While one write is in flight and no completion runs, whatever else
    happens starts no thread; a save request only raises the pending flag. *)
Lemma run_while_saving evs : forall w s,
  workers w = [s] -> save_inv w ->
  Forall (fun e => is_save_done e = false) evs ->
  workers (run evs w) = [s] /\
  written (run evs w) = written w /\
  _save_pending (app (run evs w))
  = _save_pending (app w) || existsb is_save_request evs.
Proof.
  induction evs as [|e evs IH]; intros w s Hw Hinv Hev.
  { simpl. by rewrite orb_false_r. }
  apply Forall_cons in Hev as [He Hev]. rewrite run_cons.
  pose proof (handle_save_inv e w Hinv) as Hinv'.
  pose proof (save_inv_cases w Hinv) as Hc. rewrite Hw in Hc. destruct Hc as (Hp & _).
  assert (workers (handle e w) = [s] /\ written (handle e w) = written w /\
          _save_pending (app (handle e w)) = _save_pending (app w) || is_save_request e)
    as (Hw' & Hwr' & Hq').
  { destruct (is_save_request e) eqn:Er.
    - rewrite save_request_step by done. rewrite Hp. simpl. by rewrite orb_true_r.
    - destruct (handle_ui_save_fields e w Er He) as ([= _ H2 _ _ _ _] & Hsame & ?).
      by rewrite orb_false_r, Hsame, Hw. }
  destruct (IH (handle e w) s Hw' Hinv' Hev) as (H1 & H2 & H3).
  rewrite H1, H2, H3, Hwr', Hq'. simpl. by rewrite orb_assoc.
Qed.

(** Events that are neither a save request nor a completion leave the save
    controller and the threads as they are. *)
Lemma run_quiet evs : forall w,
  Forall (fun e => is_save_request e = false /\ is_save_done e = false) evs ->
  save_fields (app (run evs w)) = save_fields (app w) /\
  workers (run evs w) = workers w /\
  written (run evs w) = written w.
Proof.
  induction evs as [|e evs IH]; intros w Hev; [done|].
  apply Forall_cons in Hev as [[Hr Hd] Hev]. rewrite run_cons.
  destruct (handle_ui_save_fields e w Hr Hd) as (H1 & H2 & H3).
  destruct (IH (handle e w) Hev) as (H4 & H5 & H6).
  by rewrite H4, H5, H6, H1, H2, H3.
Qed.

(** C1. At most one write is in flight at any time.  A save request made
    while a save is in flight starts no thread and only sets the pending
    flag.  From an idle editor: a request starts the first write; any events
    other than a completion, among them at least one further save request,
    start none; the completion then starts exactly one follow-up write, of
    the document as it is at that moment; and when that one completes with
    no request made meanwhile, nothing is being written: two writes in
    all. *)
Theorem single_flight_saves :
  (forall d0 evs, (length (workers (run evs (init_world d0))) <= 1)%nat) /\
  (forall a, _save_in_progress a = true ->
             _start_save_async a = (set_save_pending true a, [])) /\
  (forall d0 evs0 req evs evs' ok1 err1 ok2 err2,
     let w0 := run evs0 (init_world d0) in
     let w1 := handle req w0 in
     let w2 := run evs w1 in
     let w3 := handle (SaveDone ok1 err1) w2 in
     let w4 := handle (SaveDone ok2 err2) (run evs' w3) in
     workers w0 = [] ->
     is_save_request req = true ->
     Forall (fun e => is_save_done e = false) evs ->
     Exists (fun e => is_save_request e = true) evs ->
     Forall (fun e => is_save_request e = false /\ is_save_done e = false) evs' ->
     workers w1 = [model_data (app w0)] /\
     written w2 = written w0 ++ [model_data (app w0)] /\
     workers w3 = [model_data (app w2)] /\
     written w4 = written w0 ++ [model_data (app w0); model_data (app w2)] /\
     workers w4 = []).
Proof.
  split; [|split].
  - intros d0 evs.
    pose proof (save_inv_cases _ (run_save_inv evs _ (init_save_inv d0))) as H.
    destruct (workers _) as [|s [|]]; simpl; [lia|lia|done].
  - intros a H. unfold _start_save_async. by rewrite H.
  - intros d0 evs0 req evs evs' ok1 err1 ok2 err2 w0 w1 w2 w3 w4 Hidle Hreq Hev Hex Hev'.
    pose proof (run_save_inv evs0 _ (init_save_inv d0)) as Hinv0. fold w0 in Hinv0.
    pose proof (save_inv_cases w0 Hinv0) as Hc. rewrite Hidle in Hc. destruct Hc as [Hp0 Hq0].
    assert (Hw1 : workers w1 = [model_data (app w0)] /\
                  written w1 = written w0 ++ [model_data (app w0)] /\
                  _save_pending (app w1) = false).
    { subst w1. rewrite save_request_step by done. rewrite Hp0, Hidle. simpl.
      repeat split.
      destruct req; try discriminate; simpl;
        unfold saving, _autosave_fire, _save_now, _start_save_async; simpl; by rewrite Hp0. }
    destruct Hw1 as (Hw1 & Hwr1 & Hq1).
    pose proof (handle_save_inv req w0 Hinv0) as Hinv1. fold w1 in Hinv1.
    destruct (run_while_saving evs w1 _ Hw1 Hinv1 Hev) as (Hw2 & Hwr2 & Hq2).
    fold w2 in Hw2, Hwr2, Hq2.
    assert (Hq2' : _save_pending (app w2) = true).
    { rewrite Hq2, Hq1. simpl. apply existsb_exists.
      apply Exists_exists in Hex as (e & Hin & He). exists e. split; [|done].
      by apply list_elem_of_In. }
    assert (Hw3 : workers w3 = [model_data (app w2)] /\
                  written w3 = written w2 ++ [model_data (app w2)] /\
                  _save_pending (app w3) = false).
    { subst w3. rewrite (save_done_step _ _ _ _ [] Hw2), on_save_done_started.
      rewrite Hq2'. simpl. repeat split.
      by destruct (on_save_done_flags ok1 err1 (app w2)) as (_ & Hq3 & _). }
    destruct Hw3 as (Hw3 & Hwr3 & Hq3).
    destruct (run_quiet evs' w3 Hev') as ([= _ Hq4 _ _ _ _] & Hw4 & Hwr4).
    assert (Hfin : workers w4 = [] /\ written w4 = written w3).
    { subst w4. rewrite (save_done_step _ _ _ (model_data (app w2)) [])
        by (by rewrite Hw4, Hw3).
      rewrite on_save_done_started, Hq4, Hq3. simpl. by rewrite app_nil_r, Hwr4. }
    destruct Hfin as (Hw5 & Hwr5).
    repeat split; [done| by rewrite Hwr2, Hwr1 | done | | done].
    by rewrite Hwr5, Hwr3, Hwr2, Hwr1, <- app_assoc.
Qed.

(** ** Completion and the dirty predicate *)

(** C7, as stated, fails: two save requests, the second one queued; the
    write fails with "disk full".  When [_on_save_done] returns, the error is
    gone again: the queued save it started has cleared it. *)
Lemma failed_save_error_cleared_by_queued_save :
  let a := app (run [SaveNow; SaveNow] (init_world (JDict []))) in
  _save_in_progress a = true /\ _save_pending a = true /\
  _save_last_error (_on_save_done false (Some (str "disk full")) a).1 = None.
Proof. vm_compute. done. Qed.

(** C7 (amended).  When a write whose snapshot was taken at version [v]
    completes: on success [last_saved_version] becomes [v] and the stored
    error is cleared.  On failure [last_saved_version] is left as it was, so
    a document whose version differs from it stays dirty; with no save
    queued the stored error becomes the message (never empty: "Unknown
    error" stands in for a missing or empty one); with a save queued the
    follow-up save starts at once and starting it clears the stored error
    again. *)
Theorem save_completion_outcome (a : EditorApp) (v : Z) (ok : bool)
    (err : option pystr) :
  _inflight_version a = Some v ->
  let a' := (_on_save_done ok err a).1 in
  (ok = true -> last_saved_version a' = v /\ _save_last_error a' = None) /\
  (ok = false ->
     last_saved_version a' = last_saved_version a /\
     (model_version a <> last_saved_version a -> _is_dirty a' = true) /\
     (_save_pending a = false ->
        exists msg, _save_last_error a' = Some msg /\ msg <> [] /\
                    (forall e, err = Some e -> e <> [] -> msg = e) /\
                    ((err = None \/ err = Some []) -> msg = str "Unknown error")) /\
     (_save_pending a = true ->
        _save_last_error a' = None /\ _save_in_progress a' = true)).
Proof.
  intros Hv a'. subst a'. rewrite on_save_done_eq.
  unfold _start_save_async, completion_recorded, _is_dirty.
  split; intros ->; simpl; rewrite ?Hv.
  - by destruct (_save_pending a).
  - split; [by destruct (_save_pending a)|]. split; [|split].
    + intros Hne. destruct (_save_pending a); simpl;
        by rewrite (proj2 (Z.eqb_neq _ _) Hne).
    + intros ->. simpl. eexists. split; [done|].
      destruct err as [[|c e]|]; repeat split; try done.
      * by intros e [= <-].
      * by intros e' [= <-].
      * by intros [[=]|[=]].
    + by intros ->.
Qed.

(** C8. The document is dirty exactly when the model version differs from
    the last saved version, or a save is in flight, or a save is queued.
    Right after a save that was started from an idle controller succeeded,
    with no mutation since it started and nothing queued, the document is
    not dirty; and from a document that is not dirty, a mutation
    ([_touch_model], or an undo or redo that has something to restore; each
    increments the version) makes it dirty. *)
Theorem dirty_predicate :
  (forall a, _is_dirty a = true <->
             model_version a <> last_saved_version a \/
             _save_in_progress a = true \/ _save_pending a = true) /\
  (forall a err,
     _save_in_progress a = false -> _save_pending a = false ->
     _is_dirty (_on_save_done true err (_start_save_async a).1).1 = false) /\
  (forall a structural,
     _is_dirty a = false -> _is_dirty (_touch_model structural a) = true) /\
  (forall a, _is_dirty a = false -> undo_stack a <> [] -> _is_dirty (_do_undo a) = true) /\
  (forall a, _is_dirty a = false -> redo_stack a <> [] -> _is_dirty (_do_redo a) = true).
Proof.
  split; [|split; [|split; [|split]]].
  - intros a. unfold _is_dirty. rewrite !orb_true_iff, negb_true_iff, Z.eqb_neq. tauto.
  - intros a err Hp Hq. rewrite start_save_async_idle by done.
    rewrite on_save_done_eq. unfold completion_recorded, _is_dirty. simpl.
    rewrite Hq. simpl. by rewrite Z.eqb_refl.
  - intros a structural. unfold _is_dirty.
    rewrite !orb_false_iff, negb_false_iff, Z.eqb_eq. intros [[Hv Hp] Hq].
    rewrite !orb_true_iff, negb_true_iff, Z.eqb_neq. left.
    destruct structural; simpl; lia.
  - intros a. unfold _is_dirty, _do_undo.
    rewrite !orb_false_iff, negb_false_iff, Z.eqb_eq. intros [[Hv Hp] Hq] Hne.
    destruct (py_pop (undo_stack a)) as [[top rest]|] eqn:E.
    + rewrite !orb_true_iff, negb_true_iff, Z.eqb_neq. left. simpl. lia.
    + unfold py_pop in E. destruct (reverse (undo_stack a)) eqn:Er; [|done].
      apply (f_equal reverse) in Er. by rewrite reverse_involutive in Er.
  - intros a. unfold _is_dirty, _do_redo.
    rewrite !orb_false_iff, negb_false_iff, Z.eqb_eq. intros [[Hv Hp] Hq] Hne.
    destruct (py_pop (redo_stack a)) as [[top rest]|] eqn:E.
    + rewrite !orb_true_iff, negb_true_iff, Z.eqb_neq. left. simpl. lia.
    + unfold py_pop in E. destruct (reverse (redo_stack a)) eqn:Er; [|done].
      apply (f_equal reverse) in Er. by rewrite reverse_involutive in Er.
Qed.

(** ** Undo and redo *)

Lemma structural_command_stack op a :
  undo_stack (structural_command op a)
  = capped (undo_limit a) (undo_stack a ++ [model_data a]).
Proof.
  unfold structural_command.
  assert (Hp : undo_stack (_push_undo_snapshot a)
               = capped (undo_limit a) (undo_stack a ++ [model_data a])) by done.
  by destruct (op _) as [[d' r]|].
Qed.

Lemma on_field_changed_stack ref f a :
  undo_stack (_on_field_changed ref f a)
  = if _edit_group_active a then undo_stack a
    else capped (undo_limit a) (undo_stack a ++ [model_data a]).
Proof.
  unfold _on_field_changed.
  assert (Hp : undo_stack (_begin_coalesced_edit a)
               = if _edit_group_active a then undo_stack a
                 else capped (undo_limit a) (undo_stack a ++ [model_data a]))
    by (unfold _begin_coalesced_edit; by destruct (_edit_group_active a)).
  by destruct (_apply_form_to_model _ _ _).
Qed.

(** One event that is not undo or redo: either its handler pushes the
    document as it was, or it leaves the stack alone -- and then, if no edit
    group was open, also the document, and no group is open afterwards. *)
Lemma edit_step e w :
  is_history_event e = false ->
  let a := app w in
  let a' := app (handle e w) in
  if pushes_snapshot e a
  then undo_stack a' = capped (undo_limit a) (undo_stack a ++ [model_data a])
  else undo_stack a' = undo_stack a /\
       (_edit_group_active a = false ->
        model_data a' = model_data a /\ _edit_group_active a' = false).
Proof.
  intros He a a'. subst a a'.
  destruct e; try discriminate He; simpl.
  - apply structural_command_stack.
  - unfold _add_lesson. repeat case_match; first [apply structural_command_stack | done].
  - unfold _add_item. repeat case_match; first [apply structural_command_stack | done].
  - unfold _delete_selected.
    repeat case_match; first [apply structural_command_stack | done].
  - unfold _move_selected.
    repeat case_match; first [apply structural_command_stack | done].
  - rewrite on_field_changed_stack. by destruct (_edit_group_active (app w)).
  - done.
  - unfold saving. destruct (_autosave_fire (app w)) as [a' st] eqn:E. simpl.
    assert (H : edit_fields a' = edit_fields (app w)).
    { change a' with (a', st).1. rewrite <- E. unfold _autosave_fire.
      by rewrite start_save_async_edit_fields. }
    injection H as Hd _ Hu _ _ Hg. by rewrite Hd, Hu, Hg.
  - unfold saving. destruct (_save_now (app w)) as [a' st] eqn:E. simpl.
    assert (H : edit_fields a' = edit_fields (app w)).
    { change a' with (a', st).1. rewrite <- E. apply start_save_async_edit_fields. }
    injection H as Hd _ Hu _ _ Hg. by rewrite Hd, Hu, Hg.
  - destruct (workers w); [done|]. unfold saving. simpl.
    destruct (_on_save_done ok err (app w)) as [a' st] eqn:E. simpl.
    assert (H : edit_fields a' = edit_fields (app w)).
    { change a' with (a', st).1. rewrite <- E. apply on_save_done_edit_fields. }
    injection H as Hd _ Hu _ _ Hg. by rewrite Hd, Hu, Hg.
Qed.

(** A push keeps a snapshot that has fewer than a hundred above it. *)
Lemma capped_keeps (pre rest : list json) (s x : json) :
  (length rest + 2 <= 100)%nat ->
  exists pre', capped 100 ((pre ++ s :: rest) ++ [x]) = pre' ++ s :: rest ++ [x].
Proof.
  intros Hlen. unfold capped. rewrite <- app_assoc. simpl.
  destruct (Z.ltb_spec 100 (Z.of_nat (length (pre ++ s :: rest ++ [x])))) as [Hlt|_].
  - destruct pre as [|p pre].
    + simpl in Hlt. rewrite length_app in Hlt. simpl in Hlt. lia.
    + by exists pre.
  - by exists pre.
Qed.

(** Once the document [s] is on the undo stack with [m - 1] snapshots above
    it, a run without undo and redo that pushes [k] more, [m + k] at most
    the cap, leaves it there with [m + k - 1] above it. *)
Lemma edit_run_grows evs : forall w pre s rest,
  app_inv (app w) ->
  Forall (fun e => is_history_event e = false) evs ->
  undo_stack (app w) = pre ++ s :: rest ->
  Forall normalized rest ->
  (length rest + 1 + snapshots_pushed evs w <= 100)%nat ->
  exists pre' rest',
    undo_stack (app (run evs w)) = pre' ++ s :: rest' /\
    length rest' = (length rest + snapshots_pushed evs w)%nat /\
    Forall normalized rest'.
Proof.
  induction evs as [|e evs IH]; intros w pre s rest Hinv Hev Hs Hf Hroom.
  { exists pre, rest. simpl. by rewrite Nat.add_0_r. }
  apply Forall_cons in Hev as [He Hev]. rewrite run_cons.
  pose proof Hinv as (Hl & _ & Hn). cbn [snapshots_pushed] in Hroom |- *.
  pose proof (handle_app_inv e w Hinv) as Hinv'.
  pose proof (edit_step e w He) as Hstep. cbv zeta in Hstep.
  destruct (pushes_snapshot e (app w)).
  - rewrite Hl, Hs in Hstep.
    destruct (capped_keeps pre rest s (model_data (app w)) ltac:(lia)) as [pre1 Hc].
    rewrite Hc in Hstep.
    destruct (IH (handle e w) pre1 s (rest ++ [model_data (app w)]))
      as (pre' & rest' & Hr & Hlen & Hf'); [done|done|done| | |].
    + apply Forall_app. split; [done|]. by apply Forall_singleton.
    + rewrite length_app. simpl. lia.
    + exists pre', rest'. rewrite length_app in Hlen. simpl in Hlen.
      split; [done|]. split; [lia|done].
  - destruct Hstep as [Hstack _].
    destruct (IH (handle e w) pre s rest) as (pre' & rest' & Hr & Hlen & Hf');
      [done|done|by rewrite Hstack|done|lia|].
    by exists pre', rest'.
Qed.

(** A run without undo and redo, begun with no edit group open: if it
    pushes nothing the document is the one it began with; if it pushes [n]
    snapshots, at most the cap, the document it began with is on the undo
    stack with [n - 1] snapshots above it. *)
Lemma edit_run evs : forall w,
  app_inv (app w) ->
  _edit_group_active (app w) = false ->
  Forall (fun e => is_history_event e = false) evs ->
  (snapshots_pushed evs w <= 100)%nat ->
  (snapshots_pushed evs w = 0%nat /\
   model_data (app (run evs w)) = model_data (app w))
  \/ (exists pre rest,
        undo_stack (app (run evs w)) = pre ++ model_data (app w) :: rest /\
        S (length rest) = snapshots_pushed evs w /\
        Forall normalized rest).
Proof.
  induction evs as [|e evs IH]; intros w Hinv Hg Hev Hroom; [by left|].
  apply Forall_cons in Hev as [He Hev]. rewrite run_cons.
  pose proof Hinv as (Hl & Hsum & Hn). cbn [snapshots_pushed] in Hroom |- *.
  pose proof (handle_app_inv e w Hinv) as Hinv'.
  pose proof (edit_step e w He) as Hstep. cbv zeta in Hstep.
  destruct (pushes_snapshot e (app w)).
  - right. rewrite Hl in Hstep.
    assert (exists pre1, undo_stack (app (handle e w)) = pre1 ++ model_data (app w) :: [])
      as [pre1 Hs1].
    { rewrite Hstep. unfold capped.
      destruct (Z.ltb_spec 100 (Z.of_nat (length (undo_stack (app w) ++ [model_data (app w)]))))
        as [Hlt|_]; [|by eexists].
      destruct (undo_stack (app w)) as [|p st]; [simpl in Hlt; lia|]. by exists st. }
    destruct (edit_run_grows evs (handle e w) pre1 (model_data (app w)) [])
      as (pre' & rest' & Hr & Hlen & Hf'); [done|done|done|done|simpl; lia|].
    exists pre', rest'. simpl in Hlen. split; [done|]. split; [lia|done].
  - destruct Hstep as [Hstack Hd]. destruct (Hd Hg) as [Hd' Hg'].
    destruct (IH (handle e w)) as [[Hz Hm]|(pre & rest & Hr & Hlen & Hf)];
      [done|done|done|lia| |].
    + left. rewrite Hz. split; [done|]. by rewrite Hm, Hd'.
    + right. exists pre, rest. rewrite Hr, Hd'. split; [done|]. split; [|done].
      by rewrite Hlen.
Qed.

Lemma do_undo_pops a st top :
  undo_stack a = st ++ [top] -> normalized top ->
  undo_stack (_do_undo a) = st /\ model_data (_do_undo a) = top /\
  redo_stack (_do_undo a) = redo_stack a ++ [model_data a].
Proof.
  intros Hs Hn. unfold _do_undo. rewrite Hs, py_pop_snoc. simpl. by rewrite Hn.
Qed.

Lemma iter_undo rest : forall a st top,
  undo_stack a = st ++ top :: rest ->
  normalized top -> Forall normalized rest ->
  model_data (Nat.iter (S (length rest)) _do_undo a) = top.
Proof.
  induction rest as [|x rest IH] using rev_ind; intros a st top Hs Hn Hf.
  - simpl. by destruct (do_undo_pops a st top Hs Hn) as (_ & -> & _).
  - apply Forall_app in Hf as [Hf Hx]. rewrite Forall_singleton in Hx.
    rewrite length_app. simpl. rewrite Nat.add_1_r, Nat.iter_succ_r.
    apply (IH (_do_undo a) st); [|done|done].
    destruct (do_undo_pops a (st ++ top :: rest) x) as (-> & _); [|done|done].
    by rewrite Hs, <- app_assoc.
Qed.

(** C3, as stated, fails: two structural commands, then one [undo()].  The
    document is the one between the two commands, with one category, not the
    one the sequence started from. *)
Lemma undo_after_two_commands_not_initial :
  let w := init_world (JDict []) in
  let b := app (run [AddCategory; AddCategory] w) in
  model_data (_do_undo b) <> model_data (app w) /\
  model_data (_do_undo b) = model_data (app (run [AddCategory] w)).
Proof. split; [vm_compute; discriminate | vm_compute; reflexivity]. Qed.

(** C3 (amended).  Take the editor in any state it can reach, with no edit
    group open, and its document [S]; let a sequence M of events other than
    undo and redo follow (field edits, structural commands, timers, saves),
    and let [n], at most the cap of 100, be the number of snapshots M pushes:
    one per structural command that passes its guards, one per field edit
    that opens an edit group, none for a field edit inside an open group.
    If [n = 0] the document is still [S].  Otherwise [n] calls of [undo()]
    restore [S] -- a single one exactly when M is one burst or one command
    --, and [redo()] right after one [undo()] restores the document as it was
    after M.  [undo()] with an empty undo stack and [redo()] with an empty
    redo stack change nothing. *)
Theorem undo_redo_inverse :
  (forall d0 evs0 evs,
     let w := run evs0 (init_world d0) in
     let a := app w in
     let b := app (run evs w) in
     let n := snapshots_pushed evs w in
     _edit_group_active a = false ->
     Forall (fun e => is_history_event e = false) evs ->
     (n <= 100)%nat ->
     (n = 0%nat -> model_data b = model_data a) /\
     ((1 <= n)%nat -> model_data (Nat.iter n _do_undo b) = model_data a) /\
     ((1 <= n)%nat -> model_data (_do_redo (_do_undo b)) = model_data b)) /\
  (forall e w,
     is_history_event e = false ->
     undo_stack (app (handle e w))
     = if pushes_snapshot e (app w)
       then capped (undo_limit (app w)) (undo_stack (app w) ++ [model_data (app w)])
       else undo_stack (app w)) /\
  (forall a, undo_stack a = [] -> _do_undo a = a) /\
  (forall a, redo_stack a = [] -> _do_redo a = a).
Proof.
  split; [|split; [|split]].
  - intros d0 evs0 evs w a b n Hg Hev Hroom.
    assert (Hinv : app_inv (app w)) by apply run_app_inv, init_app_inv.
    assert (Hinvb : app_inv b) by (by apply run_app_inv).
    destruct (edit_run evs w Hinv Hg Hev Hroom) as [[Hz Hd]|(pre & rest & Hs & Hlen & Hf)].
    + fold a b n in Hz, Hd. rewrite Hz. split; [done|]. split; intros; lia.
    + fold a b n in Hs, Hlen. rewrite <- Hlen. split; [done|]. split; intros _.
      * apply (iter_undo rest b pre); [done| |done]. by destruct Hinv as (_ & _ & ?).
      * assert (exists st top, undo_stack b = st ++ [top] /\ normalized top)
          as (st & top & Hlast & Htop).
        { destruct rest as [|x rest' _] using rev_ind.
          - exists pre, (model_data a). split; [done|].
            by destruct Hinv as (_ & _ & ?).
          - exists (pre ++ model_data a :: rest'), x.
            rewrite Hs, <- app_assoc. split; [done|].
            apply Forall_app in Hf as [_ Hx]. by rewrite Forall_singleton in Hx. }
        destruct (do_undo_pops b st top Hlast Htop) as (_ & _ & Hr).
        unfold _do_redo. rewrite Hr, py_pop_snoc. simpl.
        by destruct Hinvb as (_ & _ & ?).
  - intros e w He. pose proof (edit_step e w He) as H. cbv zeta in H.
    destruct (pushes_snapshot e (app w)); [done|by destruct H].
  - intros a H. unfold _do_undo. by rewrite H.
  - intros a H. unfold _do_redo. by rewrite H.
Qed.

(** ** More on dictionaries *)

Lemma dict_set_same k v d : dict_get k d = Some v -> dict_set k v d = d.
Proof.
  induction d as [|[k' v'] d IH]; simpl; [done|].
  destruct (decide (k' = k)) as [->|Hne]; [by intros [= ->]|].
  intros H. by rewrite IH.
Qed.

Lemma dict_get_pop_ne k k' d : k <> k' -> dict_get k' (dict_pop k d) = dict_get k' d.
Proof.
  intros Hne. induction d as [|[k0 v0] d IH]; simpl; [done|].
  destruct (decide (k0 = k)) as [->|Hne0]; simpl.
  - by rewrite decide_False.
  - by rewrite IH.
Qed.

Lemma has_key_pop k k' d : k <> k' -> has_key k' d -> has_key k' (dict_pop k d).
Proof. intros Hne. unfold has_key. by rewrite dict_get_pop_ne. Qed.

(** ** Stores along a path *)

Lemma store_key_same o k c : getitem_key o k = OK c -> store_key o k c = o.
Proof.
  intros (kvs & -> & Hget)%getitem_key_inv. simpl. by rewrite dict_set_same.
Qed.

Lemma store_idx_same o i c : getitem_idx o i = OK c -> store_idx o i c = o.
Proof.
  destruct o; try done.
  intros (z & n & -> & Hn & Hx)%getitem_idx_list_inv. simpl. rewrite Hn.
  by rewrite list_insert_id.
Qed.

Lemma store_key_store o k v v' : store_key (store_key o k v) k v' = store_key o k v'.
Proof. destruct o; try done. simpl. by rewrite dict_set_set. Qed.

Lemma store_idx_store o i v v' : store_idx (store_idx o i v) i v' = store_idx o i v'.
Proof.
  destruct o as [| | | | |xs|]; try done. destruct i as [z|]; [|done]. simpl.
  destruct (py_index (length xs) z) as [n|] eqn:E; simpl; rewrite ?length_insert, E; [|done].
  by rewrite list_insert_insert_eq.
Qed.

(** Storing back what was read changes nothing. *)
Lemma put_path_same p : forall o c, get_path o p = OK c -> put_path o p c = o.
Proof.
  induction p as [|[k|i] p IH]; intros o c H; cbn [get_path put_path] in *.
  - by injection H as ->.
  - res_inv H. apply store_key_same. by rewrite (IH _ _ H).
  - res_inv H. apply store_idx_same. by rewrite (IH _ _ H).
Qed.

(** Of two stores at the same path the second one wins. *)
Lemma put_path_put p : forall o v v', put_path (put_path o p v) p v' = put_path o p v'.
Proof.
  induction p as [|[k|i] p IH]; intros o v v'; cbn [put_path]; [done| |].
  - destruct (getitem_key o k) as [c|] eqn:E; [|by rewrite E].
    erewrite getitem_key_store by done. by rewrite store_key_store, IH.
  - destruct (getitem_idx o i) as [c|] eqn:E; [|by rewrite E].
    destruct o as [| | | |s|xs|]; try discriminate E.
    + cbn [store_idx]. by rewrite E.
    + erewrite getitem_idx_store by done. by rewrite store_idx_store, IH.
Qed.

Lemma put_siblings_same data ref xs :
  siblings data ref = OK xs -> put_siblings data ref xs = data.
Proof. apply put_path_same. Qed.

Lemma put_siblings_put data ref xs xs' :
  put_siblings (put_siblings data ref xs) ref xs' = put_siblings data ref xs'.
Proof. apply put_path_put. Qed.

(** ** What a successful call has done *)

Lemma append_inv o v o' : append o v = OK o' -> exists xs, o = JList xs /\ o' = JList (xs ++ [v]).
Proof. destruct o; try discriminate. intros [= <-]. eauto. Qed.

Lemma add_category_inv data name slug data' r :
  add_category data name slug = OK (data', r) ->
  exists xs,
    let parent := mkRef Category None None None in
    siblings data parent = OK (JList xs) /\
    data' = put_siblings data parent (JList (xs ++ [new_category name slug])) /\
    r = ref_category (Z.of_nat (length xs)).
Proof.
  unfold add_category. intros H. res_inv H.
  apply append_inv in E0 as (xs & -> & ->).
  cbn [py_len] in E1. injection E1 as <-. injection H as <- <-.
  exists xs. cbn zeta.
  unfold siblings, put_siblings, put_categories, sibling_path.
  cbn [kind get_path put_path]. rewrite E. cbn [mbind res_bind].
  repeat split. unfold ref_category. do 2 f_equal. rewrite length_app. simpl. lia.
Qed.

Lemma add_lesson_inv data ci name slug data' r :
  add_lesson data ci name slug = OK (data', r) ->
  exists xs,
    let parent := mkRef Lesson ci None None in
    siblings data parent = OK (JList xs) /\
    data' = put_siblings data parent (JList (xs ++ [new_lesson name slug])) /\
    r = mkRef Lesson ci (Some (Z.of_nat (length xs))) None.
Proof.
  unfold add_lesson. intros H. res_inv H.
  apply append_inv in E2 as (xs & -> & ->).
  cbn [py_len] in E3. injection E3 as <-. injection H as <- <-.
  exists xs. cbn zeta.
  unfold siblings, put_siblings, put_lessons, put_categories, sibling_path.
  cbn [kind cat_i get_path put_path].
  rewrite E. cbn [mbind res_bind]. rewrite E0. cbn [mbind res_bind]. rewrite E1.
  repeat split. do 3 f_equal. rewrite length_app. simpl. lia.
Qed.

(** A node appended to the child sequence is found at the index the old
    length gives. *)
Lemma appended_resolves data r xs x :
  is_child r = true ->
  siblings data r = OK (JList xs) ->
  own_index r = Some (Z.of_nat (length xs)) ->
  siblings (put_siblings data r (JList (xs ++ [x]))) r = OK (JList (xs ++ [x])) /\
  get_node (put_siblings data r (JList (xs ++ [x]))) r = OK x.
Proof.
  intros Hk Hs Ho.
  assert (Hs' : siblings (put_siblings data r (JList (xs ++ [x]))) r = OK (JList (xs ++ [x])))
    by (by eapply siblings_put).
  split; [done|]. rewrite get_node_child by done. rewrite Hs', Ho.
  apply getitem_idx_app_last.
Qed.

(** X1. [add_category], [add_lesson] and [add_item] append.  Whenever one
    of them returns, the child sequence it added to was a list [xs]; the
    document afterwards differs only in that sequence, which is [xs] followed
    by the new node (so every older sibling keeps its index); the reference
    returned carries the index [len(xs)]; and [get_node] resolves it to the
    new node. *)
Theorem add_appends_and_resolves :
  (forall data name slug data' r,
     add_category data name slug = OK (data', r) ->
     exists xs,
       siblings data r = OK (JList xs) /\
       r = ref_category (Z.of_nat (length xs)) /\
       data' = put_siblings data r (JList (xs ++ [new_category name slug])) /\
       siblings data' r = OK (JList (xs ++ [new_category name slug])) /\
       get_node data' r = OK (new_category name slug)) /\
  (forall data ci name slug data' r,
     add_lesson data ci name slug = OK (data', r) ->
     exists xs,
       siblings data r = OK (JList xs) /\
       r = mkRef Lesson ci (Some (Z.of_nat (length xs))) None /\
       data' = put_siblings data r (JList (xs ++ [new_lesson name slug])) /\
       siblings data' r = OK (JList (xs ++ [new_lesson name slug])) /\
       get_node data' r = OK (new_lesson name slug)) /\
  (forall data ci li ja it image data' r,
     add_item data ci li ja it image = OK (data', r) ->
     exists xs item,
       siblings data r = OK (JList xs) /\
       r = mkRef Item ci li (Some (Z.of_nat (length xs))) /\
       data' = put_siblings data r (JList (xs ++ [item])) /\
       siblings data' r = OK (JList (xs ++ [item])) /\
       get_node data' r = OK item).
Proof.
  split; [|split].
  - intros data name slug data' r (xs & Hs & -> & ->)%add_category_inv.
    exists xs. split; [done|]. split; [done|]. split; [done|].
    exact (appended_resolves data (ref_category (Z.of_nat (length xs))) xs _
             eq_refl Hs eq_refl).
  - intros data ci name slug data' r (xs & Hs & -> & ->)%add_lesson_inv.
    exists xs. split; [done|]. split; [done|]. split; [done|].
    exact (appended_resolves data (mkRef Lesson ci (Some (Z.of_nat (length xs))) None) xs _
             eq_refl Hs eq_refl).
  - intros data ci li ja it image data' r (xs & img & Hs & -> & -> & _)%add_item_inv.
    exists xs. eexists. split; [done|]. split; [done|]. split; [done|].
    exact (appended_resolves data (mkRef Item ci li (Some (Z.of_nat (length xs)))) xs _
             eq_refl Hs eq_refl).
Qed.

(** ** Deleting and moving, when they return *)

Lemma delitem_idx_inv o i o' :
  delitem_idx o i = OK o' ->
  exists xs z n, o = JList xs /\ i = Some z /\ py_index (length xs) z = Some n /\
                 o' = JList (delete n xs).
Proof.
  destruct o as [| | | | |xs|]; try discriminate. simpl.
  destruct i as [z|]; [|discriminate].
  destruct (py_index (length xs) z) as [n|] eqn:E; [|discriminate].
  intros [= <-]. by exists xs, z, n.
Qed.

Lemma delete_node_inv data ref data' r :
  delete_node data ref = OK (data', r) ->
  is_child ref = true ->
  exists xs z n,
    siblings data ref = OK (JList xs) /\ own_index ref = Some z /\
    py_index (length xs) z = Some n /\
    data' = put_siblings data ref (JList (delete n xs)).
Proof.
  unfold delete_node, is_child, siblings, put_siblings, sibling_path, own_index,
    put_items, put_lessons, put_categories.
  intros H Hk. destruct (kind ref); try discriminate Hk; res_inv H;
    match goal with
    | E : delitem_idx _ _ = OK _ |- _ => apply delitem_idx_inv in E as (xs & z & n & -> & Hi & Hn & ->)
    end;
    exists xs, z, n; cbn [get_path put_path];
    repeat (cbn [mbind res_bind];
            try match goal with E : _ = OK _ |- _ => rewrite E; clear E end);
    (split; [done|]); (split; [done|]); (split; [done|]);
    destruct (truthy _); cbn [mbind res_bind py_len] in H; by injection H as <- _.
Qed.

Lemma setitem_idx_inv o i v o' :
  setitem_idx o i v = OK o' ->
  exists xs z n, o = JList xs /\ i = Some z /\ py_index (length xs) z = Some n /\
                 o' = JList (<[n := v]> xs).
Proof.
  destruct o as [| | | | |xs|]; try discriminate. simpl.
  destruct i as [z|]; [|discriminate].
  destruct (py_index (length xs) z) as [n|] eqn:E; [|discriminate].
  intros [= <-]. by exists xs, z, n.
Qed.

Lemma swap_inv arr i j arr' :
  swap arr i j = OK arr' ->
  exists xs n m xi xj,
    arr = JList xs /\
    py_index (length xs) i = Some n /\ py_index (length xs) j = Some m /\
    xs !! n = Some xi /\ xs !! m = Some xj /\
    arr' = JList (<[m := xi]> (<[n := xj]> xs)).
Proof.
  unfold swap. intros H. res_inv H.
  apply setitem_idx_inv in E1 as (xs & z & n & -> & [= <-] & Hn & ->).
  apply setitem_idx_inv in H as (xs' & z' & m & [= <-] & [= <-] & Hm & ->).
  rewrite length_insert in Hm.
  apply getitem_idx_list_inv in E as (z1 & m1 & [= <-] & Hm1 & Hxj).
  apply getitem_idx_list_inv in E0 as (z2 & n2 & [= <-] & Hn2 & Hxi).
  rewrite Hm in Hm1. injection Hm1 as <-. rewrite Hn in Hn2. injection Hn2 as <-.
  by exists xs, n, m, a0, a.
Qed.

Lemma move_in_inv arr idx direction arr' j :
  move_in arr idx direction = OK (Some (arr', j)) ->
  j = or0 idx + direction /\ swap arr (or0 idx) j = OK arr'.
Proof.
  unfold move_in. destruct (0 <=? or0 idx + direction); [|discriminate].
  intros H. res_inv H. destruct (_ <? _); [|discriminate]. res_inv H.
  by injection H as <- <-.
Qed.

Lemma move_node_inv data ref direction data' r :
  move_node data ref direction = OK (data', r) ->
  (data' = data /\ r = ref) \/
  (is_child ref = true /\
   exists xs n m xi xj,
     let j := or0 (own_index ref) + direction in
     siblings data ref = OK (JList xs) /\
     py_index (length xs) (or0 (own_index ref)) = Some n /\
     py_index (length xs) j = Some m /\
     xs !! n = Some xi /\ xs !! m = Some xj /\
     data' = put_siblings data ref (JList (<[m := xi]> (<[n := xj]> xs))) /\
     r = with_index ref j).
Proof.
  unfold move_node, is_child, siblings, put_siblings, sibling_path, own_index, with_index,
    put_items, put_lessons, put_categories.
  intros H. destruct (kind ref); try (left; by injection H as <- <-); res_inv H;
    match goal with
    | E : move_in _ _ _ = OK ?m |- _ => destruct m as [[arr' j]|]
    end;
    try (left; by injection H as <- <-);
    right; (split; [done|]);
    match goal with
    | E : move_in _ _ _ = OK _ |- _ =>
        apply move_in_inv in E as [-> (xs & n & m & xi & xj & -> & Hn & Hm & Hxi & Hxj & ->)%swap_inv]
    end;
    exists xs, n, m, xi, xj; cbn [get_path put_path];
    repeat (cbn [mbind res_bind];
            try match goal with E : _ = OK _ |- _ => rewrite E; clear E end);
    by injection H as <- <-.
Qed.

(** ** Moving there and back *)

Lemma swap_back (xs : list json) (i j : nat) xi xj :
  xs !! i = Some xi -> xs !! j = Some xj ->
  <[i := xi]> (<[j := xj]> (<[j := xi]> (<[i := xj]> xs))) = xs.
Proof.
  intros Hi Hj. apply list_eq. intros k.
  pose proof (lookup_lt_Some _ _ _ Hi). pose proof (lookup_lt_Some _ _ _ Hj).
  destruct (decide (k = i)) as [->|Hki].
  { rewrite list_lookup_insert_eq by (rewrite !length_insert; lia). done. }
  rewrite list_lookup_insert_ne by done.
  destruct (decide (k = j)) as [->|Hkj].
  { rewrite list_lookup_insert_eq by (rewrite !length_insert; lia). done. }
  by rewrite !list_lookup_insert_ne by done.
Qed.

Lemma valid_child_with_index data ref xs xs' (j : nat) :
  is_child ref = true ->
  siblings data ref = OK xs ->
  (j < length xs')%nat ->
  valid_child (put_siblings data ref (JList xs')) (with_index ref (Z.of_nat j)) xs' j.
Proof.
  intros Hk Hs Hj. unfold valid_child.
  assert (siblings (put_siblings data ref (JList xs')) (with_index ref (Z.of_nat j))
          = siblings (put_siblings data ref (JList xs')) ref) as ->
    by (by destruct ref as [[] ? ? ?]).
  split; [by destruct ref as [[] ? ? ?]|].
  split; [by eapply siblings_put|].
  split; [by destruct ref as [[] ? ? ?]|done].
Qed.

(** X2. Moving back undoes a move.  For a valid category, lesson or item
    reference at position [i] and a direction whose target
    [j = i + direction] is within bounds, [move_node] returns the reference
    with index [j]; moving that reference by [- direction] in the document it
    produced gives back the document as it was, and the reference with index
    [i]. *)
Theorem move_node_back_restores (data : json) (ref : NodeRef) (xs : list json)
    (i : nat) (direction : Z) :
  valid_child data ref xs i ->
  let j := Z.of_nat i + direction in
  0 <= j < Z.of_nat (length xs) ->
  exists data1,
    move_node data ref direction = OK (data1, with_index ref j) /\
    move_node data1 (with_index ref j) (- direction)
    = OK (data, with_index ref (Z.of_nat i)).
Proof.
  intros Hv j Hj. pose proof Hv as (Hk & Hs & Ho & Hlt).
  destruct (lookup_lt_is_Some_2 xs i Hlt) as [xi Hxi].
  destruct (lookup_lt_is_Some_2 xs (Z.to_nat j) ltac:(lia)) as [xj Hxj].
  set (xs1 := <[Z.to_nat j := xi]> (<[i := xj]> xs)).
  assert (Hlen1 : length xs1 = length xs) by (subst xs1; by rewrite !length_insert).
  exists (put_siblings data ref (JList xs1)). split.
  - rewrite (move_node_child _ _ _ _ _ Hv), (move_in_list xs i direction Hlt). fold j.
    rewrite (proj2 (Z.leb_le _ _)), (proj2 (Z.ltb_lt _ _)) by lia. cbn [andb].
    by rewrite Hxi, Hxj.
  - assert (Hv1 : valid_child (put_siblings data ref (JList xs1))
                    (with_index ref (Z.of_nat (Z.to_nat j))) xs1 (Z.to_nat j))
      by (eapply valid_child_with_index; [done|done|lia]).
    rewrite Z2Nat.id in Hv1 by lia.
    rewrite (move_node_child _ _ _ _ _ Hv1).
    rewrite (move_in_list xs1 (Z.to_nat j) (- direction)) by lia.
    rewrite Z2Nat.id by lia.
    replace (j + - direction) with (Z.of_nat i) by lia.
    rewrite (proj2 (Z.leb_le _ _)), (proj2 (Z.ltb_lt _ _)) by lia. cbn [andb].
    rewrite Nat2Z.id.
    assert (H1 : xs1 !! Z.to_nat j = Some xi).
    { subst xs1. apply list_lookup_insert_eq. rewrite length_insert. lia. }
    assert (H2 : xs1 !! i = Some xj).
    { subst xs1. destruct (decide (i = Z.to_nat j)) as [Heq|Hne].
      - rewrite <- Heq in *. rewrite list_lookup_insert_eq by (rewrite length_insert; lia).
        congruence.
      - rewrite list_lookup_insert_ne by done. by apply list_lookup_insert_eq. }
    rewrite H1, H2. cbn [mbind res_bind].
    assert (put_siblings (put_siblings data ref (JList xs1)) (with_index ref j)
              (JList (<[i := xi]> (<[Z.to_nat j := xj]> xs1)))
            = data) as ->.
    { assert (forall d v, put_siblings d (with_index ref j) v = put_siblings d ref v) as ->
        by (intros; by destruct ref as [[] ? ? ?]).
      rewrite put_siblings_put. subst xs1. rewrite (swap_back xs i (Z.to_nat j) xi xj) by done.
      by apply put_siblings_same. }
    do 2 f_equal. by destruct ref as [[] ? ? ?].
Qed.

(** ** What a normalized node looks like *)

Lemma map_fixed {A} (f : A -> A) (xs : list A) :
  map f xs = xs <-> Forall (fun x => f x = x) xs.
Proof.
  induction xs as [|x xs IH]; simpl; [by split|]. split.
  - intros [= Hx Hxs]. constructor; [done|]. by apply IH.
  - intros [Hx Hxs]%Forall_cons. f_equal; [done|]. by apply IH.
Qed.

Lemma Forall_map_idem {A} (f : A -> A) (xs : list A) :
  (forall x, f (f x) = f x) -> Forall (fun x => f x = x) (map f xs).
Proof. intros Hf. induction xs; simpl; constructor; auto. Qed.

Lemma repair_children_fixed key f d xs :
  dict_get key d = Some (JList xs) -> Forall (fun x => f x = x) xs ->
  repair_children key f d = d.
Proof.
  intros Hget Hf. unfold repair_children, py_get. rewrite Hget.
  rewrite (proj2 (map_fixed f xs) Hf). by apply dict_set_same.
Qed.

Lemma repair_children_get key f d :
  dict_get key (repair_children key f d) = Some (JList (map f (children_list key d))).
Proof.
  pose proof (getitem_repair key f d) as H. simpl in H.
  destruct (dict_get key (repair_children key f d)); [by injection H as ->|done].
Qed.

Lemma item_ok_iff x :
  normalize_item x = x <->
  exists kvs, x = JDict kvs /\ has_key (str "ja") kvs /\ has_key (str "it") kvs /\
              has_key (str "image") kvs.
Proof.
  split.
  - intros H. unfold normalize_item in H.
    destruct x as [| | | | | |kvs]; try discriminate H. injection H as H.
    exists kvs. split; [done|]. rewrite <- H. repeat split; auto 6 with keys.
  - intros (kvs & -> & Hja & Hit & Him). unfold normalize_item.
    rewrite (setdefault_present (str "ja")) by done.
    rewrite (setdefault_present (str "it")) by done.
    by rewrite (setdefault_present (str "image")) by done.
Qed.

Lemma lesson_ok_iff x :
  normalize_lesson x = x <->
  exists kvs xs, x = JDict kvs /\ has_key (str "name") kvs /\ has_key (str "slug") kvs /\
                 dict_get (str "items") kvs = Some (JList xs) /\
                 Forall (fun y => normalize_item y = y) xs.
Proof.
  split.
  - intros H. rewrite normalize_lesson_eq in H.
    destruct x as [| | | | | |kvs]; try discriminate H. injection H as H.
    exists kvs, (map normalize_item
                   (children_list (str "items")
                      (setdefault (str "slug") empty_str
                         (setdefault (str "name") empty_str kvs)))).
    split; [done|]. rewrite <- H at 1 2 3.
    split; [apply repair_children_has_key; auto with keys|].
    split; [apply repair_children_has_key; auto with keys|].
    split; [apply repair_children_get|]. apply Forall_map_idem, normalize_item_idem.
  - intros (kvs & xs & -> & Hn & Hs & Hi & Hf). rewrite normalize_lesson_eq.
    rewrite (setdefault_present (str "name")) by done.
    rewrite (setdefault_present (str "slug")) by done.
    by rewrite (repair_children_fixed _ _ _ xs).
Qed.

Lemma category_ok_iff x :
  normalize_category x = x <->
  exists kvs xs, x = JDict kvs /\ has_key (str "name") kvs /\ has_key (str "slug") kvs /\
                 dict_get (str "lessons") kvs = Some (JList xs) /\
                 Forall (fun y => normalize_lesson y = y) xs.
Proof.
  split.
  - intros H. rewrite normalize_category_eq in H.
    destruct x as [| | | | | |kvs]; try discriminate H. injection H as H.
    exists kvs, (map normalize_lesson
                   (children_list (str "lessons")
                      (setdefault (str "slug") empty_str
                         (setdefault (str "name") empty_str kvs)))).
    split; [done|]. rewrite <- H at 1 2 3.
    split; [apply repair_children_has_key; auto with keys|].
    split; [apply repair_children_has_key; auto with keys|].
    split; [apply repair_children_get|]. apply Forall_map_idem, normalize_lesson_idem.
  - intros (kvs & xs & -> & Hn & Hs & Hi & Hf). rewrite normalize_category_eq.
    rewrite (setdefault_present (str "name")) by done.
    rewrite (setdefault_present (str "slug")) by done.
    by rewrite (repair_children_fixed _ _ _ xs).
Qed.

Lemma ensure_course_fixed d :
  isinstance_dict (py_get d (str "course")) = true -> ensure_course d = d.
Proof. intros H. unfold ensure_course. by rewrite H. Qed.

Lemma normalized_iff d :
  normalized d <->
  exists kvs xs, d = JDict kvs /\ isinstance_dict (py_get kvs (str "course")) = true /\
                 dict_get (str "categories") kvs = Some (JList xs) /\
                 Forall (fun y => normalize_category y = y) xs.
Proof.
  unfold normalized. split.
  - intros H. rewrite normalize_structure_eq in H.
    destruct d as [| | | | | |kvs]; try discriminate H. injection H as H.
    exists kvs, (map normalize_category
                   (children_list (str "categories") (ensure_course kvs))).
    split; [done|]. rewrite <- H at 1 2.
    split; [|split; [apply repair_children_get|
                     apply Forall_map_idem, normalize_category_idem]].
    rewrite py_get_repair_ne by key_ne. apply ensure_course_is_dict.
  - intros (kvs & xs & -> & Hc & Hg & Hf). rewrite normalize_structure_eq.
    rewrite ensure_course_fixed by done.
    by rewrite (repair_children_fixed _ _ _ xs).
Qed.

(** ** Stores that keep a node normalized *)

Lemma keeps_list_nil (P : json -> Prop) xs' : Forall P xs' -> keeps_list P [] (JList xs').
Proof. intros H xs _. by exists xs'. Qed.

Lemma keeps_list_idx (P : json -> Prop) i p v :
  (forall x, P x -> P (put_path x p v)) -> keeps_list P (Idx i :: p) v.
Proof.
  intros Hp xs Hf. cbn [put_path].
  destruct (getitem_idx (JList xs) i) as [c|] eqn:E; [|by exists xs].
  apply getitem_idx_list_inv in E as (z & n & -> & Hn & Hc). simpl. rewrite Hn.
  eexists. split; [done|]. apply Forall_insert; [done|].
  apply Hp. by eapply Forall_lookup_1.
Qed.

Lemma lesson_ok_put p v x :
  keeps_list (fun y => normalize_item y = y) p v ->
  normalize_lesson x = x ->
  normalize_lesson (put_path x (Key (str "items") :: p) v)
  = put_path x (Key (str "items") :: p) v.
Proof.
  intros Hk (kvs & xs & -> & Hn & Hs & Hi & Hf)%lesson_ok_iff.
  cbn [put_path getitem_key]. rewrite Hi. destruct (Hk xs Hf) as (xs' & -> & Hf').
  apply lesson_ok_iff. exists (dict_set (str "items") (JList xs') kvs), xs'.
  split; [done|]. split; [auto with keys|]. split; [auto with keys|].
  split; [apply dict_get_set_eq|done].
Qed.

Lemma category_ok_put p v x :
  keeps_list (fun y => normalize_lesson y = y) p v ->
  normalize_category x = x ->
  normalize_category (put_path x (Key (str "lessons") :: p) v)
  = put_path x (Key (str "lessons") :: p) v.
Proof.
  intros Hk (kvs & xs & -> & Hn & Hs & Hi & Hf)%category_ok_iff.
  cbn [put_path getitem_key]. rewrite Hi. destruct (Hk xs Hf) as (xs' & -> & Hf').
  apply category_ok_iff. exists (dict_set (str "lessons") (JList xs') kvs), xs'.
  split; [done|]. split; [auto with keys|]. split; [auto with keys|].
  split; [apply dict_get_set_eq|done].
Qed.

Lemma normalized_put p v d :
  keeps_list (fun y => normalize_category y = y) p v ->
  normalized d ->
  normalized (put_path d (Key (str "categories") :: p) v).
Proof.
  intros Hk (kvs & xs & -> & Hc & Hi & Hf)%normalized_iff.
  cbn [put_path getitem_key]. rewrite Hi. destruct (Hk xs Hf) as (xs' & -> & Hf').
  apply normalized_iff. exists (dict_set (str "categories") (JList xs') kvs), xs'.
  split; [done|]. split; [|split; [apply dict_get_set_eq|done]].
  unfold py_get in *. by rewrite dict_get_set_ne by key_ne.
Qed.

(** Replacing the child sequence a reference points into by normalized
    nodes of that level keeps the document normalized. *)
Lemma put_siblings_normalized data ref xs' :
  normalized data -> is_child ref = true ->
  Forall (level_ok (kind ref)) xs' ->
  normalized (put_siblings data ref (JList xs')).
Proof.
  intros Hn Hk Hf. unfold put_siblings, sibling_path, is_child in *.
  destruct (kind ref); try discriminate Hk; cbn [level_ok] in Hf.
  - apply normalized_put; [|done]. by apply keeps_list_nil.
  - apply normalized_put; [|done]. apply keeps_list_idx. intros x.
    apply category_ok_put. by apply keeps_list_nil.
  - apply normalized_put; [|done]. apply keeps_list_idx. intros x.
    apply category_ok_put. apply keeps_list_idx. intros y.
    apply lesson_ok_put. by apply keeps_list_nil.
Qed.

(** Replacing the node a reference resolves to by a normalized node of that
    level keeps the document normalized. *)
Lemma put_node_path_normalized data ref node' :
  normalized data -> is_child ref = true ->
  level_ok (kind ref) node' ->
  normalized (put_path data (node_path ref) node').
Proof.
  intros Hn Hk Hf. unfold node_path, sibling_path, own_index, is_child in *.
  destruct (kind ref); try discriminate Hk; cbn [level_ok Datatypes.app] in *.
  - apply normalized_put; [|done]. apply keeps_list_idx. by intros x _.
  - apply normalized_put; [|done]. apply keeps_list_idx. intros x.
    apply category_ok_put. apply keeps_list_idx. by intros y _.
  - apply normalized_put; [|done]. apply keeps_list_idx. intros x.
    apply category_ok_put. apply keeps_list_idx. intros y.
    apply lesson_ok_put. apply keeps_list_idx. by intros z _.
Qed.

(** ** What is read from a normalized document *)

Lemma Forall_getitem_idx (P : json -> Prop) xs i x :
  Forall P xs -> getitem_idx (JList xs) i = OK x -> P x.
Proof.
  intros Hf (z & n & -> & Hn & Hx)%getitem_idx_list_inv. by eapply Forall_lookup_1.
Qed.

Lemma normalized_categories data v :
  normalized data -> getitem_key data (str "categories") = OK v ->
  exists xs, v = JList xs /\ Forall (fun y => normalize_category y = y) xs.
Proof.
  intros (kvs & xs & -> & _ & Hi & Hf)%normalized_iff. simpl. rewrite Hi.
  intros [= <-]. eauto.
Qed.

Lemma category_ok_lessons c v :
  normalize_category c = c -> getitem_key c (str "lessons") = OK v ->
  exists xs, v = JList xs /\ Forall (fun y => normalize_lesson y = y) xs.
Proof.
  intros (kvs & xs & -> & _ & _ & Hi & Hf)%category_ok_iff. simpl. rewrite Hi.
  intros [= <-]. eauto.
Qed.

Lemma lesson_ok_items l v :
  normalize_lesson l = l -> getitem_key l (str "items") = OK v ->
  exists xs, v = JList xs /\ Forall (fun y => normalize_item y = y) xs.
Proof.
  intros (kvs & xs & -> & _ & _ & Hi & Hf)%lesson_ok_iff. simpl. rewrite Hi.
  intros [= <-]. eauto.
Qed.

(** The child sequences of a normalized document are lists of normalized
    nodes. *)
Lemma siblings_normalized data ref v :
  normalized data -> is_child ref = true -> siblings data ref = OK v ->
  exists xs, v = JList xs /\ Forall (level_ok (kind ref)) xs.
Proof.
  intros Hn Hk H. unfold siblings, sibling_path, is_child in *.
  destruct (kind ref); try discriminate Hk; cbn [get_path level_ok] in *; res_inv H.
  - injection H as <-. by eapply normalized_categories.
  - injection H as <-.
    destruct (normalized_categories _ _ Hn E) as (cs & -> & Hcs).
    eapply category_ok_lessons; [|done]. exact (Forall_getitem_idx _ _ _ _ Hcs E0).
  - injection H as <-.
    destruct (normalized_categories _ _ Hn E) as (cs & -> & Hcs).
    pose proof (Forall_getitem_idx _ _ _ _ Hcs E0) as Hc.
    destruct (category_ok_lessons _ _ Hc E1) as (ls & -> & Hls).
    eapply lesson_ok_items; [|done]. exact (Forall_getitem_idx _ _ _ _ Hls E2).
Qed.

Lemma get_node_normalized data ref node :
  normalized data -> is_child ref = true -> get_node data ref = OK node ->
  level_ok (kind ref) node.
Proof.
  intros Hn Hk H. rewrite get_node_child in H by done.
  destruct (siblings data ref) as [v|] eqn:E; [|done]. cbn [mbind res_bind] in H.
  destruct (siblings_normalized _ _ _ Hn Hk E) as (xs & -> & Hf).
  exact (Forall_getitem_idx _ _ _ _ Hf H).
Qed.

Lemma new_category_ok name slug : normalize_category (new_category name slug) = new_category name slug.
Proof. reflexivity. Qed.

Lemma new_lesson_ok name slug : normalize_lesson (new_lesson name slug) = new_lesson name slug.
Proof. reflexivity. Qed.

Lemma new_item_ok ja it img :
  normalize_item (JDict [(str "ja", JStr ja); (str "it", JStr it); (str "image", JStr img)])
  = JDict [(str "ja", JStr ja); (str "it", JStr it); (str "image", JStr img)].
Proof. reflexivity. Qed.

(** ** Field edits *)

Lemma setitem_key_inv o k v o' :
  setitem_key o k v = OK o' -> exists kvs, o = JDict kvs /\ o' = JDict (dict_set k v kvs).
Proof. destruct o; try discriminate. intros [= <-]. eauto. Qed.

Lemma set_or_pop_inv o k text o' :
  set_or_pop o k text = OK o' ->
  exists kvs, o = JDict kvs /\
    o' = JDict (match text with [] => dict_pop k kvs | _ => dict_set k (JStr text) kvs end).
Proof.
  unfold set_or_pop. destruct text.
  - destruct o; try discriminate. intros [= <-]. eauto.
  - intros (kvs & -> & ->)%setitem_key_inv. eauto.
Qed.

(** [put_node] after a successful [get_node] stores along the path
    [get_node] read. *)
Lemma put_node_path data ref node node' :
  get_node data ref = OK node ->
  put_node data ref node' = OK (put_path data (node_path ref) node').
Proof.
  unfold get_node, put_node, node_path, sibling_path, own_index,
    put_items, put_lessons, put_categories.
  intros H. destruct (kind ref); try discriminate H; cbn [Datatypes.app put_path]; res_inv H;
    repeat (cbn [mbind res_bind];
            try match goal with E : _ = OK _ |- _ => rewrite E; clear E end);
    done.
Qed.

Lemma apply_form_inv data ref f data' :
  _apply_form_to_model data ref f = OK data' ->
  exists kvs,
    get_node data ref = OK (JDict kvs) /\
    data' = put_path data (node_path ref) (JDict (edited (kind ref) f kvs)).
Proof.
  unfold _apply_form_to_model. intros H.
  destruct (get_node data ref) as [node|] eqn:Eg; [|discriminate H].
  cbn [mbind res_bind] in H.
  assert (Hk : kind ref <> OtherKind).
  { intros Hk. unfold get_node in Eg. by rewrite Hk in Eg. }
  unfold edited, form_fields, form_text.
  destruct (kind ref) eqn:Ek; try done; res_inv H.
  - apply setitem_key_inv in E as (kvs & -> & ->).
    apply setitem_key_inv in E0 as (? & [= <-] & ->).
    apply set_or_pop_inv in E1 as (? & [= <-] & ->).
    exists kvs. split; [done|].
    rewrite (put_node_path _ _ _ _ Eg) in H. by injection H as <-.
  - apply setitem_key_inv in E as (kvs & -> & ->).
    apply setitem_key_inv in E0 as (? & [= <-] & ->).
    apply set_or_pop_inv in E1 as (? & [= <-] & ->).
    exists kvs. split; [done|].
    rewrite (put_node_path _ _ _ _ Eg) in H. by injection H as <-.
  - apply setitem_key_inv in E as (kvs & -> & ->).
    apply setitem_key_inv in E0 as (? & [= <-] & ->).
    apply set_or_pop_inv in E1 as (? & [= <-] & ->).
    exists kvs. split; [done|].
    rewrite (put_node_path _ _ _ _ Eg) in H. by injection H as <-.
  - apply setitem_key_inv in E as (kvs & -> & ->).
    apply setitem_key_inv in E0 as (? & [= <-] & ->).
    apply setitem_key_inv in E1 as (? & [= <-] & ->).
    exists kvs. split; [done|].
    rewrite (put_node_path _ _ _ _ Eg) in H. by injection H as <-.
Qed.

(** ** Operations keep the document normalized *)

Lemma edited_ok k f kvs :
  is_child (mkRef k None None None) = true ->
  level_ok k (JDict kvs) -> level_ok k (JDict (edited k f kvs)).
Proof.
  intros Hk H. unfold edited, form_fields, form_text.
  destruct k; try discriminate Hk; cbn [level_ok fold_left] in *.
  - apply category_ok_iff in H as (? & xs & [= <-] & Hn & Hs & Hl & Hf).
    apply category_ok_iff. eexists _, xs. split; [done|].
    destruct (strip (_get_text_widget (cl_notes_text f))).
    + split; [apply has_key_pop; [key_ne|auto with keys]|].
      split; [apply has_key_pop; [key_ne|auto with keys]|].
      split; [|done]. rewrite dict_get_pop_ne by key_ne.
      by rewrite !dict_get_set_ne by key_ne.
    + split; [auto with keys|]. split; [auto with keys|].
      split; [|done]. by rewrite !dict_get_set_ne by key_ne.
  - apply lesson_ok_iff in H as (? & xs & [= <-] & Hn & Hs & Hl & Hf).
    apply lesson_ok_iff. eexists _, xs. split; [done|].
    destruct (strip (_get_text_widget (cl_notes_text f))).
    + split; [apply has_key_pop; [key_ne|auto with keys]|].
      split; [apply has_key_pop; [key_ne|auto with keys]|].
      split; [|done]. rewrite dict_get_pop_ne by key_ne.
      by rewrite !dict_get_set_ne by key_ne.
    + split; [auto with keys|]. split; [auto with keys|].
      split; [|done]. by rewrite !dict_get_set_ne by key_ne.
  - apply item_ok_iff. eexists. split; [done|]. repeat split; auto with keys.
Qed.

Lemma normalized_put_course data kvs :
  normalized data -> normalized (put_path data [Key (str "course")] (JDict kvs)).
Proof.
  intros (dkvs & xs & -> & Hc & Hi & Hf)%normalized_iff.
  cbn [put_path getitem_key]. destruct (dict_get (str "course") dkvs); [|by apply normalized_iff; eauto 10].
  cbn [store_key]. apply normalized_iff.
  exists (dict_set (str "course") (JDict kvs) dkvs), xs.
  split; [done|]. split; [by rewrite py_get_set_eq|].
  split; [|done]. by rewrite dict_get_set_ne by key_ne.
Qed.

Lemma apply_form_normalized data ref f data' :
  normalized data -> _apply_form_to_model data ref f = OK data' -> normalized data'.
Proof.
  intros Hn (kvs & Hg & ->)%apply_form_inv.
  destruct (kind ref) eqn:Ek.
  - unfold node_path. rewrite Ek. by apply normalized_put_course.
  - apply put_node_path_normalized; [done|by unfold is_child; rewrite Ek|].
    rewrite Ek. apply edited_ok; [done|]. rewrite <- Ek.
    eapply get_node_normalized; [done|by unfold is_child; rewrite Ek|done].
  - apply put_node_path_normalized; [done|by unfold is_child; rewrite Ek|].
    rewrite Ek. apply edited_ok; [done|]. rewrite <- Ek.
    eapply get_node_normalized; [done|by unfold is_child; rewrite Ek|done].
  - apply put_node_path_normalized; [done|by unfold is_child; rewrite Ek|].
    rewrite Ek. apply edited_ok; [done|]. rewrite <- Ek.
    eapply get_node_normalized; [done|by unfold is_child; rewrite Ek|done].
  - unfold get_node in Hg. by rewrite Ek in Hg.
Qed.

Lemma add_category_normalized data name slug data' r :
  normalized data -> add_category data name slug = OK (data', r) -> normalized data'.
Proof.
  intros Hn (xs & Hs & -> & _)%add_category_inv.
  destruct (siblings_normalized _ (mkRef Category None None None) _ Hn eq_refl Hs)
    as (? & [= <-] & Hf).
  apply put_siblings_normalized; [done|done|].
  apply Forall_app. split; [done|]. apply Forall_singleton, new_category_ok.
Qed.

Lemma add_lesson_normalized data ci name slug data' r :
  normalized data -> add_lesson data ci name slug = OK (data', r) -> normalized data'.
Proof.
  intros Hn (xs & Hs & -> & _)%add_lesson_inv.
  destruct (siblings_normalized _ (mkRef Lesson ci None None) _ Hn eq_refl Hs)
    as (? & [= <-] & Hf).
  apply put_siblings_normalized; [done|done|].
  apply Forall_app. split; [done|]. apply Forall_singleton, new_lesson_ok.
Qed.

Lemma add_item_normalized data ci li ja it image data' r :
  normalized data -> add_item data ci li ja it image = OK (data', r) -> normalized data'.
Proof.
  intros Hn (xs & img & Hs & -> & _)%add_item_inv.
  destruct (siblings_normalized _ (mkRef Item ci li None) _ Hn eq_refl Hs)
    as (? & [= <-] & Hf).
  apply put_siblings_normalized; [done|done|].
  apply Forall_app. split; [done|]. apply Forall_singleton, new_item_ok.
Qed.

Lemma delete_node_normalized data ref data' r :
  normalized data -> delete_node data ref = OK (data', r) -> normalized data'.
Proof.
  intros Hn H. destruct (is_child ref) eqn:Hk.
  - apply delete_node_inv in H as (xs & z & n & Hs & _ & _ & ->); [|done].
    destruct (siblings_normalized _ _ _ Hn Hk Hs) as (? & [= <-] & Hf).
    apply put_siblings_normalized; [done|done|]. by apply Forall_delete.
  - unfold delete_node, is_child in *.
    destruct (kind ref); try discriminate Hk; by injection H as <- _.
Qed.

Lemma move_node_normalized data ref direction data' r :
  normalized data -> move_node data ref direction = OK (data', r) -> normalized data'.
Proof.
  intros Hn [[-> _]|(Hk & xs & n & m & xi & xj & Hs & _ & _ & Hxi & Hxj & -> & _)]%move_node_inv;
    [done|].
  destruct (siblings_normalized _ _ _ Hn Hk Hs) as (? & [= <-] & Hf).
  apply put_siblings_normalized; [done|done|].
  apply Forall_insert; [apply Forall_insert; [done|]|]; by eapply Forall_lookup_1.
Qed.

(** X3. The operations of [CourseModel] and the form edit keep a
    normalized document normalized.  Whatever the reference is (valid, stale,
    with a negative index, of an unknown kind): if [add_category],
    [add_lesson], [add_item], [delete_node], [move_node] or
    [_apply_form_to_model] returns, the document it leaves is one that
    [_normalize_structure] would not change.  The normalization pass of
    [_touch_model] therefore leaves a normalized document as it is. *)
Theorem operations_keep_normalized (data : json) :
  normalized data ->
  (forall name slug data' r,
     add_category data name slug = OK (data', r) -> normalized data') /\
  (forall ci name slug data' r,
     add_lesson data ci name slug = OK (data', r) -> normalized data') /\
  (forall ci li ja it image data' r,
     add_item data ci li ja it image = OK (data', r) -> normalized data') /\
  (forall ref data' r, delete_node data ref = OK (data', r) -> normalized data') /\
  (forall ref direction data' r,
     move_node data ref direction = OK (data', r) -> normalized data') /\
  (forall ref f data', _apply_form_to_model data ref f = OK data' -> normalized data') /\
  (forall structural a,
     model_data a = data -> model_data (_touch_model structural a) = data).
Proof.
  intros Hn. repeat split.
  - intros *. by apply add_category_normalized.
  - intros *. by apply add_lesson_normalized.
  - intros *. by apply add_item_normalized.
  - intros *. by apply delete_node_normalized.
  - intros *. by apply move_node_normalized.
  - intros *. by apply apply_form_normalized.
  - intros structural a <-. by destruct structural.
Qed.

(** ** What a field edit stores *)

Lemma on_lists_snoc p i : forall o c,
  get_path o p = OK c -> on_lists o p -> isinstance_list c = true ->
  on_lists o (p ++ [Idx i]).
Proof.
  induction p as [|[k|j] p IH]; intros o c Hg Hl Hc; cbn [get_path on_lists Datatypes.app] in *.
  - injection Hg as ->. split; [done|]. by destruct (getitem_idx _ _).
  - res_inv Hg. by eapply IH.
  - destruct Hl as [Hlist Hl]. res_inv Hg. split; [done|]. by eapply IH.
Qed.

Lemma node_path_on_lists data ref kvs :
  get_node data ref = OK (JDict kvs) -> on_lists data (node_path ref).
Proof.
  intros H. destruct (is_child ref) eqn:Hk.
  - rewrite get_node_child in H by done.
    destruct (siblings data ref) as [xs|] eqn:Es; [|done]. cbn [mbind res_bind] in H.
    assert (node_path ref = sibling_path ref ++ [Idx (own_index ref)]) as ->.
    { unfold node_path, is_child in *. by destruct (kind ref). }
    eapply on_lists_snoc; [exact Es|by eapply sibling_path_on_lists|].
    destruct xs; try done. simpl in H. destruct (own_index ref); [|done].
    repeat case_match; done.
  - unfold node_path, is_child, get_node in *.
    destruct (kind ref); try discriminate Hk; [|done].
    simpl. by destruct (getitem_key _ _).
Qed.

Lemma get_node_put data ref kvs v :
  get_node data ref = OK (JDict kvs) ->
  get_node (put_path data (node_path ref) v) ref = OK v.
Proof.
  intros H.
  assert (Hk : kind ref <> OtherKind).
  { intros Hk. unfold get_node in H. by rewrite Hk in H. }
  rewrite get_node_path in * by done.
  eapply get_put_path; [done|]. eapply node_path_on_lists. by rewrite get_node_path.
Qed.

Lemma dict_get_pop_eq k d : NoDup d.*1 -> dict_get k (dict_pop k d) = None.
Proof.
  induction d as [|[k' v'] d IH]; simpl; [done|].
  intros [Hnin Hnd]%NoDup_cons.
  destruct (decide (k' = k)) as [->|Hne]; simpl.
  - clear IH Hnd. induction d as [|[k0 v0] d IH]; simpl; [done|].
    simpl in Hnin. apply not_elem_of_cons in Hnin as [Hne Hnin].
    rewrite decide_False by done. auto.
  - rewrite decide_False by done. auto.
Qed.

Lemma dict_set_keys k v d k0 : k0 ∈ (dict_set k v d).*1 -> k0 = k \/ k0 ∈ d.*1.
Proof.
  induction d as [|[k' v'] d IH]; simpl.
  - intros ->%list_elem_of_singleton. by left.
  - destruct (decide (k' = k)) as [->|Hne]; simpl.
    + intros [->|H]%elem_of_cons; [by left|]. right. apply elem_of_cons. by right.
    + intros [->|H]%elem_of_cons; [right; apply elem_of_cons; by left|].
      destruct (IH H) as [->|H']; [by left|]. right. apply elem_of_cons. by right.
Qed.

Lemma dict_set_keys_nodup k v d : NoDup d.*1 -> NoDup (dict_set k v d).*1.
Proof.
  induction d as [|[k' v'] d IH]; simpl; intros Hnd.
  - apply NoDup_singleton.
  - apply NoDup_cons in Hnd as [Hnin Hnd].
    destruct (decide (k' = k)) as [->|Hne]; simpl.
    + by apply NoDup_cons.
    + apply NoDup_cons. split; [|auto].
      intros [->|Hin]%dict_set_keys; done.
Qed.

(** X4. What a field edit stores.  When [_apply_form_to_model] returns,
    the selected node was an object, the document differs only in that node,
    and [get_node] on the same reference gives the edited node.  In it the
    two string fields of the form are stored stripped; the text field
    (description or notes) is stored stripped when it is not blank and
    removed when it is (an object has each key once); an item's image is the
    stripped field, the placeholder when that is blank, never empty; and
    every other key of the node -- its children among them -- is as it was.
    An unknown kind never gets this far. *)
Theorem form_edit_stores_fields (data : json) (ref : NodeRef) (f : Form) (data' : json) :
  _apply_form_to_model data ref f = OK data' ->
  exists kvs kvs',
    get_node data ref = OK (JDict kvs) /\
    data' = put_path data (node_path ref) (JDict kvs') /\
    get_node data' ref = OK (JDict kvs') /\
    match kind ref with
    | Course =>
        let desc := strip (_get_text_widget (course_desc_text f)) in
        dict_get (str "title") kvs' = Some (JStr (strip (course_title_var f))) /\
        dict_get (str "slug") kvs' = Some (JStr (strip (course_slug_var f))) /\
        (desc <> [] -> dict_get (str "description") kvs' = Some (JStr desc)) /\
        (desc = [] -> NoDup kvs.*1 -> dict_get (str "description") kvs' = None) /\
        (forall key, key <> str "title" -> key <> str "slug" -> key <> str "description" ->
                     dict_get key kvs' = dict_get key kvs)
    | Category | Lesson =>
        let notes := strip (_get_text_widget (cl_notes_text f)) in
        dict_get (str "name") kvs' = Some (JStr (strip (cl_name_var f))) /\
        dict_get (str "slug") kvs' = Some (JStr (strip (cl_slug_var f))) /\
        (notes <> [] -> dict_get (str "notes") kvs' = Some (JStr notes)) /\
        (notes = [] -> NoDup kvs.*1 -> dict_get (str "notes") kvs' = None) /\
        (forall key, key <> str "name" -> key <> str "slug" -> key <> str "notes" ->
                     dict_get key kvs' = dict_get key kvs)
    | Item =>
        let img := strip (item_image_var f) in
        dict_get (str "ja") kvs' = Some (JStr (strip (item_ja_var f))) /\
        dict_get (str "it") kvs' = Some (JStr (strip (item_it_var f))) /\
        (img <> [] -> dict_get (str "image") kvs' = Some (JStr img)) /\
        (img = [] -> dict_get (str "image") kvs' = Some (JStr DEFAULT_ITEM_IMAGE)) /\
        (forall key, key <> str "ja" -> key <> str "it" -> key <> str "image" ->
                     dict_get key kvs' = dict_get key kvs)
    | OtherKind => False
    end.
Proof.
  intros (kvs & Hg & ->)%apply_form_inv.
  exists kvs, (edited (kind ref) f kvs).
  split; [done|]. split; [done|]. split; [by eapply get_node_put|].
  unfold edited, form_fields, form_text.
  destruct (kind ref) eqn:Ek; cbn [fold_left]; cbv zeta.
  - destruct (strip (_get_text_widget (course_desc_text f))) as [|c s] eqn:Ed.
    + split; [rewrite dict_get_pop_ne by key_ne; by rewrite dict_get_set_ne, dict_get_set_eq by key_ne|].
      split; [rewrite dict_get_pop_ne by key_ne; by rewrite dict_get_set_eq|].
      split; [done|].
      split; [intros _ Hnd; by apply dict_get_pop_eq, dict_set_keys_nodup, dict_set_keys_nodup|].
      intros key H1 H2 H3. rewrite dict_get_pop_ne by done.
      by rewrite !dict_get_set_ne by done.
    + split; [by rewrite !dict_get_set_ne, dict_get_set_eq by key_ne|].
      split; [by rewrite dict_get_set_ne, dict_get_set_eq by key_ne|].
      split; [intros _; by rewrite dict_get_set_eq|].
      split; [done|].
      intros key H1 H2 H3. by rewrite !dict_get_set_ne by done.
  - destruct (strip (_get_text_widget (cl_notes_text f))) as [|c s] eqn:Ed.
    + split; [rewrite dict_get_pop_ne by key_ne; by rewrite dict_get_set_ne, dict_get_set_eq by key_ne|].
      split; [rewrite dict_get_pop_ne by key_ne; by rewrite dict_get_set_eq|].
      split; [done|].
      split; [intros _ Hnd; by apply dict_get_pop_eq, dict_set_keys_nodup, dict_set_keys_nodup|].
      intros key H1 H2 H3. rewrite dict_get_pop_ne by done.
      by rewrite !dict_get_set_ne by done.
    + split; [by rewrite !dict_get_set_ne, dict_get_set_eq by key_ne|].
      split; [by rewrite dict_get_set_ne, dict_get_set_eq by key_ne|].
      split; [intros _; by rewrite dict_get_set_eq|].
      split; [done|].
      intros key H1 H2 H3. by rewrite !dict_get_set_ne by done.
  - destruct (strip (_get_text_widget (cl_notes_text f))) as [|c s] eqn:Ed.
    + split; [rewrite dict_get_pop_ne by key_ne; by rewrite dict_get_set_ne, dict_get_set_eq by key_ne|].
      split; [rewrite dict_get_pop_ne by key_ne; by rewrite dict_get_set_eq|].
      split; [done|].
      split; [intros _ Hnd; by apply dict_get_pop_eq, dict_set_keys_nodup, dict_set_keys_nodup|].
      intros key H1 H2 H3. rewrite dict_get_pop_ne by done.
      by rewrite !dict_get_set_ne by done.
    + split; [by rewrite !dict_get_set_ne, dict_get_set_eq by key_ne|].
      split; [by rewrite dict_get_set_ne, dict_get_set_eq by key_ne|].
      split; [intros _; by rewrite dict_get_set_eq|].
      split; [done|].
      intros key H1 H2 H3. by rewrite !dict_get_set_ne by done.
  - split; [by rewrite !dict_get_set_ne, dict_get_set_eq by key_ne|].
    split; [by rewrite dict_get_set_ne, dict_get_set_eq by key_ne|].
    rewrite dict_get_set_eq.
    split; [by destruct (strip (item_image_var f))|].
    split; [by intros ->|].
    intros key H1 H2 H3. by rewrite !dict_get_set_ne by done.
  - unfold get_node in Hg. by rewrite Ek in Hg.
Qed.

(** ** The redo stack *)

Lemma structural_command_redo op a : redo_stack (structural_command op a) = [].
Proof. unfold structural_command. by destruct (op _) as [[d' r]|]. Qed.

Lemma on_field_changed_redo ref f a :
  redo_stack (_on_field_changed ref f a)
  = if _edit_group_active a then redo_stack a else [].
Proof.
  unfold _on_field_changed.
  assert (Hp : redo_stack (_begin_coalesced_edit a)
               = if _edit_group_active a then redo_stack a else [])
    by (unfold _begin_coalesced_edit; by destruct (_edit_group_active a)).
  by destruct (_apply_form_to_model _ _ _).
Qed.

(** The events of the save controller leave the document and the history
    as they are. *)
Lemma handle_save_edit_fields e w :
  is_save_request e = true \/ is_save_done e = true ->
  edit_fields (app (handle e w)) = edit_fields (app w).
Proof.
  intros He. destruct e; try (by destruct He); simpl; unfold saving.
  - destruct (_autosave_fire (app w)) as [a' st] eqn:E. simpl.
    change a' with (a', st).1. rewrite <- E. unfold _autosave_fire.
    by rewrite start_save_async_edit_fields.
  - destruct (_save_now (app w)) as [a' st] eqn:E. simpl.
    change a' with (a', st).1. rewrite <- E. apply start_save_async_edit_fields.
  - destruct (workers w); [done|]. simpl.
    destruct (_on_save_done ok err (app w)) as [a' st] eqn:E. simpl.
    change a' with (a', st).1. rewrite <- E. apply on_save_done_edit_fields.
Qed.

(** One event that is not undo or redo: a push empties the redo stack,
    anything else leaves it alone. *)
Lemma redo_step e w :
  is_history_event e = false ->
  redo_stack (app (handle e w))
  = if pushes_snapshot e (app w) then [] else redo_stack (app w).
Proof.
  intros He. destruct e; try discriminate He.
  1-5: simpl.
  - apply structural_command_redo.
  - unfold _add_lesson. repeat case_match; first [apply structural_command_redo | done].
  - unfold _add_item. repeat case_match; first [apply structural_command_redo | done].
  - unfold _delete_selected.
    repeat case_match; first [apply structural_command_redo | done].
  - unfold _move_selected.
    repeat case_match; first [apply structural_command_redo | done].
  - simpl. rewrite on_field_changed_redo. by destruct (_edit_group_active (app w)).
  - done.
  - pose proof (handle_save_edit_fields AutosaveTimer w ltac:(by left)) as [= _ _ _ Hr _ _].
    exact Hr.
  - pose proof (handle_save_edit_fields SaveNow w ltac:(by left)) as [= _ _ _ Hr _ _].
    exact Hr.
  - pose proof (handle_save_edit_fields (SaveDone ok err) w ltac:(by right))
      as [= _ _ _ Hr _ _].
    exact Hr.
Qed.

Lemma do_redo_empty a : redo_stack a = [] -> _do_redo a = a.
Proof. intros H. unfold _do_redo. by rewrite H. Qed.

(** X5. A new edit drops the redo history.  For every event other than
    undo and redo: if its handler pushes a snapshot, the redo stack is empty
    afterwards and [redo()] does nothing; if it pushes none, the redo stack
    is as it was. *)
Theorem new_edit_drops_redo (e : event) (w : World) :
  is_history_event e = false ->
  (pushes_snapshot e (app w) = true ->
     redo_stack (app (handle e w)) = [] /\
     _do_redo (app (handle e w)) = app (handle e w)) /\
  (pushes_snapshot e (app w) = false ->
     redo_stack (app (handle e w)) = redo_stack (app w)).
Proof.
  intros He. pose proof (redo_step e w He) as H.
  split; intros Hp; rewrite Hp in H; [|done].
  split; [done|]. by apply do_redo_empty.
Qed.

(** ** Snapshots are normalized *)

Lemma capped_Forall (P : json -> Prop) limit st : Forall P st -> Forall P (capped limit st).
Proof. intros H. unfold capped. destruct (_ <? _); [by apply Forall_drop|done]. Qed.

Lemma handle_history_inv e w : history_inv (app w) -> history_inv (app (handle e w)).
Proof.
  intros (Hinv & Hu & Hr). split; [by apply handle_app_inv|].
  pose proof Hinv as (_ & _ & Hn).
  destruct (is_history_event e) eqn:He.
  - destruct e; try discriminate He; simpl.
    + unfold _do_undo. destruct (py_pop (undo_stack (app w))) as [[top rest]|] eqn:E; [|done].
      apply py_pop_inv in E. rewrite E in Hu. apply Forall_app in Hu as [Hu _]. simpl.
      split; [done|]. apply Forall_app. split; [done|]. by apply Forall_singleton.
    + unfold _do_redo. destruct (py_pop (redo_stack (app w))) as [[top rest]|] eqn:E; [|done].
      apply py_pop_inv in E. rewrite E in Hr. apply Forall_app in Hr as [Hr _]. simpl.
      split; [|done]. apply (capped_Forall normalized).
      apply Forall_app. split; [done|]. by apply Forall_singleton.
  - pose proof (edit_step e w He) as Hs. pose proof (redo_step e w He) as Hr'.
    cbv zeta in Hs. destruct (pushes_snapshot e (app w)).
    + rewrite Hs, Hr'. split; [|done]. apply capped_Forall.
      apply Forall_app. split; [done|]. by apply Forall_singleton.
    + destruct Hs as [-> _]. by rewrite Hr'.
Qed.

Lemma init_history_inv d0 : history_inv (init_app d0).
Proof. split; [apply init_app_inv|]. by split. Qed.

Lemma run_history_inv evs w : history_inv (app w) -> history_inv (app (run evs w)).
Proof.
  revert w. induction evs as [|e evs IH]; intros w H; [done|].
  simpl. by apply IH, handle_history_inv.
Qed.

(** ** Undo and redo undo each other *)

Lemma nonempty_snoc {A} (xs : list A) : xs <> [] -> exists st top, xs = st ++ [top].
Proof.
  destruct xs as [|x xs _] using rev_ind; [done|]. intros _. by exists xs, x.
Qed.

Lemma undo_then_redo a :
  history_inv a -> undo_stack a <> [] ->
  let b := _do_redo (_do_undo a) in
  model_data b = model_data a /\ undo_stack b = undo_stack a /\
  redo_stack b = redo_stack a /\ model_version b = model_version a + 2.
Proof.
  intros ((Hl & Hs & Hn) & Hu & Hr) (st & top & Hst)%nonempty_snoc. cbv zeta.
  rewrite Hst in Hu, Hs. apply Forall_app in Hu as [Hu Htop].
  rewrite Forall_singleton in Htop.
  unfold _do_undo. rewrite Hst, py_pop_snoc.
  unfold _do_redo. simpl. rewrite py_pop_snoc. simpl.
  rewrite Htop, Hn. rewrite Hl.
  rewrite (proj2 (Z.ltb_ge _ _)) by (rewrite Hl in Hs; rewrite !length_app in *; simpl in *; lia).
  repeat split. lia.
Qed.

Lemma redo_then_undo a :
  history_inv a -> redo_stack a <> [] ->
  let b := _do_undo (_do_redo a) in
  model_data b = model_data a /\ undo_stack b = undo_stack a /\
  redo_stack b = redo_stack a /\ model_version b = model_version a + 2.
Proof.
  intros ((Hl & Hs & Hn) & Hu & Hr) (st & top & Hst)%nonempty_snoc. cbv zeta.
  rewrite Hst in Hr, Hs. apply Forall_app in Hr as [Hr Htop].
  rewrite Forall_singleton in Htop.
  unfold _do_redo. rewrite Hst, py_pop_snoc. simpl. rewrite Hl.
  rewrite (proj2 (Z.ltb_ge _ _)) by (rewrite Hl in Hs; rewrite !length_app in *; simpl in *; lia).
  unfold _do_undo. simpl. rewrite py_pop_snoc. simpl.
  rewrite Htop, Hn. repeat split. lia.
Qed.

(** X6. Undo and redo are inverse to each other on the whole history.
    In every state the editor can reach: if there is something to undo,
    [undo()] followed by [redo()] gives back the document, the undo stack and
    the redo stack (the version is two higher); if there is something to
    redo, so does [redo()] followed by [undo()].  Every snapshot on either
    stack is a normalized document. *)
Theorem undo_redo_round_trip (d0 : json) (evs : list event) :
  let a := app (run evs (init_world d0)) in
  (undo_stack a <> [] ->
   let b := _do_redo (_do_undo a) in
   model_data b = model_data a /\ undo_stack b = undo_stack a /\
   redo_stack b = redo_stack a /\ model_version b = model_version a + 2) /\
  (redo_stack a <> [] ->
   let b := _do_undo (_do_redo a) in
   model_data b = model_data a /\ undo_stack b = undo_stack a /\
   redo_stack b = redo_stack a /\ model_version b = model_version a + 2) /\
  Forall normalized (undo_stack a) /\ Forall normalized (redo_stack a).
Proof.
  intros a.
  assert (Hinv : history_inv a) by apply run_history_inv, init_history_inv.
  split; [by apply undo_then_redo|]. split; [by apply redo_then_undo|].
  by destruct Hinv as (_ & ? & ?).
Qed.

(** ** A burst of field edits *)

Lemma on_field_changed_active ref f a :
  _edit_group_active (_on_field_changed ref f a) = true /\
  undo_limit (_on_field_changed ref f a) = undo_limit a.
Proof.
  unfold _on_field_changed.
  assert (Hp : _edit_group_active (_begin_coalesced_edit a) = true /\
               undo_limit (_begin_coalesced_edit a) = undo_limit a)
    by (unfold _begin_coalesced_edit; by destruct (_edit_group_active a) eqn:E).
  by destruct (_apply_form_to_model _ _ _).
Qed.

(** While an edit group is open, field edits and the save controller leave
    both stacks as they are and the group open. *)
Lemma burst_step e w :
  keeps_group e = true -> _edit_group_active (app w) = true ->
  undo_stack (app (handle e w)) = undo_stack (app w) /\
  redo_stack (app (handle e w)) = redo_stack (app w) /\
  _edit_group_active (app (handle e w)) = true.
Proof.
  intros He Hg. destruct e; try discriminate He.
  - simpl. rewrite on_field_changed_stack, on_field_changed_redo, Hg.
    by destruct (on_field_changed_active ref f (app w)).
  - pose proof (handle_save_edit_fields AutosaveTimer w ltac:(by left))
      as [= _ _ Hu Hr _ Ha].
    split; [exact Hu|]. split; [exact Hr|]. by rewrite <- Hg.
  - pose proof (handle_save_edit_fields SaveNow w ltac:(by left))
      as [= _ _ Hu Hr _ Ha].
    split; [exact Hu|]. split; [exact Hr|]. by rewrite <- Hg.
  - pose proof (handle_save_edit_fields (SaveDone ok err) w ltac:(by right))
      as [= _ _ Hu Hr _ Ha].
    split; [exact Hu|]. split; [exact Hr|]. by rewrite <- Hg.
Qed.

Lemma burst_run evs : forall w,
  Forall (fun e => keeps_group e = true) evs -> _edit_group_active (app w) = true ->
  undo_stack (app (run evs w)) = undo_stack (app w) /\
  redo_stack (app (run evs w)) = redo_stack (app w) /\
  _edit_group_active (app (run evs w)) = true.
Proof.
  induction evs as [|e evs IH]; intros w Hev Hg; [done|].
  apply Forall_cons in Hev as [He Hev]. rewrite run_cons.
  destruct (burst_step e w He Hg) as (Hu & Hr & Hg').
  destruct (IH (handle e w) Hev Hg') as (Hu' & Hr' & Hg'').
  by rewrite Hu', Hr', Hu, Hr.
Qed.

Lemma capped_last (st : list json) (x : json) :
  exists st', capped 100 (st ++ [x]) = st' ++ [x].
Proof.
  unfold capped. destruct (_ <? _) eqn:E; [|by exists st].
  destruct st as [|y st]; [done|]. by exists st.
Qed.

(** X7. A burst of field edits is one undo step.  From any reachable
    state with no edit group open, a field edit followed by any number of
    further field edits (of whatever node and with whatever form content),
    with autosaves, save requests and save completions in between, pushes
    exactly one snapshot, the document before the first edit; the redo stack
    is empty, the group still open, and one [undo()] restores the document
    from before the burst. *)
Theorem field_edit_burst_is_one_undo_step (d0 : json) (evs0 : list event)
    (ref : NodeRef) (f : Form) (evs : list event) :
  let w := run evs0 (init_world d0) in
  let w' := run (FieldChanged ref f :: evs) w in
  _edit_group_active (app w) = false ->
  Forall (fun e => keeps_group e = true) evs ->
  undo_stack (app w') = capped 100 (undo_stack (app w) ++ [model_data (app w)]) /\
  redo_stack (app w') = [] /\
  _edit_group_active (app w') = true /\
  model_data (_do_undo (app w')) = model_data (app w).
Proof.
  intros w w' Hg Hev. subst w'. rewrite run_cons.
  assert (Hinv : app_inv (app w)) by apply run_app_inv, init_app_inv.
  destruct Hinv as (Hl & _ & Hn).
  destruct (on_field_changed_active ref f (app w)) as [Hg' _].
  destruct (burst_run evs (handle (FieldChanged ref f) w) Hev Hg') as (Hu & Hr & Ha).
  rewrite Hu, Hr, Ha. simpl. rewrite on_field_changed_stack, on_field_changed_redo, Hg, Hl.
  repeat split.
  destruct (capped_last (undo_stack (app w)) (model_data (app w))) as [st' Hc].
  destruct (do_undo_pops (app (run evs (handle (FieldChanged ref f) w))) st'
              (model_data (app w))) as (_ & Hd & _); [|done|done].
  rewrite Hu. simpl. by rewrite on_field_changed_stack, Hg, Hl, Hc.
Qed.

(** ** The version counter *)

Lemma structural_command_version op a : same_or_bumped a (structural_command op a).
Proof.
  unfold structural_command, same_or_bumped.
  destruct (op _) as [[d' r]|]; [right|left]; done.
Qed.

Lemma on_field_changed_version ref f a : same_or_bumped a (_on_field_changed ref f a).
Proof.
  unfold _on_field_changed, same_or_bumped.
  assert (Hp : model_version (_begin_coalesced_edit a) = model_version a /\
               model_data (_begin_coalesced_edit a) = model_data a)
    by (unfold _begin_coalesced_edit; by destruct (_edit_group_active a)).
  destruct Hp as [Hv Hd]. remember (_begin_coalesced_edit a) as b eqn:Eb. clear Eb.
  destruct (_apply_form_to_model _ _ _); [right|left].
  - unfold _touch_model. simpl. by rewrite Hv.
  - done.
Qed.

Lemma version_step e w : same_or_bumped (app w) (app (handle e w)).
Proof.
  destruct e; simpl.
  - apply structural_command_version.
  - unfold _add_lesson.
    repeat case_match; first [apply structural_command_version | by left].
  - unfold _add_item.
    repeat case_match; first [apply structural_command_version | by left].
  - unfold _delete_selected.
    repeat case_match; first [apply structural_command_version | by left].
  - unfold _move_selected.
    repeat case_match; first [apply structural_command_version | by left].
  - apply on_field_changed_version.
  - by left.
  - unfold _do_undo. destruct (py_pop _) as [[top rest]|]; [by right|by left].
  - unfold _do_redo. destruct (py_pop _) as [[top rest]|]; [by right|by left].
  - pose proof (handle_save_edit_fields AutosaveTimer w ltac:(by left)) as [= Hd Hv _ _ _ _].
    left. split; [exact Hv|exact Hd].
  - pose proof (handle_save_edit_fields SaveNow w ltac:(by left)) as [= Hd Hv _ _ _ _].
    left. split; [exact Hv|exact Hd].
  - pose proof (handle_save_edit_fields (SaveDone ok err) w ltac:(by right))
      as [= Hd Hv _ _ _ _].
    left. split; [exact Hv|exact Hd].
Qed.

Lemma version_inv_start a : version_inv a -> version_inv (_start_save_async a).1.
Proof.
  intros (H1 & H2 & H3). unfold _start_save_async, version_inv.
  destruct (_save_in_progress a); simpl; [done|].
  split; [done|]. split; [|done]. intros v [= <-]. lia.
Qed.

Lemma version_inv_completion ok err a :
  version_inv a -> version_inv (completion_recorded ok err a).
Proof.
  intros (H1 & H2 & H3). unfold completion_recorded, version_inv.
  destruct ok; simpl.
  - destruct (_inflight_version a) as [v|] eqn:Ev; simpl; rewrite ?Ev.
    + specialize (H2 v eq_refl). split; [lia|]. by split.
    + by split.
  - split; [done|]. split; [done|]. by destruct err as [[|c e]|].
Qed.

Lemma version_inv_pending b a : version_inv a -> version_inv (set_save_pending b a).
Proof. done. Qed.

Lemma version_inv_done ok err a : version_inv a -> version_inv (_on_save_done ok err a).1.
Proof.
  intros H. rewrite on_save_done_eq. destruct (_save_pending a).
  - by apply version_inv_start, version_inv_pending, version_inv_completion.
  - by apply version_inv_completion.
Qed.

Lemma handle_version_inv e w : version_inv (app w) -> version_inv (app (handle e w)).
Proof.
  intros H.
  destruct (is_save_request e) eqn:Er.
  { destruct e; try discriminate Er; simpl; unfold saving.
    - destruct (_autosave_fire (app w)) as [a' st] eqn:E. simpl.
      change a' with (a', st).1. rewrite <- E. by apply version_inv_start.
    - destruct (_save_now (app w)) as [a' st] eqn:E. simpl.
      change a' with (a', st).1. rewrite <- E. by apply version_inv_start. }
  destruct (is_save_done e) eqn:Ed.
  { destruct e; try discriminate Ed. simpl. destruct (workers w); [done|].
    unfold saving. simpl. destruct (_on_save_done ok err (app w)) as [a' st] eqn:E. simpl.
    change a' with (a', st).1. rewrite <- E. by apply version_inv_done. }
  destruct (handle_ui_save_fields e w Er Ed) as ([= _ _ He Hi _ Hl] & _).
  destruct H as (H1 & H2 & H3). unfold version_inv. rewrite He, Hi, Hl.
  destruct (version_step e w) as [[Hv _]|Hv]; rewrite Hv.
  - done.
  - split; [lia|]. split; [|done]. intros v Hv'. specialize (H2 v Hv'). lia.
Qed.

Lemma init_version_inv d0 : version_inv (init_app d0).
Proof. by split. Qed.

Lemma run_version_inv evs w : version_inv (app w) -> version_inv (app (run evs w)).
Proof.
  revert w. induction evs as [|e evs IH]; intros w H; [done|].
  simpl. by apply IH, handle_version_inv.
Qed.

(** X8. The version counter tracks every change.  No handler changes the
    document without incrementing [model_version]: after any event the
    version is the same and so is the document, or the version is one
    higher.  In every reachable state
    [0 <= last_saved_version <= model_version], and the version of a snapshot
    in flight lies between the two. *)
Theorem version_tracks_changes :
  (forall e w,
     let a := app w in
     let a' := app (handle e w) in
     (model_version a' = model_version a /\ model_data a' = model_data a)
     \/ model_version a' = model_version a + 1) /\
  (forall d0 evs,
     let a := app (run evs (init_world d0)) in
     0 <= last_saved_version a <= model_version a /\
     (forall v, _inflight_version a = Some v ->
                last_saved_version a <= v <= model_version a)).
Proof.
  split.
  - intros e w. apply version_step.
  - intros d0 evs a.
    destruct (run_version_inv evs (init_world d0) (init_version_inv d0)) as (H1 & H2 & _).
    by split.
Qed.

(** X9. Saving and editing do not touch each other's state.  A save
    request or a save completion leaves the document, its version, both
    history stacks, the cap and the edit group as they are; every other
    event leaves the fields of the save controller as they are and neither
    starts nor ends a write. *)
Theorem saving_and_editing_are_separate (e : event) (w : World) :
  (is_save_request e = true \/ is_save_done e = true ->
     edit_fields (app (handle e w)) = edit_fields (app w)) /\
  (is_save_request e = false -> is_save_done e = false ->
     save_fields (app (handle e w)) = save_fields (app w) /\
     workers (handle e w) = workers w /\
     written (handle e w) = written w).
Proof.
  split; [apply handle_save_edit_fields|apply handle_ui_save_fields].
Qed.

(** ** A clean document is the one in the file *)

Lemma file_matches_same d0 disk a a' :
  model_data a' = model_data a -> file_matches d0 disk a -> file_matches d0 disk a'.
Proof. intros H. unfold file_matches. by rewrite H. Qed.

Lemma file_inv_step d0 e w disk :
  file_inv d0 w disk ->
  file_inv d0 (handle e w)
    (match e, workers w with SaveDone true _, s :: _ => Some s | _, _ => disk end).
Proof.
  intros (Hv & Hs & Hfly & Hfile).
  pose proof (handle_version_inv e w Hv) as Hv'.
  pose proof (handle_save_inv e w Hs) as Hs'.
  split; [done|]. split; [done|].
  destruct (is_save_request e) eqn:Er.
  { pose proof (handle_save_edit_fields e w ltac:(by left)) as [= Hd Hver _ _ _ _].
    assert (Hdisk : match e, workers w with SaveDone true _, s :: _ => Some s | _, _ => disk end
                    = disk) by (by destruct e).
    rewrite Hdisk, Hd, Hver. clear Hdisk.
    pose proof (save_inv_cases w Hs) as Hc.
    rewrite save_request_step by done.
    destruct (workers w) as [|s0 [|]] eqn:Ew; [|clear Hc|destruct Hc].
    - destruct Hc as [Hp Hq]. rewrite Hp. cbn [workers app].
      assert (Hl : last_saved_version (app (handle e w)) = last_saved_version (app w)).
      { destruct e; try discriminate Er; simpl;
          unfold saving, _autosave_fire, _save_now, _start_save_async; simpl; by rewrite Hp. }
      rewrite Hl. split; [|intros Heq; by eapply file_matches_same, Hfile].
      intros s v [= <-] _ _. done.
    - destruct (_save_in_progress (app w)) eqn:Ep.
      + cbn [workers app].
        assert (H1 : _inflight_version
                       (set_save_pending true
                          (if e is AutosaveTimer then set_autosave_after_id false (app w)
                           else app w)) = _inflight_version (app w)) by (by destruct e).
        assert (H2 : last_saved_version
                       (set_save_pending true
                          (if e is AutosaveTimer then set_autosave_after_id false (app w)
                           else app w)) = last_saved_version (app w)) by (by destruct e).
        rewrite H1, H2. split.
        * intros s v [= <-]. by apply Hfly.
        * intros Heq. apply (file_matches_same d0 disk (app w)); [by destruct e|by apply Hfile].
      + destruct Hs as [(Hw & _)|(s & v & Hw & Hp & _)]; congruence. }
  destruct (is_save_done e) eqn:Ed.
  { destruct e; try discriminate Ed.
    destruct (workers w) as [|s rest] eqn:Ew.
    { assert (handle (SaveDone ok err) w = w) as -> by (simpl; by rewrite Ew).
      rewrite Ew. split; [by intros s v [=]|by destruct ok]. }
    pose proof (save_inv_cases w Hs) as Hc. rewrite Ew in Hc.
    destruct rest; [|destruct Hc]. destruct Hc as (Hp & [v Hiv] & Hsnap).
    rewrite (save_done_step ok err w s []) by done. cbn [workers app].
    rewrite on_save_done_started.
    pose proof (on_save_done_edit_fields ok err (app w)) as [= Hd Hver _ _ _ _].
    destruct (on_save_done_flags ok err (app w)) as (_ & _ & Hstart).
    assert (Hl : last_saved_version (_on_save_done ok err (app w)).1
                 = if ok then v else last_saved_version (app w)).
    { rewrite on_save_done_eq. unfold completion_recorded, _start_save_async.
      destruct ok, (_save_pending (app w)); simpl; by rewrite ?Hiv. }
    rewrite Hl, Hver, Hd. split.
    - intros s' v'. destruct (_save_pending (app w)) eqn:Eq; [|done].
      destruct (Hstart eq_refl) as [Hiv' _]. rewrite Hiv'.
      by intros [= <-] [= <-] _.
    - destruct ok.
      + intros Heq. unfold file_matches. rewrite Hd. by eapply Hfly.
      + intros Heq. by eapply file_matches_same, Hfile. }
  destruct (handle_ui_save_fields e w Er Ed) as ([= _ _ _ Hi _ Hl] & Hw & _).
  assert (Hdisk : match e, workers w with SaveDone true _, s :: _ => Some s | _, _ => disk end
                  = disk) by (by destruct e).
  rewrite Hdisk, Hw, Hi, Hl. clear Hdisk.
  destruct Hv as (H1 & H2 & _).
  destruct (version_step e w) as [[Hver Hd]|Hver]; rewrite Hver.
  - rewrite Hd. split; [done|]. intros Heq. by eapply file_matches_same, Hfile.
  - split.
    + intros s v _ Hv'' ->. specialize (H2 _ Hv''). lia.
    + intros Heq. lia.
Qed.

Lemma file_inv_run d0 evs : forall w disk,
  file_inv d0 w disk -> file_inv d0 (run evs w) (saved_snapshot evs w disk).
Proof.
  induction evs as [|e evs IH]; intros w disk H; [done|].
  rewrite run_cons. cbn [saved_snapshot]. by apply IH, file_inv_step.
Qed.

Lemma file_inv_init d0 : file_inv d0 (init_world d0) None.
Proof.
  split; [apply init_version_inv|]. split; [apply init_save_inv|]. by split.
Qed.

Lemma not_dirty_inv a :
  _is_dirty a = false ->
  model_version a = last_saved_version a /\
  _save_in_progress a = false /\ _save_pending a = false.
Proof.
  unfold _is_dirty. rewrite !orb_false_iff, negb_false_iff, Z.eqb_eq. tauto.
Qed.

(** X10. A document that is not dirty is the one in the file.  Over every
    sequence of events from start-up: whenever [_is_dirty] is false, the
    snapshot the last successful write has put into the file is the document
    in memory -- or no write has succeeded yet, and the document is still
    what normalizing the loaded file gave. *)
Theorem clean_document_is_in_the_file (d0 : json) (evs : list event) :
  let w := run evs (init_world d0) in
  _is_dirty (app w) = false ->
  file_matches d0 (saved_snapshot evs (init_world d0) None) (app w).
Proof.
  intros w (Hv & _)%not_dirty_inv.
  destruct (file_inv_run d0 evs _ _ (file_inv_init d0)) as (_ & _ & _ & H).
  by apply H.
Qed.

(** ** Closing the window *)

Lemma request_close_silent ask a :
  _save_last_error a <> Some [] ->
  _request_close ask a = ([], true) <-> _save_last_error a = None /\ _is_dirty a = false.
Proof.
  intros Hne. unfold _request_close, _is_dirty.
  destruct (_save_last_error a) as [[|c e]|]; [done| |];
    destruct (_save_in_progress a), (_save_pending a),
      (model_version a =? last_saved_version a),
      (ask AutosaveFailed), (ask UnsavedChanges); simpl;
    (split; [intros Hc | intros [Hc1 Hc2]]); done.
Qed.

Lemma request_close_answers ask a shown :
  _request_close ask a = (shown, true) -> Forall (fun d => ask d = true) shown.
Proof.
  unfold _request_close.
  destruct (match _save_last_error a with Some (_ :: _) => true | _ => false end);
    cbn [andb].
  - destruct (ask AutosaveFailed) eqn:E1; cbn [negb]; [|done].
    destruct (_ || _ || _).
    + destruct (ask UnsavedChanges) eqn:E2; [|done]. intros [= <-]. by repeat constructor.
    + intros [= <-]. by repeat constructor.
  - destruct (_ || _ || _).
    + destruct (ask UnsavedChanges) eqn:E2; [|done]. intros [= <-]. by repeat constructor.
    + intros [= <-]. constructor.
Qed.


(** ** The probe and the move *)

Lemma method_get_of_getitem o k v dflt :
  getitem_key o k = OK v -> method_get o k dflt = OK v.
Proof. intros (kvs & -> & Hget)%getitem_key_inv. simpl. by rewrite Hget. Qed.

Lemma in_bounds_list xs (i : nat) direction :
  in_bounds (JList xs) (Some (Z.of_nat i)) direction
  = OK ((0 <=? Z.of_nat i + direction) && (Z.of_nat i + direction <? Z.of_nat (length xs))).
Proof. unfold in_bounds. cbn [or0]. by destruct (0 <=? _). Qed.

Lemma can_move_child data ref xs i direction :
  valid_child data ref xs i ->
  _can_move data ref direction
  = OK ((0 <=? Z.of_nat i + direction) && (Z.of_nat i + direction <? Z.of_nat (length xs))).
Proof.
  intros (Hk & Hs & Ho & Hlt).
  unfold siblings, sibling_path, own_index, is_child, _can_move in *.
  destruct ref as [k ci li ii]; simpl in *.
  destruct k; try discriminate Hk; subst; cbn [get_path] in *; res_inv Hs;
    injection Hs as ->;
    repeat match goal with
           | E : getitem_key ?o ?k = OK _ |- context [method_get ?o ?k ?d] =>
               rewrite (method_get_of_getitem _ _ _ d E)
           | E : _ = OK _ |- _ => rewrite E; clear E
           | _ => progress cbn [mbind res_bind]
           end;
    apply in_bounds_list.
Qed.

(** X12. The move command does what its probe announces.  For a valid
    reference at position [i] in a normalized document, [_can_move] returns
    whether [i + direction] is within the child sequence.  If it is not,
    [_move_selected] leaves the editor exactly as it is (no undo entry);
    if it is, the document becomes the one [move_node] produces, the version
    is incremented, the old document is pushed onto the undo stack and the
    redo stack is emptied. *)
Theorem move_command_matches_probe (a : EditorApp) (ref : NodeRef) (xs : list json)
    (i : nat) (direction : Z) :
  valid_child (model_data a) ref xs i ->
  normalized (model_data a) ->
  let j := Z.of_nat i + direction in
  let inside := (0 <=? j) && (j <? Z.of_nat (length xs)) in
  let a' := _move_selected ref direction a in
  _can_move (model_data a) ref direction = OK inside /\
  if inside then
    exists data',
      move_node (model_data a) ref direction = OK (data', with_index ref j) /\
      model_data a' = data' /\
      model_version a' = model_version a + 1 /\
      undo_stack a' = capped (undo_limit a) (undo_stack a ++ [model_data a]) /\
      redo_stack a' = []
  else a' = a.
Proof.
  intros Hv Hn j inside a'. pose proof Hv as (Hk & Hs & Ho & Hlt).
  pose proof (can_move_child _ _ _ _ direction Hv) as Hc. fold j inside in Hc.
  split; [done|]. subst a'. unfold _move_selected. rewrite Hc.
  destruct inside eqn:Ei; [|done].
  pose proof (move_node_child _ _ _ _ direction Hv) as Hm.
  rewrite (move_in_list xs i direction Hlt) in Hm. fold j in Hm.
  change ((0 <=? j) && (j <? Z.of_nat (length xs))) with inside in Hm. rewrite Ei in Hm.
  apply andb_true_iff in Ei as [H0%Z.leb_le H1%Z.ltb_lt].
  destruct (lookup_lt_is_Some_2 xs i Hlt) as [xi Hxi].
  destruct (lookup_lt_is_Some_2 xs (Z.to_nat j) ltac:(lia)) as [xj Hxj].
  rewrite Hxi, Hxj in Hm. cbn [mbind res_bind] in Hm.
  eexists. split; [exact Hm|].
  rewrite structural_command_stack, structural_command_redo.
  unfold structural_command.
  change (model_data (_push_undo_snapshot a)) with (model_data a). rewrite Hm.
  split; [|done]. unfold _touch_model. simpl.
  by eapply move_node_normalized.
Qed.

(** ** The toolbar *)

Ltac in_list :=
  repeat first [apply list_elem_of_here | apply list_elem_of_further].

Ltac not_in_list H :=
  repeat (apply elem_of_cons in H as [H|H]; [discriminate H|]);
  by apply elem_of_nil in H.

Lemma move_selected_hidden ref direction a :
  _can_move (model_data a) ref direction = OK false -> _move_selected ref direction a = a.
Proof. intros H. unfold _move_selected. by rewrite H. Qed.

(** X13. The toolbar agrees with the commands.  When [_refresh_toolbar]
    returns: the button for a new category is always there; a command whose
    button is left out (new lesson, new item, delete, up, down) would do
    nothing to the editor if it ran; up and down are shown exactly when
    [_can_move] says so; and for the course root only the button for a new
    category is shown. *)
Theorem toolbar_matches_handlers (ref : NodeRef) (a : EditorApp) (ws : list button) :
  _refresh_toolbar ref a = OK ws ->
  btn_add_category ∈ ws /\
  (btn_add_lesson ∉ ws -> _add_lesson ref a = a) /\
  (btn_add_item ∉ ws -> _add_item ref a = a) /\
  (btn_delete ∉ ws -> forall confirmed, _delete_selected ref confirmed a = a) /\
  (btn_up ∈ ws <-> _can_move (model_data a) ref (-1) = OK true) /\
  (btn_down ∈ ws <-> _can_move (model_data a) ref 1 = OK true) /\
  (btn_up ∉ ws -> _move_selected ref (-1) a = a) /\
  (btn_down ∉ ws -> _move_selected ref 1 a = a) /\
  (kind ref = Course -> ws = [btn_add_category]).
Proof.
  unfold _refresh_toolbar, _add_lesson, _add_item, _delete_selected. intros H.
  destruct (_can_move (model_data a) ref (-1)) as [up|] eqn:Eu; [|discriminate H].
  destruct (_can_move (model_data a) ref 1) as [down|] eqn:Ed; [|discriminate H].
  cbn [mbind res_bind] in H. injection H as <-.
  assert (Hcourse : kind ref = Course -> up = false /\ down = false).
  { intros Hk. unfold _can_move in Eu, Ed. rewrite Hk in Eu, Ed.
    injection Eu as <-. by injection Ed as <-. }
  split; [destruct (kind ref), up, down; simpl; in_list|].
  split; [intros Hn; destruct (kind ref); try done; exfalso; apply Hn;
          destruct up, down; simpl; in_list|].
  split; [intros Hn; destruct (kind ref); try done; exfalso; apply Hn;
          destruct up, down; simpl; in_list|].
  split; [intros Hn c; destruct (kind ref); try done; exfalso; apply Hn;
          destruct up, down; simpl; in_list|].
  split; [split; [intros Hin; destruct up; [done|];
                  destruct (kind ref), down; simpl in Hin; not_in_list Hin
                 |intros [= ->]; destruct (kind ref), down; simpl; in_list]|].
  split; [split; [intros Hin; destruct down; [done|];
                  destruct (kind ref), up; simpl in Hin; not_in_list Hin
                 |intros [= ->]; destruct (kind ref), up; simpl; in_list]|].
  split; [intros Hn; apply move_selected_hidden; destruct up; [|done]; exfalso; apply Hn;
          destruct (kind ref), down; simpl; in_list|].
  split; [intros Hn; apply move_selected_hidden; destruct down; [|done]; exfalso; apply Hn;
          destruct (kind ref), up; simpl; in_list|].
  intros Hk. destruct (Hcourse Hk) as [-> ->]. by rewrite Hk.
Qed.

(** ** Stale references *)

Lemma delitem_len o i o' : delitem_idx o i = OK o' -> succeeds (py_len o').
Proof. intros (xs & z & n & -> & _ & _ & ->)%delitem_idx_inv. by eexists. Qed.

Lemma delete_node_siblings data ref xs :
  is_child ref = true -> siblings data ref = OK xs ->
  (forall e, delitem_idx xs (own_index ref) = Raise e -> delete_node data ref = Raise e) /\
  (forall xs', delitem_idx xs (own_index ref) = OK xs' -> succeeds (delete_node data ref)).
Proof.
  intros Hk Hs.
  unfold siblings, sibling_path, own_index, is_child, delete_node in *.
  destruct (kind ref); try discriminate Hk; cbn [get_path] in *; res_inv Hs;
    injection Hs as ->;
    repeat (cbn [mbind res_bind];
            try match goal with E : getitem_key _ _ = OK _ |- _ => rewrite E; clear E end;
            try match goal with E : getitem_idx _ _ = OK _ |- _ => rewrite E; clear E end);
    (split; [by intros e -> | intros xs' Hd; rewrite Hd; cbn [mbind res_bind]]);
    destruct (delitem_len _ _ _ Hd) as [n ->]; cbn [mbind res_bind];
    destruct (truthy xs'); by eexists.
Qed.

Lemma py_index_range len z :
  py_index len z
  = if (- Z.of_nat len <=? z) && (z <? Z.of_nat len)
    then Some (Z.to_nat (if 0 <=? z then z else Z.of_nat len + z))
    else None.
Proof.
  unfold py_index.
  destruct (Z.leb_spec 0 z), (Z.ltb_spec z (Z.of_nat len)),
    (Z.leb_spec (- Z.of_nat len) z); simpl; try done; lia.
Qed.

(** X14. References that do not resolve.  Of an unknown kind: [get_node]
    raises [ValueError], while [delete_node] returns the course root and
    [move_node] the reference, both without touching the document.  Of a
    category, lesson or item whose child sequence [xs] resolves: with no
    index, [get_node] and [delete_node] raise [TypeError]; with an index
    outside [-len(xs) <= z < len(xs)] both raise [IndexError]; with one
    inside both succeed, a negative index counting from the end.  When
    [delete_node] raises inside [_delete_selected], the document and its
    version are as before, but the snapshot has already been pushed: the
    undo stack has one more entry and the redo stack is empty. *)
Theorem stale_reference_raises :
  (forall data ref,
     kind ref = OtherKind ->
     get_node data ref = Raise ValueError /\
     delete_node data ref = OK (data, ref_course) /\
     forall direction, move_node data ref direction = OK (data, ref)) /\
  (forall data ref xs,
     is_child ref = true -> siblings data ref = OK (JList xs) ->
     let len := Z.of_nat (length xs) in
     (own_index ref = None ->
        get_node data ref = Raise TypeError /\ delete_node data ref = Raise TypeError) /\
     (forall z, own_index ref = Some z -> z < - len \/ len <= z ->
        get_node data ref = Raise IndexError /\ delete_node data ref = Raise IndexError) /\
     (forall z, own_index ref = Some z -> - len <= z < len ->
        exists x,
          xs !! Z.to_nat (if 0 <=? z then z else len + z) = Some x /\
          get_node data ref = OK x /\ succeeds (delete_node data ref))) /\
  (forall a ref e,
     kind ref <> Course ->
     delete_node (model_data a) ref = Raise e ->
     let a' := _delete_selected ref true a in
     model_data a' = model_data a /\ model_version a' = model_version a /\
     undo_stack a' = capped (undo_limit a) (undo_stack a ++ [model_data a]) /\
     redo_stack a' = []).
Proof.
  split; [|split].
  - intros data ref Hk. unfold get_node, delete_node, move_node. by rewrite Hk.
  - intros data ref xs Hk Hs len.
    destruct (delete_node_siblings data ref _ Hk Hs) as [Hraise Hok].
    rewrite get_node_child by done. rewrite Hs. cbn [mbind res_bind].
    split; [|split].
    + intros Ho. rewrite Ho in *. split; [done|]. by apply Hraise.
    + intros z Ho Hz. rewrite Ho in *.
      assert (Hi : py_index (length xs) z = None).
      { rewrite py_index_range. fold len.
        destruct (Z.leb_spec (- len) z), (Z.ltb_spec z len); simpl; try done; lia. }
      split; [simpl; by rewrite Hi|]. apply Hraise. simpl. by rewrite Hi.
    + intros z Ho Hz. rewrite Ho in *.
      assert (Hi : py_index (length xs) z
                   = Some (Z.to_nat (if 0 <=? z then z else len + z))).
      { rewrite py_index_range. fold len.
        by rewrite (proj2 (Z.leb_le _ _)), (proj2 (Z.ltb_lt _ _)) by lia. }
      destruct (lookup_lt_is_Some_2 xs (Z.to_nat (if 0 <=? z then z else len + z)))
        as [x Hx]; [by eapply py_index_lt|].
      exists x. split; [done|]. split; [simpl; by rewrite Hi, Hx|].
      eapply Hok. simpl. by rewrite Hi.
  - intros a ref e Hk Hd a'. subst a'. unfold _delete_selected.
    assert (_delete_selected ref true a
            = structural_command (fun data => delete_node data ref) a) as Heq
      by (unfold _delete_selected; by destruct (kind ref)).
    unfold _delete_selected in Heq. rewrite Heq.
    rewrite structural_command_stack, structural_command_redo.
    unfold structural_command.
    change (model_data (_push_undo_snapshot a)) with (model_data a). by rewrite Hd.
Qed.

(** ** Adding succeeds where the parent resolves *)

Lemma len_app_last {A} (xs : list A) x : Z.of_nat (length (xs ++ [x])) - 1 = Z.of_nat (length xs).
Proof. rewrite length_app. simpl. lia. Qed.

Lemma add_category_ok data name slug xs :
  siblings data (mkRef Category None None None) = OK (JList xs) ->
  add_category data name slug
  = OK (put_siblings data (mkRef Category None None None)
          (JList (xs ++ [new_category name slug])),
        ref_category (Z.of_nat (length xs))).
Proof.
  unfold siblings, put_siblings, sibling_path, add_category, put_categories.
  cbn [kind get_path put_path]. intros H. res_inv H. injection H as ->.
  cbn [mbind res_bind append py_len]. by rewrite len_app_last.
Qed.

Lemma add_lesson_ok data ci name slug xs :
  siblings data (mkRef Lesson ci None None) = OK (JList xs) ->
  add_lesson data ci name slug
  = OK (put_siblings data (mkRef Lesson ci None None)
          (JList (xs ++ [new_lesson name slug])),
        mkRef Lesson ci (Some (Z.of_nat (length xs))) None).
Proof.
  unfold siblings, put_siblings, sibling_path, add_lesson, put_lessons, put_categories.
  cbn [kind cat_i get_path put_path]. intros H. res_inv H. injection H as ->.
  cbn [mbind res_bind]. rewrite E0. cbn [mbind res_bind]. rewrite E1.
  cbn [mbind res_bind append py_len]. by rewrite len_app_last.
Qed.

Lemma add_item_ok data ci li ja it image xs :
  siblings data (mkRef Item ci li None) = OK (JList xs) ->
  exists img,
    add_item data ci li ja it image
    = OK (put_siblings data (mkRef Item ci li None)
            (JList (xs ++ [JDict [(str "ja", JStr ja); (str "it", JStr it);
                                  (str "image", JStr img)]])),
          mkRef Item ci li (Some (Z.of_nat (length xs)))) /\
    img <> [] /\ (blank image = true -> img = DEFAULT_ITEM_IMAGE).
Proof.
  unfold siblings, put_siblings, sibling_path, add_item, put_items, put_lessons,
    put_categories.
  cbn [kind cat_i lesson_i get_path put_path]. intros H. res_inv H. injection H as ->.
  eexists. split; [|split].
  - cbn [mbind res_bind]. rewrite E0. cbn [mbind res_bind]. rewrite E1.
    cbn [mbind res_bind]. rewrite E2. cbn [mbind res_bind]. rewrite E3.
    cbn [mbind res_bind append py_len]. by rewrite len_app_last.
  - by destruct (strip _).
  - intros Hb. rewrite strip_blank; [done|]. by destruct image.
Qed.

(** ** The self-test *)

Lemma store_idx_app_last xs (x y : json) :
  store_idx (JList (xs ++ [x])) (Some (Z.of_nat (length xs))) y = JList (xs ++ [y]).
Proof.
  simpl. rewrite py_index_nat by (rewrite length_app; simpl; lia).
  f_equal. rewrite insert_app_r_alt by lia. by rewrite Nat.sub_diag.
Qed.

Lemma siblings_category data ref :
  kind ref = Category -> siblings data ref = getitem_key data (str "categories").
Proof.
  intros Hk. unfold siblings, sibling_path. rewrite Hk. cbn [get_path].
  by destruct (getitem_key _ _).
Qed.

(** X15. The self-test passes on every input.  Whatever JSON value is
    loaded, the model steps of [run_self_test] raise nothing and the
    assertion on the image of the new item holds; the document handed to the
    writer is the normalized input with one category appended, "New
    category", which holds one lesson, "New lesson", without items. *)
Theorem self_test_passes (data : json) :
  exists kvs cs,
    _normalize_structure data = JDict kvs /\
    dict_get (str "categories") kvs = Some (JList cs) /\
    run_self_test data
    = OK (Some (JDict (dict_set (str "categories")
                         (JList (cs ++ [self_test_category])) kvs))).
Proof.
  pose proof (normalize_structure_idem data) as Hn.
  apply normalized_iff in Hn as (kvs & cs & Hd & Hc & Hcs & Hf).
  exists kvs, cs. split; [done|]. split; [done|].
  unfold run_self_test. rewrite Hd.
  set (d := JDict kvs).
  set (cref := mkRef Category None None None).
  set (n := Z.of_nat (length cs)).
  set (lref := mkRef Lesson (Some n) None None).
  set (iref := mkRef Item (Some n) (Some 0) None).
  set (nc := new_category (str "New category") []).
  set (nl := new_lesson (str "New lesson") []).
  (* the two probes *)
  assert (Hcourse : succeeds (get_node d ref_course)).
  { unfold get_node, d. cbn [kind ref_course getitem_key]. unfold py_get in Hc.
    destruct (dict_get (str "course") kvs); [by eexists|done]. }
  destruct Hcourse as [c ->]. cbn [mbind res_bind].
  assert (Hcats : siblings d cref = OK (JList cs)).
  { unfold siblings, sibling_path, cref, d. cbn [kind get_path getitem_key].
    by rewrite Hcs. }
  assert (method_get d (str "categories") JNull = OK (JList cs)) as ->
    by (unfold d; cbn [method_get]; by rewrite Hcs).
  cbn [mbind res_bind].
  assert (Hprobe : succeeds (if truthy (JList cs) then get_node d (ref_category 0)
                             else OK JNull)).
  { destruct cs as [|c0 cs']; [by eexists|]. cbn [truthy].
    unfold get_node, d. cbn [kind ref_category cat_i getitem_key]. rewrite Hcs.
    by eexists. }
  destruct Hprobe as [c' ->]. cbn [mbind res_bind].
  (* a category *)
  rewrite (add_category_ok d _ _ cs Hcats). cbn [mbind res_bind].
  set (d1 := put_siblings d cref (JList (cs ++ [nc]))).
  assert (Hs1 : siblings d1 cref = OK (JList (cs ++ [nc]))) by (by eapply siblings_put).
  (* a lesson in it *)
  cbn [ref_category cat_i or0]. fold n.
  assert (Hl1 : siblings d1 lref = OK (JList [])).
  { rewrite siblings_category in Hs1 by done.
    unfold siblings, sibling_path, lref. cbn [kind cat_i get_path].
    rewrite Hs1. cbn [mbind res_bind]. unfold n. by rewrite getitem_idx_app_last. }
  rewrite (add_lesson_ok d1 _ _ _ [] Hl1). cbn [mbind res_bind Datatypes.app length].
  set (d2 := put_siblings d1 lref (JList [nl])).
  assert (Hs2 : siblings d2 lref = OK (JList [nl])) by (by eapply siblings_put).
  (* an item in that *)
  cbn [cat_i lesson_i or0]. change (Z.of_nat 0) with 0.
  assert (Hi2 : siblings d2 iref = OK (JList [])).
  { unfold siblings in *.
    change (sibling_path iref)
      with (sibling_path lref ++ [Idx (Some 0); Key (str "items")]).
    rewrite get_path_app, Hs2. done. }
  match goal with |- context [add_item ?x _ _ _ _ _] => change x with d2 end.
  destruct (add_item_ok d2 (Some n) (Some 0) [] [] None [] Hi2) as (img & -> & Hne & Himg).
  rewrite (Himg eq_refl). cbn [mbind res_bind Datatypes.app length]. change (Z.of_nat 0) with 0.
  set (item := JDict [(str "ja", JStr []); (str "it", JStr []);
                      (str "image", JStr DEFAULT_ITEM_IMAGE)]).
  set (d3 := put_siblings d2 iref (JList [item])).
  destruct (appended_resolves d2 (mkRef Item (Some n) (Some 0) (Some 0)) [] item
              eq_refl Hi2 eq_refl) as [Hs3 Hg3].
  change (put_siblings d2 (mkRef Item (Some n) (Some 0) (Some 0)) (JList ([] ++ [item])))
    with d3 in Hs3, Hg3.
  match goal with |- context [get_node ?x _] => change x with d3 end.
  rewrite Hg3. cbn [mbind res_bind].
  change (method_get item (str "image") JNull) with (OK (JStr DEFAULT_ITEM_IMAGE)).
  cbn [mbind res_bind].
  change (truthy (JStr DEFAULT_ITEM_IMAGE)) with true. cbv iota.
  (* moving it up does nothing, deleting it leaves the lesson empty *)
  assert (Hv3 : valid_child d3 (mkRef Item (Some n) (Some 0) (Some 0)) [item] 0).
  { split; [done|]. split; [exact Hs3|]. split; [done|]. simpl. lia. }
  rewrite (move_node_child _ _ _ _ (-1) Hv3).
  change (move_in (JList [item]) (Some (Z.of_nat 0)) (-1)) with (OK (@None (json * Z))).
  cbn [mbind res_bind].
  rewrite (delete_node_child _ _ _ _ Hv3). cbn [mbind res_bind].
  do 2 f_equal.
  change (put_siblings d3 (mkRef Item (Some n) (Some 0) (Some 0)) (JList (delete 0%nat [item])))
    with (put_siblings (put_siblings d2 iref (JList [item])) iref (JList [])).
  rewrite put_siblings_put, (put_siblings_same _ _ _ Hi2).
  (* the document that is left *)
  unfold d2, d1, put_siblings, sibling_path, lref, cref, d. cbn [kind cat_i put_path getitem_key].
  rewrite Hcs. cbn [store_key getitem_key]. rewrite dict_get_set_eq.
  unfold n. rewrite getitem_idx_app_last.
  change (getitem_key nc (str "lessons")) with (OK (JList [])).
  cbv iota. rewrite store_idx_app_last, dict_set_set. done.
Qed.

(** ** Writing the file *)

(** X16. [atomic_write_text] writes all or nothing.  With a temporary
    name that is new and differs from the destination: the call returns
    exactly when no step fails, and then the destination holds the whole
    text and the temporary file is gone; when a step fails the destination
    is what it was (absent, if it was absent), and unless the final
    [unlink] fails as well every file is what it was; no file other than
    the two is ever touched. *)
Theorem atomic_write_all_or_nothing (F : faults) (tmp path : string) (text : pystr)
    (fs : gmap string pystr) :
  tmp <> path -> fs !! tmp = None ->
  let r := atomic_write_text F tmp path text fs in
  (r.2 = true <->
     mkdir_fails F = false /\ mkstemp_fails F = false /\ write_fails F = None /\
     replace_fails F = false) /\
  (r.2 = true -> r.1 = <[path := text]> fs) /\
  (r.2 = false -> r.1 !! path = fs !! path) /\
  (r.2 = false -> unlink_fails F = false -> r.1 = fs) /\
  (forall p, p <> path -> p <> tmp -> r.1 !! p = fs !! p).
Proof.
  intros Hne Hfresh. unfold atomic_write_text, os_replace.
  destruct F as [md ms wf rf uf]. cbn [mkdir_fails mkstemp_fails write_fails replace_fails
                                         unlink_fails].
  destruct md; [cbn; split; [split; [done|by intros [[=] _]]|done]|].
  destruct ms; [cbn; split; [split; [done|by intros (_ & [=] & _)]|done]|].
  destruct wf as [partial|].
  - cbn zeta. rewrite lookup_insert_eq.
    destruct uf; cbn [fst snd].
    + split; [split; [done|by intros (_ & _ & [=] & _)]|].
      split; [done|]. split; [intros _; by rewrite !lookup_insert_ne by done|].
      split; [done|]. intros p Hp Hp'. by rewrite !lookup_insert_ne by done.
    + rewrite delete_insert_eq, delete_insert_id by done.
      split; [split; [done|by intros (_ & _ & [=] & _)]|]. done.
  - destruct rf.
    + cbn zeta. rewrite lookup_insert_eq.
      destruct uf; cbn [fst snd].
      * split; [split; [done|by intros (_ & _ & _ & [=])]|].
        split; [done|]. split; [intros _; by rewrite !lookup_insert_ne by done|].
        split; [done|]. intros p Hp Hp'. by rewrite !lookup_insert_ne by done.
      * rewrite delete_insert_eq, delete_insert_id by done.
        split; [split; [done|by intros (_ & _ & _ & [=])]|]. done.
    + rewrite lookup_insert_eq. cbn zeta.
      rewrite lookup_insert_ne by done. rewrite lookup_delete_eq. cbn [fst snd].
      rewrite delete_insert_eq, delete_insert_id by done.
      split; [done|]. split; [done|]. split; [done|]. split; [done|].
      intros p Hp Hp'. by rewrite lookup_insert_ne.
Qed.

(** ** The autosave timer *)

Lemma structural_command_timer op a : timer_kept_or_armed a (structural_command op a).
Proof.
  unfold structural_command, timer_kept_or_armed.
  destruct (op _) as [[d' r]|]; [right|left]; done.
Qed.

Lemma on_field_changed_timer ref f a : timer_kept_or_armed a (_on_field_changed ref f a).
Proof.
  unfold _on_field_changed, timer_kept_or_armed.
  assert (Hp : model_version (_begin_coalesced_edit a) = model_version a /\
               _autosave_after_id (_begin_coalesced_edit a) = _autosave_after_id a)
    by (unfold _begin_coalesced_edit; by destruct (_edit_group_active a)).
  destruct Hp as [Hv Ht]. remember (_begin_coalesced_edit a) as b eqn:Eb. clear Eb.
  destruct (_apply_form_to_model _ _ _); [right|left].
  - unfold _touch_model. simpl. by rewrite Hv.
  - by rewrite Hv, Ht.
Qed.

Lemma timer_step e w :
  is_save_request e = false -> is_save_done e = false ->
  timer_kept_or_armed (app w) (app (handle e w)).
Proof.
  intros Hr Hd. destruct e; try discriminate; simpl.
  - apply structural_command_timer.
  - unfold _add_lesson.
    repeat case_match; first [apply structural_command_timer | by left].
  - unfold _add_item.
    repeat case_match; first [apply structural_command_timer | by left].
  - unfold _delete_selected.
    repeat case_match; first [apply structural_command_timer | by left].
  - unfold _move_selected.
    repeat case_match; first [apply structural_command_timer | by left].
  - apply on_field_changed_timer.
  - by left.
  - unfold _do_undo. destruct (py_pop _) as [[top rest]|]; [by right|by left].
  - unfold _do_redo. destruct (py_pop _) as [[top rest]|]; [by right|by left].
Qed.

Lemma save_coming_step e w :
  failed_completion e = false ->
  save_inv w -> version_inv (app w) -> save_coming (app w) ->
  save_coming (app (handle e w)).
Proof.
  intros He Hs Hv [Hidle Hbusy].
  destruct (is_save_request e) eqn:Er.
  { destruct e; try discriminate Er; simpl;
      unfold saving, _autosave_fire, _save_now, _start_save_async; simpl;
      destruct (_save_in_progress (app w)) eqn:Ep; simpl; unfold save_coming; simpl;
      rewrite ?Ep; (split; [done|]); intros _ v.
    - by right.
    - by intros [= <-].
    - by right.
    - by intros [= <-]. }
  destruct (is_save_done e) eqn:Ed.
  { destruct e as [| | | | | | | | | | |ok err]; try discriminate Ed.
    destruct ok; [|discriminate He].
    destruct (workers w) as [|s rest] eqn:Ew; [simpl; by rewrite Ew|].
    pose proof (save_inv_cases w Hs) as Hc. rewrite Ew in Hc.
    destruct rest; [|destruct Hc]. destruct Hc as (Hp & [v Hiv] & Hsnap).
    rewrite (save_done_step true err w s []) by done. cbn [app].
    rewrite on_save_done_eq. unfold completion_recorded, _start_save_async, save_coming.
    pose proof (Hbusy Hp v Hiv) as Hb.
    destruct (_save_pending (app w)) eqn:Eq; simpl; rewrite Hiv; simpl.
    - split; [done|]. intros _ v' [= <-]. done.
    - split; [|done]. intros _. split; [done|]. intros Hne.
      destruct Hb as [Ht|Hq]; [congruence|done|congruence]. }
  destruct (handle_ui_save_fields e w Er Ed) as ([= Hp Hq _ Hi _ Hl] & _).
  unfold save_coming. rewrite Hp, Hq, Hi, Hl.
  destruct Hv as (Hv1 & Hv2 & _).
  destruct (timer_step e w Er Ed) as [[Hver Ht]|[Hver Ht]]; rewrite Hver.
  - split.
    + intros Hp'. destruct (Hidle Hp') as [Hq' Harm]. split; [done|]. auto.
    + intros Hp' v Hv' Hne. destruct (Hbusy Hp' v Hv' Hne) as [?|?]; auto.
  - split.
    + intros Hp'. destruct (Hidle Hp') as [Hq' _]. by split.
    + intros Hp' v Hv' Hne. by left.
Qed.

Lemma save_coming_run evs : forall w,
  Forall (fun e => failed_completion e = false) evs ->
  save_inv w -> version_inv (app w) -> save_coming (app w) ->
  save_coming (app (run evs w)).
Proof.
  induction evs as [|e evs IH]; intros w Hev Hs Hv Hc; [done|].
  apply Forall_cons in Hev as [He Hev]. rewrite run_cons.
  apply IH; [done|by apply handle_save_inv|by apply handle_version_inv|].
  by apply save_coming_step.
Qed.

Lemma save_coming_init d0 : save_coming (init_app d0).
Proof. split; [|done]. intros _. split; [done|]. simpl. done. Qed.

(** X17. Unsaved changes have a save coming, as long as no write fails.
    Over every sequence of events in which no completion reports a failure:
    whenever the document is dirty, the autosave timer is armed or a write is
    in flight.  After a failed write this need not hold: the document is
    dirty, no timer is armed and nothing is in flight, until the next change
    or save request. *)
Theorem unsaved_changes_have_a_save_coming :
  (forall d0 evs,
     Forall (fun e => failed_completion e = false) evs ->
     let a := app (run evs (init_world d0)) in
     _is_dirty a = true ->
     _autosave_after_id a = true \/ _save_in_progress a = true) /\
  (let a := app (run [AddCategory; AutosaveTimer; SaveDone false None] (init_world JNull)) in
   _is_dirty a = true /\ _autosave_after_id a = false /\ _save_in_progress a = false).
Proof.
  split; [|by vm_compute].
  intros d0 evs Hev a Hdirty.
  destruct (save_coming_run evs (init_world d0) Hev (init_save_inv d0)
              (init_version_inv d0) (save_coming_init d0)) as [Hidle _].
  fold a in Hidle. destruct (_save_in_progress a) eqn:Ep; [by right|left].
  destruct (Hidle eq_refl) as [Hq Harm]. apply Harm.
  unfold _is_dirty in Hdirty. rewrite Ep, Hq, !orb_false_r in Hdirty.
  by apply negb_true_iff, Z.eqb_neq in Hdirty.
Qed.

(** ** What is written *)

(** A handler starts at most one write, of the document as it is. *)
Lemma written_step e w :
  written (handle e w) = written w
  \/ written (handle e w) = written w ++ [model_data (app w)].
Proof.
  destruct (is_save_request e) eqn:Er.
  { rewrite save_request_step by done.
    destruct (_save_in_progress (app w)); [by left|by right]. }
  destruct (is_save_done e) eqn:Ed.
  { destruct e; try discriminate Ed.
    destruct (workers w) as [|s rest] eqn:Ew; [left; simpl; by rewrite Ew|].
    rewrite (save_done_step ok err w s rest) by done. cbn [written].
    rewrite on_save_done_started.
    destruct (_save_pending (app w)); [by right|left]. by rewrite app_nil_r. }
  destruct (handle_ui_save_fields e w Er Ed) as (_ & _ & Hwr). by left.
Qed.

Lemma written_normalized_run evs : forall w,
  app_inv (app w) -> Forall normalized (written w) ->
  Forall normalized (written (run evs w)).
Proof.
  induction evs as [|e evs IH]; intros w Hinv Hwr; [done|].
  rewrite run_cons. apply IH; [by apply handle_app_inv|].
  destruct Hinv as (_ & _ & Hn).
  destruct (written_step e w) as [->| ->]; [done|].
  apply Forall_app. split; [done|]. by apply Forall_singleton.
Qed.

(** X18. Only normalized documents are written.  Every snapshot ever
    handed to a writer thread, over every sequence of events from start-up,
    is a document that [_normalize_structure] leaves as it is. *)
Theorem only_normalized_documents_are_written (d0 : json) (evs : list event) :
  Forall normalized (written (run evs (init_world d0))).
Proof. apply written_normalized_run; [apply init_app_inv|constructor]. Qed.

(** ** Normalization keeps what is there *)

Lemma dict_get_setdefault_keep k k' v' d v :
  dict_get k d = Some v -> dict_get k (setdefault k' v' d) = Some v.
Proof.
  intros H. destruct (decide (k' = k)) as [->|Hne].
  - rewrite dict_get_setdefault_eq. by rewrite H.
  - by rewrite dict_get_setdefault_ne.
Qed.

Lemma dict_get_repair_ne key f k d :
  key <> k -> dict_get k (repair_children key f d) = dict_get k d.
Proof.
  intros Hne. destruct (repair_children_shape key f d) as [xs ->].
  by rewrite dict_get_set_ne.
Qed.

Lemma repair_children_list key f d xs :
  dict_get key d = Some (JList xs) ->
  dict_get key (repair_children key f d) = Some (JList (map f xs)).
Proof.
  intros H. rewrite repair_children_get. unfold children_list, py_get. by rewrite H.
Qed.

(** X19. Normalization keeps what is there.  On an object, at each of
    the four levels, [_normalize_structure] keeps every key with the value
    it had, except the list of children, which stays a list of the same
    length whose [i]-th element is the normalized [i]-th child; a course
    that is an object is kept as it is.  It only adds what is missing. *)
Theorem normalization_keeps_existing_fields :
  (forall kvs, exists kvs',
     normalize_item (JDict kvs) = JDict kvs' /\
     forall k v, dict_get k kvs = Some v -> dict_get k kvs' = Some v) /\
  (forall kvs, exists kvs',
     normalize_lesson (JDict kvs) = JDict kvs' /\
     (forall k v, k <> str "items" -> dict_get k kvs = Some v -> dict_get k kvs' = Some v) /\
     (forall xs, dict_get (str "items") kvs = Some (JList xs) ->
                 dict_get (str "items") kvs' = Some (JList (map normalize_item xs)))) /\
  (forall kvs, exists kvs',
     normalize_category (JDict kvs) = JDict kvs' /\
     (forall k v, k <> str "lessons" -> dict_get k kvs = Some v -> dict_get k kvs' = Some v) /\
     (forall xs, dict_get (str "lessons") kvs = Some (JList xs) ->
                 dict_get (str "lessons") kvs' = Some (JList (map normalize_lesson xs)))) /\
  (forall kvs, exists kvs',
     _normalize_structure (JDict kvs) = JDict kvs' /\
     (forall k v, k <> str "categories" -> k <> str "course" ->
                  dict_get k kvs = Some v -> dict_get k kvs' = Some v) /\
     (forall c, dict_get (str "course") kvs = Some (JDict c) ->
                dict_get (str "course") kvs' = Some (JDict c)) /\
     (forall xs, dict_get (str "categories") kvs = Some (JList xs) ->
                 dict_get (str "categories") kvs' = Some (JList (map normalize_category xs)))).
Proof.
  split; [|split; [|split]].
  - intros kvs. eexists. split; [done|]. intros k v H.
    by do 3 apply dict_get_setdefault_keep.
  - intros kvs. eexists. split; [apply normalize_lesson_eq|]. split.
    + intros k v Hne H. rewrite dict_get_repair_ne by done.
      by do 2 apply dict_get_setdefault_keep.
    + intros xs H. apply repair_children_list.
      by do 2 apply dict_get_setdefault_keep.
  - intros kvs. eexists. split; [apply normalize_category_eq|]. split.
    + intros k v Hne H. rewrite dict_get_repair_ne by done.
      by do 2 apply dict_get_setdefault_keep.
    + intros xs H. apply repair_children_list.
      by do 2 apply dict_get_setdefault_keep.
  - intros kvs. eexists. split; [apply normalize_structure_eq|].
    assert (Hc : forall k, k <> str "course" ->
                   dict_get k (ensure_course kvs) = dict_get k kvs).
    { intros k Hk. unfold ensure_course. destruct (isinstance_dict _); [done|].
      by rewrite dict_get_set_ne. }
    split; [|split].
    + intros k v Hk1 Hk2 H. rewrite dict_get_repair_ne by done. by rewrite Hc.
    + intros c H. rewrite dict_get_repair_ne by key_ne.
      unfold ensure_course, py_get. by rewrite H.
    + intros xs H. apply repair_children_list. rewrite Hc by key_ne. done.
Qed.

(** ** The theorems at work *)

Lemma sample_items_valid (i : nat) :
  (i < 3)%nat ->
  valid_child sample_doc (ref_item 0 0 (Z.of_nat i))
    [sample_item "ohayou" "buongiorno"; sample_item "konnichiwa" "ciao";
     sample_item "konbanwa" "buonasera"] i.
Proof.
  intros H. split; [reflexivity|]. split; [vm_compute; reflexivity|].
  split; [reflexivity|]. simpl. lia.
Defined.

(** Five save requests while one write is in flight: two writes in all, the
    second one of the document with the category added meanwhile. *)
Lemma single_flight_saves_witness :
  let w := run [SaveNow; AddCategory; SaveNow; AutosaveTimer; SaveNow; SaveNow;
                SaveNow; SaveDone true None; SaveDone true None]
             (init_world (JDict [])) in
  written w = [_normalize_structure (JDict []);
               model_data (app (run [AddCategory] (init_world (JDict []))))]
  /\ workers w = [].
Proof.
  pose proof (proj2 (proj2 single_flight_saves) (JDict []) [] SaveNow
                [AddCategory; SaveNow; AutosaveTimer; SaveNow; SaveNow; SaveNow] []
                true None true None) as H.
  cbv zeta in H.
  destruct H as (_ & _ & _ & H4 & H5).
  - reflexivity.
  - reflexivity.
  - repeat constructor.
  - apply Exists_cons_tl, Exists_cons_hd. reflexivity.
  - constructor.
  - vm_compute in H4, H5 |- *. split; [exact H4 | exact H5].
Defined.

(** Deleting the middle item of three: the reference keeps its index and
    now resolves to the item that followed. *)
Lemma delete_node_successor_rule_witness :
  delete_node sample_doc (ref_item 0 0 1)
  = OK (put_siblings sample_doc (ref_item 0 0 1)
          (JList [sample_item "ohayou" "buongiorno"; sample_item "konbanwa" "buonasera"]),
        ref_item 0 0 1).
Proof.
  exact (proj1 (proj2 delete_node_successor_rule sample_doc (ref_item 0 0 1) _ 1%nat
                  (sample_items_valid 1 ltac:(lia)))).
Defined.

(** Three structural commands, three [undo()]s: the document is the one the
    editor started with. *)
Lemma undo_redo_inverse_witness :
  let w := init_world (JDict [(str "categories", JList [])]) in
  let b := app (run [AddCategory; AddLesson (ref_category 0); AddItem (ref_lesson 0 0)] w) in
  model_data (Nat.iter 3 _do_undo b) = model_data (app w).
Proof.
  refine (proj1 (proj2 (proj1 undo_redo_inverse (JDict [(str "categories", JList [])]) []
                          [AddCategory; AddLesson (ref_category 0); AddItem (ref_lesson 0 0)]
                          eq_refl _ _)) _).
  - repeat constructor.
  - vm_compute. lia.
  - vm_compute. lia.
Defined.

(** A blank image argument: the new item carries the placeholder. *)
Lemma item_image_default_witness :
  exists data' r,
    add_item sample_doc (Some 0) (Some 0) (str "oyasumi") (str "buonanotte")
      (Some (str "  ")) = OK (data', r) /\
    get_node data' r
    = OK (JDict [(str "ja", JStr (str "oyasumi")); (str "it", JStr (str "buonanotte"));
                 (str "image", JStr DEFAULT_ITEM_IMAGE)]).
Proof.
  destruct (add_item sample_doc (Some 0) (Some 0) (str "oyasumi") (str "buonanotte")
              (Some (str "  "))) as [[data' r]|] eqn:E; [|vm_compute in E; discriminate E].
  exists data', r. split; [reflexivity|].
  destruct (proj1 item_image_default _ _ _ _ _ _ _ _ E) as (img & Hget & _ & Hblank).
  rewrite Hget, (Hblank eq_refl). reflexivity.
Defined.

(** A push onto the full stack of two: the older snapshot is gone. *)
Lemma history_stacks_bounded_witness :
  undo_stack (_push_undo_snapshot full_stack_app) = [doc_empty_image; sample_doc].
Proof.
  exact (proj2 history_stacks_bounded full_stack_app _ _ eq_refl eq_refl).
Defined.

(** A failed write with nothing queued: the error is kept, the saved
    version is not advanced. *)
Lemma save_completion_outcome_witness :
  let a := app (run [AddCategory; SaveNow] (init_world (JDict []))) in
  let a' := (_on_save_done false (Some (str "disk full")) a).1 in
  last_saved_version a' = 0 /\ _is_dirty a' = true /\
  exists msg, _save_last_error a' = Some msg /\ msg <> [].
Proof.
  cbv zeta.
  destruct (save_completion_outcome
              (app (run [AddCategory; SaveNow] (init_world (JDict [])))) 1 false
              (Some (str "disk full")) eq_refl) as (_ & H).
  destruct (H eq_refl) as (H1 & H2 & H3 & _).
  split; [exact H1|]. split; [apply H2; vm_compute; discriminate|].
  destruct (H3 eq_refl) as (msg & Hm & Hne & _). exists msg. split; [exact Hm|exact Hne].
Defined.

(** A freshly opened document is not dirty; one mutation later it is. *)
Lemma dirty_predicate_witness :
  _is_dirty (init_app sample_doc) = false /\
  _is_dirty (_touch_model true (init_app sample_doc)) = true.
Proof.
  split; [reflexivity|].
  exact (proj1 (proj2 (proj2 dirty_predicate)) (init_app sample_doc) true eq_refl).
Defined.

(** Moving the last of three items down does nothing; moving it up
    exchanges it with the middle one. *)
Lemma move_node_swaps_or_stays_witness :
  move_node sample_doc (ref_item 0 0 2) 1 = OK (sample_doc, ref_item 0 0 2) /\
  exists xs', move_node sample_doc (ref_item 0 0 2) (-1)
              = OK (put_siblings sample_doc (ref_item 0 0 2) (JList xs'), ref_item 0 0 1) /\
              xs' !! 1%nat = Some (sample_item "konbanwa" "buonasera") /\
              xs' !! 2%nat = Some (sample_item "konnichiwa" "ciao").
Proof.
  split.
  - exact (move_node_swaps_or_stays sample_doc (ref_item 0 0 2) _ 2%nat 1
             (sample_items_valid 2 ltac:(lia))).
  - destruct (move_node_swaps_or_stays sample_doc (ref_item 0 0 2) _ 2%nat (-1)
                (sample_items_valid 2 ltac:(lia)))
      as (xi & xj & xs' & Hi & Hj & Hmove & _ & _ & Hnew & Hold & _).
    injection Hi as <-. injection Hj as <-.
    exists xs'. split; [exact Hmove|]. split; [exact Hnew | exact Hold].
Defined.

(** Deleting the only category of a normalized document: the course root
    is returned, and it resolves. *)
Lemma delete_successor_resolves_witness :
  exists data' succ,
    delete_node (_normalize_structure sample_doc) (ref_category 0) = OK (data', succ) /\
    succeeds (get_node data' succ).
Proof.
  refine (delete_successor_resolves (_normalize_structure sample_doc) (ref_category 0)
            _ 0%nat _ (normalized_course_resolves sample_doc)).
  split; [reflexivity|]. split; [vm_compute; reflexivity|].
  split; [reflexivity|]. simpl. lia.
Defined.

Lemma sample_doc_normalized : normalized sample_doc.
Proof. vm_compute. reflexivity. Defined.

(** A category added to the sample document is its second one. *)
Lemma add_appends_and_resolves_witness :
  exists data' r,
    add_category sample_doc (str "Food") (str "food") = OK (data', r) /\
    r = ref_category 1 /\
    get_node data' r = OK (new_category (str "Food") (str "food")).
Proof.
  destruct (add_category sample_doc (str "Food") (str "food")) as [[data' r]|] eqn:E;
    [|vm_compute in E; discriminate E].
  exists data', r. split; [reflexivity|].
  destruct (proj1 add_appends_and_resolves _ _ _ _ _ E) as (xs & Hs & Hr & _ & _ & Hg).
  split; [|exact Hg].
  rewrite Hr in Hs. vm_compute in Hs. injection Hs as <-. exact Hr.
Defined.

(** The middle item of three moved down and up again. *)
Lemma move_node_back_restores_witness :
  exists data1,
    move_node sample_doc (ref_item 0 0 1) 1
    = OK (data1, with_index (ref_item 0 0 1) (Z.of_nat 1 + 1)) /\
    move_node data1 (with_index (ref_item 0 0 1) (Z.of_nat 1 + 1)) (- (1))
    = OK (sample_doc, with_index (ref_item 0 0 1) (Z.of_nat 1)).
Proof.
  refine (move_node_back_restores sample_doc (ref_item 0 0 1) _ 1%nat 1
            (sample_items_valid 1 _) _).
  - lia.
  - simpl. lia.
Defined.

(** Deleting an item of the sample document leaves it normalized. *)
Lemma operations_keep_normalized_witness :
  exists data' r,
    delete_node sample_doc (ref_item 0 0 1) = OK (data', r) /\ normalized data'.
Proof.
  destruct (delete_node sample_doc (ref_item 0 0 1)) as [[data' r]|] eqn:E;
    [|vm_compute in E; discriminate E].
  exists data', r. split; [reflexivity|].
  exact (proj1 (proj2 (proj2 (proj2 (operations_keep_normalized sample_doc
                                       sample_doc_normalized)))) _ _ _ E).
Defined.

Lemma form_edit_stores_fields_witness :
  exists data' kvs',
    _apply_form_to_model sample_doc (ref_item 0 0 0) sample_form = OK data' /\
    get_node data' (ref_item 0 0 0) = OK (JDict kvs') /\
    dict_get (str "ja") kvs' = Some (JStr (strip (item_ja_var sample_form))) /\
    dict_get (str "image") kvs' = Some (JStr DEFAULT_ITEM_IMAGE).
Proof.
  destruct (_apply_form_to_model sample_doc (ref_item 0 0 0) sample_form)
    as [data'|] eqn:E; [|vm_compute in E; discriminate E].
  destruct (form_edit_stores_fields _ _ _ _ E) as (kvs & kvs' & _ & _ & Hg & Hf).
  exists data', kvs'. split; [reflexivity|]. split; [exact Hg|].
  cbn [kind ref_item] in Hf. destruct Hf as (Hja & _ & _ & Himg & _).
  split; [exact Hja|]. apply Himg. vm_compute. reflexivity.
Defined.

(** A new category empties the redo stack. *)
Lemma new_edit_drops_redo_witness :
  redo_stack (app (handle AddCategory (init_world sample_doc))) = [].
Proof.
  exact (proj1 (proj1 (new_edit_drops_redo AddCategory (init_world sample_doc) eq_refl)
                  eq_refl)).
Defined.

(** After one command, undo and redo give back the document and both
    stacks. *)
Lemma undo_redo_round_trip_witness :
  let a := app (run [AddCategory] (init_world (JDict []))) in
  let b := _do_redo (_do_undo a) in
  model_data b = model_data a /\ undo_stack b = undo_stack a /\
  redo_stack b = redo_stack a /\ model_version b = model_version a + 2.
Proof.
  refine (proj1 (undo_redo_round_trip (JDict []) [AddCategory]) _).
  vm_compute. discriminate.
Defined.

(** Three field edits with an autosave in between: one undo goes back to
    the document before the first. *)
Lemma field_edit_burst_is_one_undo_step_witness :
  let w := run [] (init_world sample_doc) in
  let w' := run (FieldChanged (ref_item 0 0 0) sample_form
                 :: [FieldChanged (ref_item 0 0 0) sample_form; AutosaveTimer;
                     FieldChanged (ref_item 0 0 1) sample_form]) w in
  model_data (_do_undo (app w')) = model_data (app w).
Proof.
  refine (proj2 (proj2 (proj2 (field_edit_burst_is_one_undo_step sample_doc []
                                 (ref_item 0 0 0) sample_form
                                 [FieldChanged (ref_item 0 0 0) sample_form; AutosaveTimer;
                                  FieldChanged (ref_item 0 0 1) sample_form] eq_refl _)))).
  repeat constructor.
Defined.

(** While a write is in flight the saved version stays behind. *)
Lemma version_tracks_changes_witness :
  let a := app (run [AddCategory; SaveNow; AddCategory] (init_world (JDict []))) in
  last_saved_version a <= 1 <= model_version a.
Proof.
  exact (proj2 (proj2 version_tracks_changes (JDict []) [AddCategory; SaveNow; AddCategory])
           1 eq_refl).
Defined.

(** A save request leaves the document and the history alone. *)
Lemma saving_and_editing_are_separate_witness :
  edit_fields (app (handle SaveNow (init_world sample_doc)))
  = edit_fields (app (init_world sample_doc)).
Proof.
  exact (proj1 (saving_and_editing_are_separate SaveNow (init_world sample_doc))
           (or_introl eq_refl)).
Defined.

(** One command, one save that succeeds: the file holds the document. *)
Lemma clean_document_is_in_the_file_witness :
  file_matches (JDict [])
    (saved_snapshot [AddCategory; SaveNow; SaveDone true None] (init_world (JDict [])) None)
    (app (run [AddCategory; SaveNow; SaveDone true None] (init_world (JDict [])))).
Proof.
  refine (clean_document_is_in_the_file (JDict [])
            [AddCategory; SaveNow; SaveDone true None] _).
  vm_compute. reflexivity.
Defined.


(** The first item cannot move up: the command leaves the editor as it
    is. *)
Lemma move_command_matches_probe_witness :
  _can_move (model_data full_stack_app) (ref_item 0 0 0) (-1) = OK false /\
  _move_selected (ref_item 0 0 0) (-1) full_stack_app = full_stack_app.
Proof.
  exact (move_command_matches_probe full_stack_app (ref_item 0 0 0) _ 0%nat (-1)
           (sample_items_valid 0 ltac:(lia)) sample_doc_normalized).
Defined.

(** On the first item: no Up button, and the Up command does nothing. *)
Lemma toolbar_matches_handlers_witness :
  exists ws,
    _refresh_toolbar (ref_item 0 0 0) full_stack_app = OK ws /\
    btn_add_category ∈ ws /\
    _move_selected (ref_item 0 0 0) (-1) full_stack_app = full_stack_app.
Proof.
  destruct (_refresh_toolbar (ref_item 0 0 0) full_stack_app) as [ws|] eqn:E;
    [|vm_compute in E; discriminate E].
  exists ws. split; [reflexivity|].
  destruct (toolbar_matches_handlers _ _ _ E) as (Hin & _ & _ & _ & _ & _ & Hup & _).
  split; [exact Hin|]. apply Hup.
  vm_compute in E. injection E as <-. intros H. not_in_list H.
Defined.

(** An item index one past the end. *)
Lemma stale_reference_raises_witness :
  get_node sample_doc (ref_item 0 0 3) = Raise IndexError /\
  delete_node sample_doc (ref_item 0 0 3) = Raise IndexError.
Proof.
  refine (proj1 (proj2 (proj1 (proj2 stale_reference_raises) sample_doc (ref_item 0 0 3)
                          [sample_item "ohayou" "buongiorno"; sample_item "konnichiwa" "ciao";
                           sample_item "konbanwa" "buonasera"] eq_refl _))
            3 eq_refl _).
  - vm_compute. reflexivity.
  - right. simpl. lia.
Defined.

(** A write that fails half way leaves the file as it was, and no
    temporary file. *)
Lemma atomic_write_all_or_nothing_witness :
  let F := {| mkdir_fails := false; mkstemp_fails := false;
              write_fails := Some (str "{"); replace_fails := false;
              unlink_fails := false |} in
  let r := atomic_write_text F "jp_course.json.x1.tmp" "jp_course.json" (str "{}")
             (<["jp_course.json" := str "[]"]> ∅) in
  r.1 = <["jp_course.json" := str "[]"]> ∅.
Proof.
  refine (proj1 (proj2 (proj2 (proj2
            (atomic_write_all_or_nothing _ _ _ _ (<["jp_course.json" := str "[]"]> ∅) _ _))))
            _ _).
  - discriminate.
  - vm_compute. reflexivity.
  - vm_compute. reflexivity.
  - reflexivity.
Defined.

(** After an edit the autosave timer is armed. *)
Lemma unsaved_changes_have_a_save_coming_witness :
  let a := app (run [AddCategory] (init_world (JDict []))) in
  _autosave_after_id a = true \/ _save_in_progress a = true.
Proof.
  refine (proj1 unsaved_changes_have_a_save_coming (JDict []) [AddCategory] _ _).
  - repeat constructor.
  - vm_compute. reflexivity.
Defined.

(** An item with a note: normalization adds the image and keeps the
    note. *)
Lemma normalization_keeps_existing_fields_witness :
  exists kvs',
    normalize_item (JDict [(str "ja", JStr (str "inu")); (str "note", JStr (str "dog"))])
    = JDict kvs' /\
    dict_get (str "note") kvs' = Some (JStr (str "dog")).
Proof.
  destruct (proj1 normalization_keeps_existing_fields
              [(str "ja", JStr (str "inu")); (str "note", JStr (str "dog"))])
    as (kvs' & Hn & Hk).
  exists kvs'. split; [exact Hn|]. apply Hk. vm_compute. reflexivity.
Defined.
